(** * Tenant resolution and request rewriting middleware

    A shallow embedding of [middleware.ts] (host validation, tenant
    resolution, request rewriting) and of the lookup endpoint it calls,
    and the properties of its specification.

    Conventions of the embedding.
    - A JavaScript string is a [string]: a sequence of 8-bit code units.
      Header values reach the middleware as byte strings and every path,
      slug and host name the code inspects is ASCII; [toLowerCase] and
      [trim] are given on the whole 0..255 range (Latin-1). A string of
      the environment or of a payload with a code unit above 255 has no
      term here: what is stated about such strings is stated about the
      others.
    - A regular expression literal is a [regex] term run by a derivative
      matcher; [regex_match] is a test of an anchored ([^...$]) literal and
      [regex_test] a test of an unanchored one.
    - [console], [fetch], the timers and [Date.now] act on an explicit
      [World]; a computation is a state-and-exception function [M]. The
      network and the clock are parameters: functions of what has
      happened so far. The delay of the abort timer is not part of the
      embedding: whether a call is aborted is the network's answer.
    - The constants of the module are functions of the process
      environment [ProcessEnv]. The URL parser is a parameter too:
      [new URL] throws on a base the parser refuses.
    - A payload is any JSON value: the cast [as TenantInfo] checks
      nothing. [Headers.set] and [fetch] normalise header values and
      throw on the values the Fetch standard refuses. *)

From Stdlib Require Import Ascii String ZArith Lia.
From stdpp Require Import gmap strings pretty.

Local Open Scope Z_scope.

(** ** JavaScript strings *)

Module Js.

Definition code (c : ascii) : N := N_of_ascii c.

Definition in_range (lo hi : N) (c : ascii) : bool :=
  ((lo <=? code c) && (code c <=? hi))%N.

(** [String.prototype.toLowerCase], one code unit at a time: A-Z and the
    Latin-1 capitals (all of U+00C0..U+00DE but the multiplication
    sign) move up by 32. *)
Definition lower_char (c : ascii) : ascii :=
  if in_range 65 90 c
     || (in_range 192 222 c && negb (code c =? 215)%N)
  then ascii_of_N (code c + 32) else c.

Fixpoint toLowerCase (s : string) : string :=
  match s with
  | EmptyString => EmptyString
  | String c s' => String (lower_char c) (toLowerCase s')
  end.

(** White space and line terminators of ECMAScript below U+0100:
    TAB, LF, VT, FF, CR, SP, NBSP. *)
Definition is_space (c : ascii) : bool :=
  in_range 9 13 c || (code c =? 32)%N || (code c =? 160)%N.

Fixpoint trimStart (s : string) : string :=
  match s with
  | EmptyString => EmptyString
  | String c s' => if is_space c then trimStart s' else s
  end.

Fixpoint trimEnd (s : string) : string :=
  match s with
  | EmptyString => EmptyString
  | String c s' =>
      match trimEnd s' with
      | EmptyString => if is_space c then EmptyString else String c EmptyString
      | t => String c t
      end
  end.

Definition trim (s : string) : string := trimEnd (trimStart s).

(** [s.split(d)[0]] for a one-character separator: the part of [s]
    before the first [d] (all of [s] when there is none). *)
Fixpoint split_head (d : ascii) (s : string) : string :=
  match s with
  | EmptyString => EmptyString
  | String c s' => if Ascii.eqb c d then EmptyString else String c (split_head d s')
  end.

Fixpoint startsWith (s p : string) : bool :=
  match p, s with
  | EmptyString, _ => true
  | String _ _, EmptyString => false
  | String a p', String b s' => Ascii.eqb a b && startsWith s' p'
  end.

(** [s.slice(n)] for [0 <= n] *)
Fixpoint slice_from (n : nat) (s : string) : string :=
  match n, s with
  | O, _ => s
  | S _, EmptyString => EmptyString
  | S n', String _ s' => slice_from n' s'
  end.

(** the first [n] code units of [s] *)
Fixpoint take (n : nat) (s : string) : string :=
  match n, s with
  | O, _ => EmptyString
  | S _, EmptyString => EmptyString
  | S n', String c s' => String c (take n' s')
  end.

(** [s.slice(0, -n)] for [0 < n]: the end index is [max (length s - n) 0] *)
Definition slice_0_neg (n : nat) (s : string) : string :=
  take (String.length s - n) s.

Definition endsWith (s p : string) : bool :=
  (String.length p <=? String.length s)%nat
  && String.eqb (slice_from (String.length s - String.length p) s) p.

Fixpoint includes (s p : string) : bool :=
  startsWith s p
  || match s with
     | EmptyString => false
     | String _ s' => includes s' p
     end.

(** [s.replace(/\.$/, "")]: one final dot is removed *)
Fixpoint strip_trailing_dot (s : string) : string :=
  match s with
  | EmptyString => EmptyString
  | String c s' =>
      match s' with
      | EmptyString => if Ascii.eqb c "." then EmptyString else s
      | String _ _ => String c (strip_trailing_dot s')
      end
  end.

(** [s.replace(/^https?:\/\//, "")] *)
Definition strip_scheme (s : string) : string :=
  if startsWith s "https://" then slice_from 8 s
  else if startsWith s "http://" then slice_from 7 s
  else s.

Fixpoint all (p : ascii -> bool) (s : string) : bool :=
  match s with
  | EmptyString => true
  | String c s' => p c && all p s'
  end.

(** a string is truthy when it is not empty *)
Definition truthy (s : string) : bool :=
  match s with EmptyString => false | _ => true end.

Definition is_digit (c : ascii) : bool := in_range 48 57 c.

End Js.

(** ** Regular expressions *)

Module Regex.

Inductive regex : Type :=
| Void : regex
| Eps : regex
| Class (p : ascii -> bool) : regex
| Seq (r1 r2 : regex) : regex
| Alt (r1 r2 : regex) : regex
| Star (r : regex) : regex.

Fixpoint nullable (r : regex) : bool :=
  match r with
  | Void => false
  | Eps => true
  | Class _ => false
  | Seq r1 r2 => nullable r1 && nullable r2
  | Alt r1 r2 => nullable r1 || nullable r2
  | Star _ => true
  end.

Fixpoint deriv (c : ascii) (r : regex) : regex :=
  match r with
  | Void => Void
  | Eps => Void
  | Class p => if p c then Eps else Void
  | Seq r1 r2 =>
      if nullable r1
      then Alt (Seq (deriv c r1) r2) (deriv c r2)
      else Seq (deriv c r1) r2
  | Alt r1 r2 => Alt (deriv c r1) (deriv c r2)
  | Star r1 => Seq (deriv c r1) (Star r1)
  end.

(** the whole of [s] matches [r]: the test of [/^r$/] *)
Fixpoint regex_match (r : regex) (s : string) : bool :=
  match s with
  | EmptyString => nullable r
  | String c s' => regex_match (deriv c r) s'
  end.

Definition any : regex := Class (fun _ => true).

(** some substring of [s] matches [r]: the test of [/r/] *)
Definition regex_test (r : regex) (s : string) : bool :=
  regex_match (Seq (Star any) (Seq r (Star any))) s.

Definition Opt (r : regex) : regex := Alt Eps r.
Definition Plus (r : regex) : regex := Seq r (Star r).

(** [r{0,n}] *)
Fixpoint UpTo (n : nat) (r : regex) : regex :=
  match n with
  | O => Eps
  | S n' => Opt (Seq r (UpTo n' r))
  end.

(** [r{lo,hi}] *)
Fixpoint Repeat (lo hi : nat) (r : regex) : regex :=
  match lo with
  | O => UpTo hi r
  | S lo' => Seq r (Repeat lo' (pred hi) r)
  end.

Definition Char (a : ascii) : regex := Class (Ascii.eqb a).

(** a literal like [/abc/] *)
Fixpoint Lit (s : string) : regex :=
  match s with
  | EmptyString => Eps
  | String c s' => Seq (Char c) (Lit s')
  end.

(** a literal under the [i] flag *)
Fixpoint LitI (s : string) : regex :=
  match s with
  | EmptyString => Eps
  | String c s' =>
      Seq (Class (fun x => Ascii.eqb (Js.lower_char x) (Js.lower_char c))) (LitI s')
  end.

(** [[...]]: a class given by the characters it lists *)
Definition OneOf (s : string) : regex :=
  Class (fun x => Js.includes s (String x EmptyString)).

(** The language of a regular expression. *)
Inductive lang : regex -> string -> Prop :=
| lang_eps : lang Eps ""
| lang_class p c : p c = true -> lang (Class p) (String c "")
| lang_seq r1 r2 s1 s2 :
    lang r1 s1 -> lang r2 s2 -> lang (Seq r1 r2) (s1 +:+ s2)
| lang_alt_l r1 r2 s : lang r1 s -> lang (Alt r1 r2) s
| lang_alt_r r1 r2 s : lang r2 s -> lang (Alt r1 r2) s
| lang_star_nil r : lang (Star r) ""
| lang_star_app r s1 s2 :
    lang r s1 -> lang (Star r) s2 -> lang (Star r) (s1 +:+ s2).

End Regex.

(** ** Configuration, read once from the process environment *)

Record ProcessEnv : Type := {
  env_PORT : option string;
  env_NEXT_PUBLIC_BASE_URL : option string;
  env_INTERNAL_API_SECRET : option string
}.

Definition PORT (env : ProcessEnv) : string :=
  default "3000" (env_PORT env).

Definition BASE_URL (env : ProcessEnv) : string :=
  default ("http://localhost:" +:+ PORT env) (env_NEXT_PUBLIC_BASE_URL env).

Definition ROOT_DOMAIN (env : ProcessEnv) : string :=
  Js.toLowerCase
    (Js.split_head ":"
       (default ("localhost:" +:+ PORT env)
          (Js.strip_scheme <$> env_NEXT_PUBLIC_BASE_URL env))).

Definition INTERNAL_API_SECRET (env : ProcessEnv) : option string :=
  env_INTERNAL_API_SECRET env.

Definition RESERVED_SLUGS : gset string :=
  list_to_set
    [ "api"; "_next"; "static"; "public"; "admin"; "healthz";
      ".well-known"; "favicon.ico"; "robots.txt"; "sitemap.xml" ].

(** The interface [TenantInfo]: what the code casts a payload to, and
    what the lookup endpoint selects from a row. *)
Module TenantInfo.
Record t : Type := {
  id : string;
  slug : string;
  customDomain : option string
}.
End TenantInfo.

(** ** JSON values, as far as the code observes them *)

(** A JSON number: the code only tests it for zero and renders it. *)
Record Number : Type := {
  is_zero : bool;
  rendering : string
}.

(** What [response.json()] can give. In an object the members are in the
    order of the text; the last member of a name is the one that counts. *)
#[local] Unset Elimination Schemes.
Inductive Json : Type :=
| JNull : Json
| JBool (b : bool) : Json
| JNum (n : Number) : Json
| JStr (s : string) : Json
| JArr (items : list Json) : Json
| JObj (members : list (string * Json)) : Json.
#[local] Set Elimination Schemes.

(** A JavaScript value the code handles: a JSON value, or [undefined]
    ([None]). *)
Definition Value : Type := option Json.

Fixpoint member (k : string) (members : list (string * Json)) : Value :=
  match members with
  | [] => None
  | (k', v) :: rest =>
      match member k rest with
      | Some v' => Some v'
      | None => if String.eqb k' k then Some v else None
      end
  end.

(** [v.k] on a value that is not null, for the names [id], [slug] and
    [customDomain], which are properties of no prototype: only an object
    has them. *)
Definition field (k : string) (v : Json) : Value :=
  match v with
  | JObj members => member k members
  | _ => None
  end.

(** [!!v] *)
Definition truthy_value (v : Value) : bool :=
  match v with
  | None | Some JNull => false
  | Some (JBool b) => b
  | Some (JNum n) => negb (is_zero n)
  | Some (JStr s) => Js.truthy s
  | Some (JArr _) | Some (JObj _) => true
  end.

(** [a ?? b] *)
Definition nullish (a : Value) (b : Json) : Json :=
  match a with
  | None | Some JNull => b
  | Some v => v
  end.

Fixpoint join (sep : string) (parts : list string) : string :=
  match parts with
  | [] => ""
  | [p] => p
  | p :: rest => p +:+ sep +:+ join sep rest
  end.

(** [ToString]; [None] when it throws a TypeError. An array is joined
    with commas, a null element giving the empty string. An object gives
    [[object Object]] through [Object.prototype.toString], unless it has
    a member [toString] of its own: a JSON value cannot be called, and
    [valueOf] then gives no primitive either. *)
Fixpoint ToString (v : Json) : option string :=
  match v with
  | JNull => Some "null"
  | JBool true => Some "true"
  | JBool false => Some "false"
  | JNum n => Some (if is_zero n then "0" else rendering n)
  | JStr s => Some s
  | JArr items =>
      join "," <$>
        (fix elements (l : list Json) : option (list string) :=
           match l with
           | [] => Some []
           | item :: rest =>
               match (match item with JNull => Some "" | _ => ToString item end),
                     elements rest with
               | Some s, Some parts => Some (s :: parts)
               | _, _ => None
               end
           end) items
  | JObj members =>
      if existsb (fun kv => String.eqb kv.1 "toString") members
      then None else Some "[object Object]"
  end.

Definition ToString_value (v : Value) : option string :=
  match v with
  | None => Some "undefined"
  | Some j => ToString j
  end.

(** A [TenantInfo] as a JSON object. *)
Definition of_tenant (t : TenantInfo.t) : Json :=
  JObj [ ("id", JStr (TenantInfo.id t));
         ("slug", JStr (TenantInfo.slug t));
         ("customDomain",
          match TenantInfo.customDomain t with
          | Some d => JStr d
          | None => JNull
          end) ].

(** ** The world the middleware acts on *)

Inductive LogLevel : Type := Warn | Error.

Record LogEntry : Type := {
  log_level : LogLevel;
  log_args : list string
}.

(** A [URL] object, kept in parts: the base it was resolved against (it
    has that base's origin), its absolute path, and its query parameters
    in order. *)
Record URL : Type := {
  url_base : string;
  url_pathname : string;
  url_searchParams : list (string * string)
}.

(** [URLSearchParams.set]: the first pair named [k] takes the value, later
    ones go, and with no such pair one is appended. *)
Fixpoint params_set (k v : string) (ps : list (string * string)) : list (string * string) :=
  match ps with
  | [] => [(k, v)]
  | (k', v') :: ps' =>
      if String.eqb k' k
      then (k, v) :: filter (fun kv => kv.1 ≠ k) ps'
      else (k', v') :: params_set k v ps'
  end.

Definition searchParams_set (k v : string) (u : URL) : URL :=
  {| url_base := url_base u; url_pathname := url_pathname u;
     url_searchParams := params_set k v (url_searchParams u) |}.

(** A request on the network: what [fetch] sends. The method is the
    default one; the headers are as [fetch] has normalised them. *)
Record FetchRequest : Type := {
  fetch_method : string;
  fetch_url : URL;
  fetch_headers : gmap string string;
  fetch_cache : string
}.

(** A thrown value: [is_Error] is [error instanceof Error]. *)
Record JsError : Type := {
  is_Error : bool;
  error_name : string;
  error_message : string
}.

Definition TypeError (msg : string) : JsError :=
  {| is_Error := true; error_name := "TypeError"; error_message := msg |}.

Definition SyntaxError (msg : string) : JsError :=
  {| is_Error := true; error_name := "SyntaxError"; error_message := msg |}.

(** A response: its status and its body, [None] when the body is not JSON. *)
Record Response : Type := {
  status : Z;
  body : option Json
}.

Definition ok (r : Response) : bool :=
  (200 <=? status r) && (status r <=? 299).

Inductive FetchOutcome : Type :=
| Rejected (e : JsError) : FetchOutcome
| Fulfilled (r : Response) : FetchOutcome.

Record World : Type := {
  console : list LogEntry;
  network : list FetchRequest;
  timers : nat
}.

Inductive Outcome (A : Type) : Type :=
| Returned (a : A) : Outcome A
| Thrown (e : JsError) : Outcome A.
Arguments Returned {A} a.
Arguments Thrown {A} e.

(** State and exceptions. *)
Definition M (A : Type) : Type := World -> Outcome A * World.

Global Instance M_ret : MRet M := fun A a w => (Returned a, w).

Global Instance M_bind : MBind M := fun A B f m w =>
  match m w with
  | (Returned a, w') => f a w'
  | (Thrown e, w') => (Thrown e, w')
  end.

Definition throw {A : Type} (e : JsError) : M A := fun w => (Thrown e, w).

Definition try_catch {A : Type} (body : M A) (handler : JsError -> M A) : M A :=
  fun w =>
    match body w with
    | (Returned a, w') => (Returned a, w')
    | (Thrown e, w') => handler e w'
    end.

Definition finally {A : Type} (body : M A) (cleanup : M unit) : M A :=
  fun w =>
    let '(r, w') := body w in
    match cleanup w' with
    | (Returned _, w'') => (r, w'')
    | (Thrown e, w'') => (Thrown e, w'')
    end.

Definition log (l : LogLevel) (args : list string) : M unit := fun w =>
  (Returned tt,
   {| console := console w ++ [{| log_level := l; log_args := args |}];
      network := network w; timers := timers w |}).

Definition console_warn : list string -> M unit := log Warn.
Definition console_error : list string -> M unit := log Error.

Definition setTimeout : M unit := fun w =>
  (Returned tt,
   {| console := console w; network := network w; timers := S (timers w) |}).

Definition clearTimeout : M unit := fun w =>
  (Returned tt,
   {| console := console w; network := network w; timers := pred (timers w) |}).

(** [new URL(path, base)] for an absolute [path]. Whether the base
    parses is the verdict of the URL parser, the parameter [parses]; a
    base that parses starts with a scheme, so it contains a colon. On a
    base that does not parse [new URL] throws a TypeError. *)
Definition url_accepts (parses : string -> bool) (base : string) : bool :=
  Js.includes base ":" && parses base.

Definition new_URL (parses : string -> bool) (path base : string) : M URL :=
  if url_accepts parses base
  then mret {| url_base := base; url_pathname := path; url_searchParams := [] |}
  else throw (TypeError "Invalid URL").

(** [response.json()] *)
Definition json (r : Response) : M Json :=
  match body r with
  | Some j => mret j
  | None => throw (SyntaxError "Unexpected token")
  end.

(** [v.k], for the names of [field]: on null it throws. *)
Definition get (k : string) (v : Json) : M Value :=
  match v with
  | JNull => throw (TypeError "Cannot read properties of null")
  | _ => mret (field k v)
  end.

(** a value where a string is wanted (a template literal, an argument
    converted to a string) *)
Definition to_string (v : Value) : M string :=
  match ToString_value v with
  | Some s => mret s
  | None => throw (TypeError "Cannot convert object to primitive value")
  end.

(** ** Header values *)

Module Headers.

(** HTTP white space: TAB, LF, CR, SP. *)
Definition is_whitespace (c : ascii) : bool :=
  (Js.code c =? 9)%N || (Js.code c =? 10)%N || (Js.code c =? 13)%N
  || (Js.code c =? 32)%N.

Fixpoint strip_start (s : string) : string :=
  match s with
  | EmptyString => EmptyString
  | String c s' => if is_whitespace c then strip_start s' else s
  end.

Fixpoint strip_end (s : string) : string :=
  match s with
  | EmptyString => EmptyString
  | String c s' =>
      match strip_end s' with
      | EmptyString => if is_whitespace c then EmptyString else String c EmptyString
      | t => String c t
      end
  end.

(** a value is normalised by removing white space at both ends *)
Definition normalize (value : string) : string := strip_end (strip_start value).

(** a normalised value is a header value when it holds no NUL, LF or CR *)
Definition is_value (value : string) : bool :=
  Js.all (fun c => negb ((Js.code c =? 0)%N || (Js.code c =? 10)%N
                         || (Js.code c =? 13)%N)) value.

(** what a header is set to for [value]; [None] when the value is refused *)
Definition accepted (value : string) : option string :=
  if is_value (normalize value) then Some (normalize value) else None.

(** [headers.set(name, value)] for a lower-case [name] of the code;
    [None] when it throws a TypeError *)
Definition set (name value : string) (h : gmap string string)
  : option (gmap string string) :=
  (fun v => <[ name := v ]> h) <$> accepted value.

(** the headers of a request made from an object literal, whose names
    are distinct *)
Fixpoint fill (init : list (string * string)) (h : gmap string string)
  : option (gmap string string) :=
  match init with
  | [] => Some h
  | (name, value) :: rest =>
      match set name value h with
      | Some h' => fill rest h'
      | None => None
      end
  end.

End Headers.

Definition Headers_set (name value : string) (h : gmap string string)
  : M (gmap string string) :=
  match Headers.set name value h with
  | Some h' => mret h'
  | None => throw (TypeError "Invalid header value")
  end.

Record NextURL : Type := {
  origin : string;
  pathname : string;
  search : string
}.

(** The request: its URL and its headers, the names in lower case. *)
Record NextRequest : Type := {
  nextUrl : NextURL;
  headers : gmap string string
}.

Inductive NextResponse : Type :=
| Respond (text : string) (code : Z) : NextResponse
| Next (request_headers : option (gmap string string)) : NextResponse
| Rewrite (url : NextURL) (request_headers : gmap string string) : NextResponse.

(** ** The middleware *)

Definition host_char (c : ascii) : bool :=
  Js.in_range 97 122 c || Js.in_range 48 57 c || Ascii.eqb c "." || Ascii.eqb c "-".

Definition slug_char (c : ascii) : bool :=
  Js.in_range 97 122 c || Js.in_range 48 57 c || Ascii.eqb c "-".

Definition hostRegex : Regex.regex :=
  Regex.Seq (Regex.Plus (Regex.Class host_char))
    (Regex.Opt (Regex.Seq (Regex.Char ":") (Regex.Repeat 1 5 (Regex.Class Js.is_digit)))).

Definition maxLength : nat := 253.

Definition suspiciousPatterns : list Regex.regex :=
  [ Regex.Lit "..";
    Regex.Alt (Regex.Char "<") (Regex.Char ">");
    Regex.Class (fun c => Ascii.eqb c "'" || Ascii.eqb c "034" || Ascii.eqb c "`");
    Regex.Class (fun c => Ascii.eqb c "{" || Ascii.eqb c "}");
    Regex.LitI "javascript:" ].

Definition slugRegex : Regex.regex := Regex.Repeat 3 63 (Regex.Class slug_char).

Definition normalizeAndValidateHost (hostHeader : option string) : M (option string) :=
  match hostHeader with
  | None => mret None
  | Some hostHeader =>
      if negb (Js.truthy hostHeader) then mret None else
      let raw := Js.trim (Js.toLowerCase hostHeader) in
      if negb (Regex.regex_match hostRegex raw) || (maxLength <? String.length raw)%nat
      then console_warn ["Invalid host header rejected: " +:+ raw];; mret None
      else if existsb (fun pattern => Regex.regex_test pattern raw) suspiciousPatterns
      then console_warn ["Suspicious host header rejected: " +:+ raw];; mret None
      else
        let host := Js.strip_trailing_dot (Js.split_head ":" raw) in
        mret (Some (if Js.startsWith host "www." then Js.slice_from 4 host else host))
  end.

Definition isSlugValid (slug : string) : bool :=
  if bool_decide (slug ∈ RESERVED_SLUGS) then false
  else if negb (Regex.regex_match slugRegex slug) then false
  else if Js.startsWith slug "-" || Js.endsWith slug "-" || Js.includes slug "--"
  then false
  else true.

(** [isSlugValid] on the value the payload has for [slug], which the
    cast [as TenantInfo] does not check. A value that is no string is in
    no set of strings; the pattern is tested on its rendering; and when
    that matches, the call of [startsWith], which only strings have,
    throws. *)
Definition isSlugValid_value (slug : Value) : M bool :=
  match slug with
  | Some (JStr s) => mret (isSlugValid s)
  | _ =>
      text ← to_string slug;
      if negb (Regex.regex_match slugRegex text) then mret false
      else throw (TypeError "slug.startsWith is not a function")
  end.

Section Middleware.

Variable env : ProcessEnv.
(** the verdict of the URL parser on a base *)
Variable parses : string -> bool.
(** what the network answers to a request, given what happened before *)
Variable net : World -> FetchRequest -> FetchOutcome.
(** what the clock shows, given what happened before *)
Variable clock : World -> Z.

Definition Date_now : M Z := fun w => (Returned (clock w), w).

(** [fetch(url, { headers, signal, cache })]. The headers are normalised
    and checked first: on a value that is refused the promise is
    rejected with a TypeError and nothing is sent. *)
Definition fetch (url : URL) (init : list (string * string)) : M Response := fun w =>
  match Headers.fill init ∅ with
  | None => (Thrown (TypeError "Invalid header value"), w)
  | Some hdrs =>
      let request :=
        {| fetch_method := "GET"; fetch_url := url; fetch_headers := hdrs;
           fetch_cache := "no-store" |} in
      let w' :=
        {| console := console w; network := network w ++ [request];
           timers := timers w |} in
      match net w request with
      | Fulfilled r => (Returned r, w')
      | Rejected e => (Thrown e, w')
      end
  end.

(** the part of [resolveTenantByHostname] after the subdomain block *)
Definition lookup (hostname : string) (url : URL) : M Value :=
  let url := searchParams_set "hostname" hostname url in
  setTimeout;;
  finally
    (try_catch
       (let init : list (string * string) :=
          match INTERNAL_API_SECRET env with
          | Some secret =>
              if Js.truthy secret then [("x-internal-secret", secret)]
              else [("x-internal-call", "tenant-resolver")]
          | None => [("x-internal-call", "tenant-resolver")]
          end in
        response ← fetch url init;
        if ok response then
          tenant ← json response;
          slug ← get "slug" tenant;
          invalid ←
            (if truthy_value slug
             then valid ← isSlugValid_value slug; mret (negb valid)
             else mret false);
          if invalid : bool
          then text ← to_string slug;
               console_error ["Invalid slug returned from API: " +:+ text];;
               mret None
          else mret (Some tenant)
        else
          (if negb (status response =? 404)
           then console_error
                  ["Tenant resolution failed with status: " +:+ pretty (status response)]
           else mret tt);;
          mret None)
       (fun error =>
          (if is_Error error then
             if String.eqb (error_name error) "AbortError"
             then console_error ["Tenant resolution timeout for " +:+ hostname]
             else console_error
                    ["Tenant resolution error for " +:+ hostname +:+ ":";
                     error_message error]
           else mret tt);;
          mret None))
    clearTimeout.

Definition resolveTenantByHostname (hostname : string) : M Value :=
  url ← new_URL parses "/api/internal/tenant/resolve" (BASE_URL env);
  let suffix := "." +:+ ROOT_DOMAIN env in
  if Js.endsWith hostname suffix then
    let slug := Js.slice_0_neg (String.length suffix) hostname in
    if Js.truthy slug && isSlugValid slug
    then lookup hostname (searchParams_set "slug" slug url)
    else console_warn ["Invalid tenant slug: " +:+ slug];; mret None
  else lookup hostname url.

(** the part of [middleware] after a tenant is resolved *)
Definition serve (req : NextRequest) (startTime : Z) (originalHost : string) (tenant : Json)
  : M NextResponse :=
  let pathname := pathname (nextUrl req) in
  let search := search (nextUrl req) in
  let requestHeaders := headers req in
  timestamp ← Date_now;
  id ← get "id" tenant;
  value ← to_string id;
  requestHeaders ← Headers_set "x-tenant-id" value requestHeaders;
  slug ← get "slug" tenant;
  value ← to_string slug;
  requestHeaders ← Headers_set "x-tenant-slug" value requestHeaders;
  customDomain ← get "customDomain" tenant;
  value ← to_string (Some (nullish customDomain (JStr originalHost)));
  requestHeaders ← Headers_set "x-tenant-domain" value requestHeaders;
  requestHeaders ← Headers_set "x-tenant-timestamp" (pretty timestamp) requestHeaders;
  requestHeaders ← Headers_set "x-middleware-start" (pretty startTime) requestHeaders;
  slug ← get "slug" tenant;
  text ← to_string slug;
  if Js.startsWith pathname ("/s/" +:+ text)
     || Js.startsWith pathname "/api"
     || Js.startsWith pathname "/healthz"
  then mret (Next (Some requestHeaders))
  else
    slug ← get "slug" tenant;
    text ← to_string slug;
    let url :=
      {| origin := origin (nextUrl req);
         pathname := "/s/" +:+ text +:+ pathname;
         search := search |} in
    now ← Date_now;
    let duration := now - startTime in
    (if 100 <? duration
     then console_warn
            ["Slow middleware execution: " +:+ pretty duration
             +:+ "ms for " +:+ originalHost]
     else mret tt);;
    mret (Rewrite url requestHeaders).

Definition middleware (req : NextRequest) : M NextResponse :=
  startTime ← Date_now;
  originalHost ← normalizeAndValidateHost (headers req !! "host");
  match originalHost with
  | None | Some EmptyString =>
      console_error ["Invalid or missing host header"];;
      mret (Respond "Bad Request" 400)
  | Some originalHost =>
      if String.eqb originalHost (ROOT_DOMAIN env) then mret (Next None) else
      tenant ← resolveTenantByHostname originalHost;
      if negb (truthy_value tenant) then mret (Respond "Not Found" 404) else
      match tenant with
      | Some tenant => serve req startTime originalHost tenant
      | None => mret (Respond "Not Found" 404) (* not reached: null is not truthy *)
      end
  end.

End Middleware.

(** ** Notions of the specification *)

(** [m], run from [w], returns [a] (and does not throw). *)
Definition returns {A : Type} (m : M A) (w : World) (a : A) : Prop :=
  (m w).1 = Returned a.

(** [u] occurs in [s] *)
Definition contains (s u : string) : Prop :=
  exists a b, s = a +:+ u +:+ b.

(** [u], a lower-case pattern, occurs in [s] in some letter case *)
Definition contains_ci (s u : string) : Prop :=
  contains (Js.toLowerCase s) u.

(** The substrings the host validator is specified to refuse. *)
Definition suspicious (h : string) : Prop :=
  contains h ".." \/ contains h "<" \/ contains h ">" \/ contains h "'"
  \/ contains h (String "034" "") \/ contains h "`" \/ contains h "{"
  \/ contains h "}" \/ contains_ci h "javascript:".

(** The slug rules, in the words of the specification. *)
Definition reserved_words : list string :=
  [ "api"; "_next"; "static"; "public"; "admin"; "healthz";
    ".well-known"; "favicon.ico"; "robots.txt"; "sitemap.xml" ].

Definition slug_alphabet : string := "abcdefghijklmnopqrstuvwxyz0123456789-".

(** [s] matches [^[a-z0-9-]{3,63}$] *)
Definition slug_format (s : string) : Prop :=
  (3 <= String.length s <= 63)%nat
  /\ forall c, contains s (String c "") -> contains slug_alphabet (String c "").

Definition leading_hyphen (s : string) : Prop := exists r, s = "-" +:+ r.
Definition trailing_hyphen (s : string) : Prop := exists r, s = r +:+ "-".
Definition double_hyphen (s : string) : Prop := contains s "--".

Definition slug_rules (s : string) : Prop :=
  slug_format s /\ ~ leading_hyphen s /\ ~ trailing_hyphen s /\ ~ double_hyphen s
  /\ s ∉ reserved_words.

(** The host alphabet [[a-z0-9.-]] and the capitals A-Z. *)
Definition host_alphabet : string := "abcdefghijklmnopqrstuvwxyz0123456789.-".
Definition capitals : string := "ABCDEFGHIJKLMNOPQRSTUVWXYZ".

(** [s] ends with a dot *)
Definition ends_dot (s : string) : Prop := exists r, s = r +:+ ".".

(** What a value returned by the host validator looks like: no colon, no
    capital, only host characters, no final dot, at most 253 characters. *)
Definition normalized_shape (s : string) : Prop :=
  ~ contains s ":"
  /\ (forall c, contains s (String c "") -> ~ contains capitals (String c ""))
  /\ (forall c, contains s (String c "") -> contains host_alphabet (String c ""))
  /\ ~ ends_dot s
  /\ (String.length s <= 253)%nat.

(** A port as it may follow a host name: nothing, or a colon and one to
    five digits. *)
Inductive port_suffix : string -> Prop :=
| port_absent : port_suffix ""
| port_present (d : string) :
    (1 <= String.length d <= 5)%nat -> Js.all Js.is_digit d = true ->
    port_suffix (String ":" d).

(** [h] is the root domain [root] up to letter case, with possibly a
    [www.] in front, a dot behind, and a port. *)
Definition root_variant (root h : string) : Prop :=
  exists pre dot port,
    Js.toLowerCase h = pre +:+ root +:+ dot +:+ port
    /\ (pre = "" \/ pre = "www.") /\ (dot = "" \/ dot = ".") /\ port_suffix port.

(** ** Auxiliary notions *)

(** the host header as the validator inspects it *)
Definition raw_of (hostHeader : string) : string :=
  Js.trim (Js.toLowerCase hostHeader).

(** the two checks of the validator *)
Definition accepts (raw : string) : bool :=
  Regex.regex_match hostRegex raw
  && (String.length raw <=? maxLength)%nat
  && negb (existsb (fun pattern => Regex.regex_test pattern raw) suspiciousPatterns).

(** its normalisation step *)
Definition finish (raw : string) : string :=
  let host := Js.strip_trailing_dot (Js.split_head ":" raw) in
  if Js.startsWith host "www." then Js.slice_from 4 host else host.

(** what reaches the regular expression when it accepts *)
Definition allowed_char (c : ascii) : bool :=
  host_char c || Ascii.eqb c ":" || Js.is_digit c.

(** the headers object of the internal call *)
Definition auth_init (env : ProcessEnv) : list (string * string) :=
  match INTERNAL_API_SECRET env with
  | Some secret =>
      if Js.truthy secret then [("x-internal-secret", secret)]
      else [("x-internal-call", "tenant-resolver")]
  | None => [("x-internal-call", "tenant-resolver")]
  end.

(** the headers [fetch] sends for it; [None] when it refuses the secret *)
Definition auth_headers (env : ProcessEnv) : option (gmap string string) :=
  Headers.fill (auth_init env) ∅.

(** the URL object of the resolver, once [new URL] has accepted the base *)
Definition resolve_url (env : ProcessEnv) : URL :=
  {| url_base := BASE_URL env; url_pathname := "/api/internal/tenant/resolve";
     url_searchParams := [] |}.

(** the URL of a lookup: with the slug, for a host under the root domain *)
Definition url_for (env : ProcessEnv) (hostname : string) (url : URL) : Prop :=
  (exists p, hostname = p +:+ "." +:+ ROOT_DOMAIN env /\ isSlugValid p = true
             /\ url = searchParams_set "slug" p (resolve_url env))
  \/ ((forall p, hostname <> p +:+ "." +:+ ROOT_DOMAIN env) /\ url = resolve_url env).

(** the request [lookup] sends, with the headers [hdrs] *)
Definition lookup_request (hostname : string) (url : URL) (hdrs : gmap string string)
  : FetchRequest :=
  {| fetch_method := "GET";
     fetch_url := searchParams_set "hostname" hostname url;
     fetch_headers := hdrs;
     fetch_cache := "no-store" |}.

(** what the resolver makes of a payload *)
Definition vetted (tenant : Json) : Value :=
  match tenant with
  | JNull => None
  | _ =>
      if truthy_value (field "slug" tenant) then
        match field "slug" tenant with
        | Some (JStr s) => if isSlugValid s then Some tenant else None
        | _ => None
        end
      else Some tenant
  end.

(** what [lookup] makes of the network's answer *)
Definition answer (o : FetchOutcome) : Value :=
  match o with
  | Rejected _ => None
  | Fulfilled r =>
      if ok r then
        match body r with
        | Some tenant => vetted tenant
        | None => None
        end
      else None
  end.

(** a world in which nothing has happened yet *)
Definition quiet : World := {| console := []; network := []; timers := O |}.

(** the world after one more entry on the console *)
Definition logged (l : LogLevel) (args : list string) (w : World) : World :=
  {| console := console w ++ [{| log_level := l; log_args := args |}];
     network := network w; timers := timers w |}.

(** the header value a JavaScript value gives; [None] when it has no
    rendering or [Headers.set] refuses it *)
Definition header_value (v : Value) : option string :=
  ToString_value v ≫= Headers.accepted.

(** the request headers the middleware builds once a tenant is resolved;
    [None] when one of the values is refused *)
Definition tenant_headers (req : NextRequest) (originalHost : string) (tenant : Json)
    (startTime timestamp : Z) : option (gmap string string) :=
  id ← header_value (field "id" tenant);
  slug ← header_value (field "slug" tenant);
  domain ← header_value (Some (nullish (field "customDomain" tenant) (JStr originalHost)));
  timestamp ← Headers.accepted (pretty timestamp);
  start ← Headers.accepted (pretty startTime);
  Some (<[ "x-middleware-start" := start ]>
        (<[ "x-tenant-timestamp" := timestamp ]>
        (<[ "x-tenant-domain" := domain ]>
        (<[ "x-tenant-slug" := slug ]>
        (<[ "x-tenant-id" := id ]> (headers req)))))).

(** a character that a header value keeps: no white space of HTTP, no NUL *)
Definition plain_char (c : ascii) : bool :=
  negb (Headers.is_whitespace c) && negb (Js.code c =? 0)%N.

(** the names of these headers *)
Definition tenant_header_names : list string :=
  [ "x-tenant-id"; "x-tenant-slug"; "x-tenant-domain"; "x-tenant-timestamp";
    "x-middleware-start" ].

(** the slug of a tenant as a template literal renders it *)
Definition slug_text (tenant : Json) : string :=
  default "" (ToString_value (field "slug" tenant)).

(** the test of the paths that are handed on as they are *)
Definition handed_on (req : NextRequest) (tenant : Json) : bool :=
  Js.startsWith (pathname (nextUrl req)) ("/s/" +:+ slug_text tenant)
  || Js.startsWith (pathname (nextUrl req)) "/api"
  || Js.startsWith (pathname (nextUrl req)) "/healthz".

(** the URL a request is rewritten to *)
Definition rewritten (req : NextRequest) (tenant : Json) : NextURL :=
  {| origin := origin (nextUrl req);
     pathname := "/s/" +:+ slug_text tenant +:+ pathname (nextUrl req);
     search := search (nextUrl req) |}.

(** The ways a run of the middleware can go. *)
Inductive run_kind (env : ProcessEnv) (parses : string -> bool)
    (net : World -> FetchRequest -> FetchOutcome)
    (clock : World -> Z) (req : NextRequest) (w : World)
  : Outcome NextResponse * World -> Prop :=
| run_refused r w1 :
    normalizeAndValidateHost (headers req !! "host") w = (Returned r, w1) ->
    r = None \/ r = Some "" ->
    run_kind env parses net clock req w
      (Returned (Respond "Bad Request" 400),
       logged Error ["Invalid or missing host header"] w1)
| run_root h :
    normalizeAndValidateHost (headers req !! "host") w = (Returned (Some h), w) ->
    h <> "" -> h = ROOT_DOMAIN env ->
    run_kind env parses net clock req w (Returned (Next None), w)
| run_no_url h :
    normalizeAndValidateHost (headers req !! "host") w = (Returned (Some h), w) ->
    h <> "" -> h <> ROOT_DOMAIN env ->
    url_accepts parses (BASE_URL env) = false ->
    resolveTenantByHostname env parses net h w = (Thrown (TypeError "Invalid URL"), w) ->
    run_kind env parses net clock req w (Thrown (TypeError "Invalid URL"), w)
| run_unresolved h r w2 :
    normalizeAndValidateHost (headers req !! "host") w = (Returned (Some h), w) ->
    h <> "" -> h <> ROOT_DOMAIN env ->
    resolveTenantByHostname env parses net h w = (Returned r, w2) ->
    truthy_value r = false ->
    run_kind env parses net clock req w (Returned (Respond "Not Found" 404), w2)
| run_header_refused h t w2 e :
    normalizeAndValidateHost (headers req !! "host") w = (Returned (Some h), w) ->
    h <> "" -> h <> ROOT_DOMAIN env ->
    resolveTenantByHostname env parses net h w = (Returned (Some t), w2) ->
    truthy_value (Some t) = true ->
    tenant_headers req h t (clock w) (clock w2) = None ->
    is_Error e = true -> error_name e = "TypeError" ->
    run_kind env parses net clock req w (Thrown e, w2)
| run_handed_on h t w2 hdrs :
    normalizeAndValidateHost (headers req !! "host") w = (Returned (Some h), w) ->
    h <> "" -> h <> ROOT_DOMAIN env ->
    resolveTenantByHostname env parses net h w = (Returned (Some t), w2) ->
    truthy_value (Some t) = true ->
    tenant_headers req h t (clock w) (clock w2) = Some hdrs ->
    handed_on req t = true ->
    run_kind env parses net clock req w (Returned (Next (Some hdrs)), w2)
| run_rewritten h t w2 w3 hdrs :
    normalizeAndValidateHost (headers req !! "host") w = (Returned (Some h), w) ->
    h <> "" -> h <> ROOT_DOMAIN env ->
    resolveTenantByHostname env parses net h w = (Returned (Some t), w2) ->
    truthy_value (Some t) = true ->
    tenant_headers req h t (clock w) (clock w2) = Some hdrs ->
    handed_on req t = false ->
    w3 = w2 \/ (exists msg, w3 = logged Warn [msg] w2) ->
    run_kind env parses net clock req w (Returned (Rewrite (rewritten req t) hdrs), w3).

(** [raw] has the form of the host pattern: host characters, not none,
    then possibly a port *)
Definition host_format (raw : string) : Prop :=
  exists a b, raw = a +:+ b /\ a <> "" /\ Js.all host_char a = true /\ port_suffix b.

(** ** Example data *)

(** nothing is set: the root domain is [localhost] *)
Definition default_env : ProcessEnv :=
  {| env_PORT := None; env_NEXT_PUBLIC_BASE_URL := None;
     env_INTERNAL_API_SECRET := None |}.

Definition env_with_base (base : string) : ProcessEnv :=
  {| env_PORT := None; env_NEXT_PUBLIC_BASE_URL := Some base;
     env_INTERNAL_API_SECRET := None |}.

Definition env_with_secret (secret : string) : ProcessEnv :=
  {| env_PORT := None; env_NEXT_PUBLIC_BASE_URL := None;
     env_INTERNAL_API_SECRET := Some secret |}.

(** The verdict of a URL parser on the bases of the examples: those with
    the scheme [http] or [https] are of the form it accepts. *)
Definition http_parser : string -> bool :=
  fun base => Js.startsWith base "http://" || Js.startsWith base "https://".

Definition acme : TenantInfo.t :=
  {| TenantInfo.id := "org_1"; TenantInfo.slug := "acme";
     TenantInfo.customDomain := None |}.

Definition globex : TenantInfo.t :=
  {| TenantInfo.id := "org_2"; TenantInfo.slug := "globex";
     TenantInfo.customDomain := Some "billing.example.com" |}.

(** a network that answers each call with the payload [tenant] *)
Definition net_of (tenant : Json) : World -> FetchRequest -> FetchOutcome :=
  fun _ _ => Fulfilled {| status := 200; body := Some tenant |}.

(** a network that knows one tenant *)
Definition net_acme : World -> FetchRequest -> FetchOutcome := net_of (of_tenant acme).

(** a network that knows none *)
Definition net_404 : World -> FetchRequest -> FetchOutcome :=
  fun _ _ => Fulfilled {| status := 404; body := None |}.

(** a network that is down *)
Definition net_down : World -> FetchRequest -> FetchOutcome :=
  fun _ _ => Rejected (TypeError "fetch failed").

Definition still_clock : World -> Z := fun _ => 0.

(** [n] times the letter [a] *)
Fixpoint letters (n : nat) : string :=
  match n with
  | O => ""
  | S n' => String "a" (letters n')
  end.

Definition request_to (host path : string) : NextRequest :=
  {| nextUrl := {| origin := "http://" +:+ host; pathname := path; search := "?tab=1" |};
     headers := {[ "host" := host ]} |}.

(** the headers handed on for a request to [Billing.Example.com] that is
    resolved to [globex], on a clock that shows 0 *)
Definition billing_headers : gmap string string :=
  <[ "x-middleware-start" := "0" ]>
    (<[ "x-tenant-timestamp" := "0" ]>
    (<[ "x-tenant-domain" := "billing.example.com" ]>
    (<[ "x-tenant-slug" := "globex" ]>
    (<[ "x-tenant-id" := "org_2" ]>
       (headers (request_to "Billing.Example.com" "/invoices")))))).

(** the line feed *)
Definition LF : string := String "010" "".

(** ** The internal lookup endpoint ([api/internal/tenant/resolve]) *)

(** [URLSearchParams.get]: the first value under the name *)
Fixpoint params_get (k : string) (ps : list (string * string)) : option string :=
  match ps with
  | [] => None
  | (k', v) :: ps' => if String.eqb k' k then Some v else params_get k ps'
  end.

(** a value that is a string or null is truthy when it is a non-empty string *)
Definition truthy_opt (o : option string) : bool :=
  match o with
  | Some s => Js.truthy s
  | None => false
  end.

(** The organization table as the endpoint reads it: its rows, with the
    three columns the endpoint selects, in the order a scan yields them;
    or a query that fails. The table of the schema under [src] has no
    column [customDomain] (only the configuration of the organization
    plugin declares the field): against that schema the query is the
    failing one. *)
Inductive Db : Type :=
| DbRows (rows : list TenantInfo.t) : Db
| DbFails (e : JsError) : Db.

(** [eq(organization.slug, slug)] *)
Definition eq_slug (slug : string) (row : TenantInfo.t) : bool :=
  String.eqb (TenantInfo.slug row) slug.

(** [eq(organization.customDomain, hostname)]: never true on a null column *)
Definition eq_customDomain (hostname : string) (row : TenantInfo.t) : bool :=
  match TenantInfo.customDomain row with
  | Some d => String.eqb d hostname
  | None => false
  end.

(** [or(...conditions)]: no condition at all when the list is empty *)
Definition or_conditions (conditions : list (TenantInfo.t -> bool)) (row : TenantInfo.t) : bool :=
  match conditions with
  | [] => true
  | _ => existsb (fun c => c row) conditions
  end.

(** [db.select(...).from(organization).where(or(...)).limit(1).then(rows => rows[0])] *)
Definition select_first (db : Db) (conditions : list (TenantInfo.t -> bool))
  : M (option TenantInfo.t) :=
  match db with
  | DbRows rows => mret (head (List.filter (or_conditions conditions) rows))
  | DbFails e => throw e
  end.

(** the body of a reply of the endpoint *)
Inductive ApiBody : Type :=
| ApiError (error : string) : ApiBody
| ApiTenant (t : TenantInfo.t) : ApiBody.

(** [NextResponse.json(body, { status })] *)
Record ApiResponse : Type := {
  api_status : Z;
  api_body : ApiBody
}.

(** the request as the endpoint reads it: its headers and its URL *)
Record ApiRequest : Type := {
  api_headers : gmap string string;
  api_url : URL
}.

Definition GET (env : ProcessEnv) (db : Db) (request : ApiRequest) : M ApiResponse :=
  let internalSecret := api_headers request !! "x-internal-secret" in
  let internalCall := api_headers request !! "x-internal-call" in
  let denied :=
    if truthy_opt (env_INTERNAL_API_SECRET env)
    then negb (bool_decide (internalSecret = env_INTERNAL_API_SECRET env))
    else negb (bool_decide (internalCall = Some "tenant-resolver")) in
  if denied
  then mret {| api_status := 401; api_body := ApiError "Unauthorized" |}
  else
    let searchParams := url_searchParams (api_url request) in
    let slug := params_get "slug" searchParams in
    let hostname := params_get "hostname" searchParams in
    if negb (truthy_opt slug) && negb (truthy_opt hostname)
    then mret {| api_status := 400;
                 api_body := ApiError "Missing slug or hostname parameter" |}
    else
      try_catch
        (let conditions :=
           (if truthy_opt slug then [eq_slug (default "" slug)] else [])
           ++ (if truthy_opt hostname then [eq_customDomain (default "" hostname)] else []) in
         tenant ← select_first db conditions;
         match tenant with
         | None => mret {| api_status := 404; api_body := ApiError "Tenant not found" |}
         | Some tenant =>
             mret {| api_status := 200;
                     api_body :=
                       ApiTenant
                         {| TenantInfo.id := TenantInfo.id tenant;
                            TenantInfo.slug := TenantInfo.slug tenant;
                            TenantInfo.customDomain := TenantInfo.customDomain tenant |} |}
         end)
        (fun error =>
           console_error
             ["Tenant resolution error:";
              error_name error +:+ ": " +:+ error_message error];;
           mret {| api_status := 500; api_body := ApiError "Internal server error" |}).

(** [HEAD] is answered by [GET] *)
Definition HEAD (env : ProcessEnv) (db : Db) (request : ApiRequest) : M ApiResponse :=
  GET env db request.

(** a request with the headers and the URL of a request on the network,
    as the endpoint reads them *)
Definition as_api_request (r : FetchRequest) : ApiRequest :=
  {| api_headers := fetch_headers r; api_url := fetch_url r |}.

(** the request shows the configured secret or, when none (or an empty
    one) is configured, the header [x-internal-call: tenant-resolver] *)
Definition authorised (env : ProcessEnv) (request : ApiRequest) : Prop :=
  (exists secret,
      env_INTERNAL_API_SECRET env = Some secret /\ secret <> ""
      /\ api_headers request !! "x-internal-secret" = Some secret)
  \/ ((env_INTERNAL_API_SECRET env = None \/ env_INTERNAL_API_SECRET env = Some "")
      /\ api_headers request !! "x-internal-call" = Some "tenant-resolver").

(** the two query parameters of a request to the endpoint *)
Definition slug_param (request : ApiRequest) : option string :=
  params_get "slug" (url_searchParams (api_url request)).

Definition hostname_param (request : ApiRequest) : option string :=
  params_get "hostname" (url_searchParams (api_url request)).

(** the conditions of the query *)
Definition conditions_of (slug hostname : option string) : list (TenantInfo.t -> bool) :=
  (if truthy_opt slug then [eq_slug (default "" slug)] else [])
  ++ (if truthy_opt hostname then [eq_customDomain (default "" hostname)] else []).

(** a parameter is given, and not as the empty string *)
Definition present (o : option string) : Prop := o <> None /\ o <> Some "".

(** an organization table with two rows *)
Definition store : list TenantInfo.t := [acme; globex].

(** a call with the fallback header and an empty [slug] *)
Definition empty_slug_call : ApiRequest :=
  {| api_headers := {[ "x-internal-call" := "tenant-resolver" ]};
     api_url := {| url_base := "http://localhost:3000";
                   url_pathname := "/api/internal/tenant/resolve";
                   url_searchParams := [("slug", "")] |} |}.

(** * Properties *)

(** ** Strings *)

Module JsFacts.
Import Js.

Lemma app_cons c (s t : string) : String c s +:+ t = String c (s +:+ t).
Proof. reflexivity. Qed.

Lemma app_nil_l (s : string) : "" +:+ s = s.
Proof. reflexivity. Qed.

Lemma app_nil_r (s : string) : s +:+ "" = s.
Proof. induction s as [|c s IH]; [done|]. by rewrite app_cons, IH. Qed.

Lemma app_assoc (s t u : string) : (s +:+ t) +:+ u = s +:+ t +:+ u.
Proof. induction s as [|c s IH]; [done|]. by rewrite !app_cons, IH. Qed.

Lemma length_app (s t : string) :
  String.length (s +:+ t) = (String.length s + String.length t)%nat.
Proof. induction s as [|c s IH]; [done|]. rewrite app_cons. simpl. by rewrite IH. Qed.

Lemma app_eq_nil (s t : string) : s +:+ t = "" -> s = "" /\ t = "".
Proof. destruct s; [done|]. rewrite app_cons. discriminate. Qed.

Lemma app_inv_l (s t u : string) : s +:+ t = s +:+ u -> t = u.
Proof. apply (inj (String.app s)). Qed.

Lemma all_app p (s t : string) : all p (s +:+ t) = all p s && all p t.
Proof.
  induction s as [|c s IH]; [done|].
  rewrite app_cons. simpl. rewrite IH. by destruct (p c).
Qed.

Lemma all_impl (p q : ascii -> bool) (s : string) :
  (forall c, p c = true -> q c = true) -> all p s = true -> all q s = true.
Proof.
  intros Hpq. induction s as [|c s IH]; [done|]. simpl.
  intros [Hc Hs]%andb_true_iff. rewrite (Hpq _ Hc). auto.
Qed.

Lemma toLowerCase_app (s t : string) :
  toLowerCase (s +:+ t) = toLowerCase s +:+ toLowerCase t.
Proof. induction s as [|c s IH]; [done|]. rewrite app_cons. simpl. by rewrite IH. Qed.

Lemma length_toLowerCase (s : string) :
  String.length (toLowerCase s) = String.length s.
Proof. induction s as [|c s IH]; [done|]. simpl. by rewrite IH. Qed.

Lemma lower_char_idem c : lower_char (lower_char c) = lower_char c.
Proof. by destruct c as [[] [] [] [] [] [] [] []]. Qed.

Lemma toLowerCase_idem (s : string) : toLowerCase (toLowerCase s) = toLowerCase s.
Proof. induction s as [|c s IH]; [done|]. simpl. by rewrite lower_char_idem, IH. Qed.

(** *** trimming *)

Lemma trimStart_nonspace c (s : string) :
  is_space c = false -> trimStart (String c s) = String c s.
Proof. intros H. simpl. by rewrite H. Qed.

Lemma trimStart_suffix (s : string) :
  exists a, s = a +:+ trimStart s /\ all is_space a = true.
Proof.
  induction s as [|c s (a & Ha & Hsp)].
  - by exists "".
  - simpl. destruct (is_space c) eqn:Hc.
    + exists (String c a). rewrite app_cons, <- Ha. simpl. by rewrite Hc, Hsp.
    + by exists "".
Qed.

Lemma trimEnd_app_nonspace (x : string) l (b : string) :
  is_space l = false ->
  trimEnd (x +:+ String l b) = x +:+ String l (trimEnd b).
Proof.
  intros Hl. induction x as [|c x IH].
  - rewrite !app_nil_l. simpl. rewrite Hl. by destruct (trimEnd b).
  - rewrite !app_cons. simpl. rewrite IH.
    destruct x; by rewrite ?app_nil_l, ?app_cons.
Qed.

Lemma trimEnd_prefix (s : string) :
  exists b, s = trimEnd s +:+ b /\ all is_space b = true.
Proof.
  induction s as [|c s (b & Hb & Hsp)].
  - by exists "".
  - simpl. destruct (trimEnd s) as [|d t] eqn:Ht.
    + destruct (is_space c) eqn:Hc.
      * exists (String c b). rewrite app_nil_l in *. subst s. simpl. by rewrite Hc, Hsp.
      * exists b. rewrite app_cons, <- Hb. done.
    + exists b. by rewrite app_cons, <- Hb.
Qed.

Lemma trimEnd_no_space (s : string) :
  all (fun c => negb (is_space c)) s = true -> trimEnd s = s.
Proof.
  induction s as [|c s IH]; [done|]. simpl.
  intros [Hc Hs]%andb_true_iff. rewrite (IH Hs).
  destruct s; [|done]. by destruct (is_space c).
Qed.

Lemma trim_no_space (s : string) :
  all (fun c => negb (is_space c)) s = true -> trim s = s.
Proof.
  intros H. unfold trim.
  destruct s as [|c s]; [done|].
  rewrite trimStart_nonspace.
  - by apply trimEnd_no_space.
  - simpl in H. by destruct (is_space c).
Qed.

(** A substring that neither begins nor ends with white space survives
    trimming. *)
Lemma trim_keeps_infix (a : string) f (u : string) l (b : string) :
  is_space f = false -> is_space l = false ->
  exists a' b', trim (a +:+ String f (u +:+ String l b))
                = a' +:+ String f (u +:+ String l b').
Proof.
  intros Hf Hl. unfold trim.
  assert (exists a', trimStart (a +:+ String f (u +:+ String l b))
                     = a' +:+ String f (u +:+ String l b)) as [a' ->].
  { induction a as [|c a [a' IH]].
    - exists "". rewrite !app_nil_l. by apply trimStart_nonspace.
    - rewrite app_cons. simpl. destruct (is_space c); [by exists a'|].
      by exists (String c a). }
  exists a', (trimEnd b).
  rewrite <- app_cons, <- !app_assoc.
  rewrite trimEnd_app_nonspace by done.
  by rewrite !app_assoc.
Qed.

Lemma trim_keeps_char (a : string) f (b : string) :
  is_space f = false ->
  exists a' b', trim (a +:+ String f b) = a' +:+ String f b'.
Proof.
  intros Hf. unfold trim.
  assert (exists a', trimStart (a +:+ String f b) = a' +:+ String f b) as [a' ->].
  { induction a as [|c a [a' IH]].
    - exists "". rewrite !app_nil_l. by apply trimStart_nonspace.
    - rewrite app_cons. simpl. destruct (is_space c); [by exists a'|].
      by exists (String c a). }
  exists a', (trimEnd b). by apply trimEnd_app_nonspace.
Qed.

(** *** prefixes, suffixes, substrings *)

Lemma startsWith_spec (s p : string) :
  startsWith s p = true <-> exists r, s = p +:+ r.
Proof.
  revert s. induction p as [|a p IH]; intros s.
  - split; [|by destruct s]. intros _. by exists s.
  - destruct s as [|b s]; simpl.
    + split; [done|]. intros [r Hr]. by rewrite app_cons in Hr.
    + rewrite andb_true_iff, Ascii.eqb_eq, IH. split.
      * intros [-> [r ->]]. by exists r.
      * intros [r Hr]. rewrite app_cons in Hr. injection Hr as -> ->. eauto.
Qed.

Lemma startsWith_app (p r : string) : startsWith (p +:+ r) p = true.
Proof. apply startsWith_spec. eauto. Qed.

Lemma slice_from_app (p r : string) : slice_from (String.length p) (p +:+ r) = r.
Proof. induction p as [|a p IH]; [by destruct r|]. by rewrite app_cons. Qed.

Lemma take_app (a p : string) : take (String.length a) (a +:+ p) = a.
Proof.
  induction a as [|c a IH]; [by destruct p|].
  rewrite app_cons. simpl. by rewrite IH.
Qed.


Lemma slice_0_neg_app (a p : string) : slice_0_neg (String.length p) (a +:+ p) = a.
Proof.
  unfold slice_0_neg. rewrite length_app.
  replace (String.length a + String.length p - String.length p)%nat
    with (String.length a) by lia.
  apply take_app.
Qed.

Lemma take_slice_from n (s : string) : take n s +:+ slice_from n s = s.
Proof.
  revert s. induction n as [|n IH]; intros [|c s]; try done.
  simpl. by rewrite app_cons, IH.
Qed.

Lemma length_slice_from n (s : string) :
  String.length (slice_from n s) = (String.length s - n)%nat.
Proof. revert s. induction n as [|n IH]; intros [|c s]; simpl; auto. Qed.

Lemma endsWith_spec (s p : string) :
  endsWith s p = true <-> exists a, s = a +:+ p.
Proof.
  unfold endsWith. rewrite andb_true_iff, Nat.leb_le, String.eqb_eq. split.
  - intros [_ H]. exists (take (String.length s - String.length p) s).
    rewrite <- (take_slice_from (String.length s - String.length p) s) at 1.
    by rewrite H.
  - intros [a ->]. rewrite length_app. split; [lia|].
    replace (String.length a + String.length p - String.length p)%nat
      with (String.length a) by lia.
    apply slice_from_app.
Qed.

Lemma includes_spec (s p : string) :
  includes s p = true <-> exists a b, s = a +:+ p +:+ b.
Proof.
  induction s as [|c s IH].
  - cbn [includes]. rewrite orb_false_r, startsWith_spec. split.
    + intros [r Hr]. by exists "", r.
    + intros (a & b & H). symmetry in H.
      apply app_eq_nil in H as [-> H]. apply app_eq_nil in H as [-> ->]. by exists "".
  - cbn [includes]. rewrite orb_true_iff, startsWith_spec, IH. split.
    + intros [[r Hr]|(a & b & ->)]; [by exists "", r|].
      by exists (String c a), b.
    + intros ([|d a] & b & H).
      * left. by exists b.
      * right. rewrite app_cons in H. injection H as -> ->. eauto.
Qed.

End JsFacts.

(** ** The matcher decides the language *)

Module RegexFacts.
Import Js JsFacts Regex.

Lemma lang_seq_inv r1 r2 (s : string) :
  lang (Seq r1 r2) s -> exists s1 s2, s = s1 +:+ s2 /\ lang r1 s1 /\ lang r2 s2.
Proof. inversion 1; subst; eauto. Qed.

Lemma lang_alt_inv r1 r2 (s : string) :
  lang (Alt r1 r2) s -> lang r1 s \/ lang r2 s.
Proof. inversion 1; subst; auto. Qed.

Lemma lang_class_inv p (s : string) :
  lang (Class p) s -> exists c, s = String c "" /\ p c = true.
Proof. inversion 1; subst; eauto. Qed.

Lemma lang_eps_inv (s : string) : lang Eps s -> s = "".
Proof. by inversion 1. Qed.

Lemma lang_void_inv (s : string) : ~ lang Void s.
Proof. inversion 1. Qed.

Lemma nullable_lang r : nullable r = true <-> lang r "".
Proof.
  induction r as [| |p|r1 IH1 r2 IH2|r1 IH1 r2 IH2|r IH]; simpl.
  - split; [done|]. by intros ?%lang_void_inv.
  - split; [constructor|done].
  - split; [done|]. by intros (c & ? & _)%lang_class_inv.
  - rewrite andb_true_iff, IH1, IH2. split.
    + intros [H1 H2]. by apply (lang_seq r1 r2 "" "").
    + intros (s1 & s2 & Hs & H1 & H2)%lang_seq_inv.
      symmetry in Hs. apply app_eq_nil in Hs as [-> ->]. done.
  - rewrite orb_true_iff, IH1, IH2. split.
    + intros [H|H]; [by apply lang_alt_l | by apply lang_alt_r].
    + apply lang_alt_inv.
  - split; [constructor|done].
Qed.

(** A non-empty word of [r*] starts with a non-empty word of [r]. *)
Lemma lang_star_cons r c (s : string) :
  lang (Star r) (String c s) ->
  exists s1 s2, s = s1 +:+ s2 /\ lang r (String c s1) /\ lang (Star r) s2.
Proof.
  intros H. remember (Star r) as r' eqn:Hr. remember (String c s) as x eqn:Hx.
  revert s Hx.
  induction H as [| | | | | |r0 s1 s2 H1 _ H2 IH2]; intros t Hx; try discriminate.
  injection Hr as ->. destruct s1 as [|d s1].
  - rewrite app_nil_l in Hx. by apply IH2.
  - rewrite app_cons in Hx. injection Hx as -> <-. eauto.
Qed.

Lemma deriv_lang r c (s : string) : lang (deriv c r) s <-> lang r (String c s).
Proof.
  revert s. induction r as [| |p|r1 IH1 r2 IH2|r1 IH1 r2 IH2|r IH]; intros s; simpl.
  - split; by intros ?%lang_void_inv.
  - split; [by intros ?%lang_void_inv | by intros ?%lang_eps_inv].
  - destruct (p c) eqn:Hp; split.
    + intros ->%lang_eps_inv. by constructor.
    + intros (d & [= -> ->] & _)%lang_class_inv. constructor.
    + by intros ?%lang_void_inv.
    + intros (d & [= -> ->] & Hd)%lang_class_inv. congruence.
  - assert (lang (Seq (deriv c r1) r2) s -> lang (Seq r1 r2) (String c s)) as Hl.
    { intros (s1 & s2 & -> & H1 & H2)%lang_seq_inv.
      rewrite <- app_cons. constructor; [by apply IH1|done]. }
    assert (lang (Seq r1 r2) (String c s) ->
            lang (Seq (deriv c r1) r2) s \/ (lang r1 "" /\ lang r2 (String c s))) as Hr.
    { intros (s1 & s2 & Hs & H1 & H2)%lang_seq_inv. destruct s1 as [|d s1].
      - right. rewrite app_nil_l in Hs. by subst s2.
      - left. rewrite app_cons in Hs. injection Hs as <- ->.
        constructor; [by apply IH1|done]. }
    destruct (nullable r1) eqn:Hn.
    + split.
      * intros [H|H]%lang_alt_inv; [auto|].
        apply (lang_seq r1 r2 "" (String c s)); [by apply nullable_lang|by apply IH2].
      * intros [H|[_ H]]%Hr; [by apply lang_alt_l|]. apply lang_alt_r. by apply IH2.
    + split; [done|]. intros [H|[H _]]%Hr; [done|].
      apply nullable_lang in H. congruence.
  - split.
    + intros [H|H]%lang_alt_inv; [apply lang_alt_l, IH1 | apply lang_alt_r, IH2]; done.
    + intros [H|H]%lang_alt_inv; [apply lang_alt_l, IH1 | apply lang_alt_r, IH2]; done.
  - split.
    + intros (s1 & s2 & -> & H1 & H2)%lang_seq_inv.
      rewrite <- app_cons. constructor; [by apply IH|done].
    + intros (s1 & s2 & -> & H1 & H2)%lang_star_cons.
      constructor; [by apply IH|done].
Qed.

Lemma regex_match_lang r (s : string) : regex_match r s = true <-> lang r s.
Proof.
  revert r. induction s as [|c s IH]; intros r; simpl.
  - apply nullable_lang.
  - rewrite IH. apply deriv_lang.
Qed.

Lemma lang_star_any (s : string) : lang (Star any) s.
Proof.
  induction s as [|c s IH]; [constructor|].
  change (String c s) with (String c "" +:+ s). constructor; [by constructor|done].
Qed.

(** An unanchored test succeeds exactly on the strings that contain a
    word of the language. *)
Lemma regex_test_spec r (s : string) :
  regex_test r s = true <-> exists a u b, s = a +:+ u +:+ b /\ lang r u.
Proof.
  unfold regex_test. rewrite regex_match_lang. split.
  - intros (a & y & -> & _ & (u & b & -> & Hu & _)%lang_seq_inv)%lang_seq_inv. eauto.
  - intros (a & u & b & -> & Hu).
    constructor; [apply lang_star_any|]. constructor; [done|apply lang_star_any].
Qed.

Lemma lang_seq_class p r (s : string) :
  lang (Seq (Class p) r) s <-> exists c s', s = String c s' /\ p c = true /\ lang r s'.
Proof.
  split.
  - intros (s1 & s2 & -> & (c & -> & Hc)%lang_class_inv & H2)%lang_seq_inv. eauto.
  - intros (c & s' & -> & Hc & H).
    change (String c s') with (String c "" +:+ s'). constructor; [by constructor|done].
Qed.

Lemma lang_lit (u s : string) : lang (Lit u) s <-> s = u.
Proof.
  revert s. induction u as [|c u IH]; intros s; simpl.
  - split; [apply lang_eps_inv | intros ->; constructor].
  - unfold Char. rewrite lang_seq_class. split.
    + intros (d & s' & -> & ->%Ascii.eqb_eq & ->%IH). done.
    + intros ->. exists c, u. rewrite Ascii.eqb_refl. split; [done|]. split; [done|].
      by apply IH.
Qed.

Lemma lang_litI (u s : string) : lang (LitI u) s <-> toLowerCase s = toLowerCase u.
Proof.
  revert s. induction u as [|c u IH]; intros s; simpl.
  - split; [by intros ->%lang_eps_inv | destruct s; [constructor|discriminate]].
  - rewrite lang_seq_class. split.
    + intros (d & s' & -> & Hd%Ascii.eqb_eq & Hs%IH). simpl. by rewrite Hd, Hs.
    + destruct s as [|d s']; [discriminate|]. simpl. intros [= Hd Hs].
      exists d, s'. split; [done|]. split; [by apply Ascii.eqb_eq|].
      by apply IH.
Qed.

Lemma lang_star_class p (s : string) : lang (Star (Class p)) s <-> all p s = true.
Proof.
  split.
  - induction s as [|c s IH]; [done|].
    intros (s1 & s2 & -> & (d & [= -> ->] & Hd)%lang_class_inv & H2)%lang_star_cons.
    simpl. rewrite Hd. rewrite app_nil_l in IH. auto.
  - induction s as [|c s IH]; [constructor|]. simpl.
    intros [Hc Hs]%andb_true_iff.
    change (String c s) with (String c "" +:+ s). constructor; [by constructor|auto].
Qed.

Lemma lang_plus_class p (s : string) :
  lang (Plus (Class p)) s <-> s <> "" /\ all p s = true.
Proof.
  unfold Plus. rewrite lang_seq_class. split.
  - intros (c & s' & -> & Hc & Hs%lang_star_class). simpl. by rewrite Hc, Hs.
  - intros [Hne Hs]. destruct s as [|c s']; [done|].
    simpl in Hs. apply andb_true_iff in Hs as [Hc Hs].
    exists c, s'. by rewrite lang_star_class.
Qed.

Lemma lang_upto_class p n (s : string) :
  lang (UpTo n (Class p)) s <-> (String.length s <= n)%nat /\ all p s = true.
Proof.
  revert s. induction n as [|n IH]; intros s; simpl.
  - split.
    + by intros ->%lang_eps_inv.
    + intros [Hl _]. destruct s; [constructor|simpl in Hl; lia].
  - unfold Opt. split.
    + intros [->%lang_eps_inv|H]%lang_alt_inv; [simpl; split; [lia|done]|].
      apply lang_seq_class in H as (c & s' & -> & Hc & [Hl Hs]%IH).
      simpl. rewrite Hc, Hs. split; [lia|done].
    + intros [Hl Hs]. destruct s as [|c s']; [apply lang_alt_l; constructor|].
      apply lang_alt_r. simpl in *. apply andb_true_iff in Hs as [Hc Hs].
      apply lang_seq_class. exists c, s'. split; [done|]. split; [done|].
      apply IH. split; [lia|done].
Qed.

Lemma lang_repeat_class p lo hi (s : string) :
  (lo <= hi)%nat ->
  lang (Repeat lo hi (Class p)) s
  <-> (lo <= String.length s <= hi)%nat /\ all p s = true.
Proof.
  revert hi s. induction lo as [|lo IH]; intros hi s Hle; simpl.
  - rewrite lang_upto_class. split; intros [? ?]; (split; [lia|done]).
  - rewrite lang_seq_class. destruct hi as [|hi]; [lia|]. simpl. split.
    + intros (c & s' & -> & Hc & H). apply IH in H as [Hl Hs]; [|lia].
      simpl. rewrite Hc, Hs. split; [lia|done].
    + intros [Hl Hs]. destruct s as [|c s']; [simpl in Hl; lia|].
      simpl in *. apply andb_true_iff in Hs as [Hc Hs].
      exists c, s'. split; [done|]. split; [done|]. apply IH; [lia|]. split; [lia|done].
Qed.

End RegexFacts.

(** ** The host validator *)

Module HostFacts.
Import Js JsFacts Regex RegexFacts.

Ltac run_M :=
  unfold returns, mbind, M_bind, mret, M_ret, console_warn, console_error, log,
    throw, try_catch, finally; simpl.

Lemma normalize_some (h : string) (w : World) :
  normalizeAndValidateHost (Some h) w =
    if truthy h && accepts (raw_of h)
    then (Returned (Some (finish (raw_of h))), w)
    else (normalizeAndValidateHost (Some h) w).
Proof.
  destruct (truthy h && accepts (raw_of h)) eqn:E; [|done].
  apply andb_true_iff in E as [Ht Ha]. unfold accepts in Ha.
  apply andb_true_iff in Ha as [[Hm Hl]%andb_true_iff Hs].
  unfold normalizeAndValidateHost. rewrite Ht. cbn [negb].
  fold (raw_of h). rewrite Hm. cbn [negb orb].
  apply Nat.leb_le in Hl. destruct (Nat.ltb_spec maxLength (String.length (raw_of h))); [lia|].
  apply negb_true_iff in Hs. rewrite Hs. done.
Qed.

Lemma normalize_accept (h : string) (w : World) :
  truthy h = true -> accepts (raw_of h) = true ->
  normalizeAndValidateHost (Some h) w = (Returned (Some (finish (raw_of h))), w).
Proof. intros Ht Ha. rewrite normalize_some. by rewrite Ht, Ha. Qed.

Lemma normalize_reject (h : string) (w : World) :
  accepts (raw_of h) = false -> returns (normalizeAndValidateHost (Some h)) w None.
Proof.
  intros Ha. unfold normalizeAndValidateHost.
  destruct (truthy h); cbn [negb]; [|done]. fold (raw_of h).
  unfold accepts in Ha.
  destruct (regex_match hostRegex (raw_of h)); cbn [negb orb andb] in *; [|by run_M].
  destruct (Nat.ltb_spec maxLength (String.length (raw_of h))) as [Hl|Hl]; [by run_M|].
  apply Nat.leb_le in Hl. rewrite Hl in Ha. cbn [andb] in Ha.
  apply negb_false_iff in Ha. rewrite Ha. by run_M.
Qed.

(** The validator never throws. *)
Lemma normalize_total (hh : option string) (w : World) :
  exists r w', normalizeAndValidateHost hh w = (Returned r, w').
Proof.
  destruct hh as [h|]; [|by eexists _, _].
  unfold normalizeAndValidateHost.
  repeat (match goal with |- context [if ?b then _ else _] => destruct b end);
    run_M; by eexists _, _.
Qed.

Lemma normalize_inv (hh : option string) (w : World) (s : string) :
  returns (normalizeAndValidateHost hh) w (Some s) ->
  exists h, hh = Some h /\ truthy h = true /\ accepts (raw_of h) = true
            /\ s = finish (raw_of h)
            /\ normalizeAndValidateHost hh w = (Returned (Some s), w).
Proof.
  destruct hh as [h|]; [|done]. intros H. exists h.
  destruct (accepts (raw_of h)) eqn:Ha.
  - destruct (truthy h) eqn:Ht.
    + unfold returns in H. rewrite (normalize_accept _ _ Ht Ha) in *.
      simpl in H. injection H as <-. done.
    + by destruct h.
  - pose proof (normalize_reject h w Ha) as H'. unfold returns in *. congruence.
Qed.

(** *** substrings *)

Lemma contains_refl (s : string) : contains s s.
Proof. exists "", "". by rewrite app_nil_l, app_nil_r. Qed.

Lemma contains_includes (s u : string) : includes s u = true <-> contains s u.
Proof. apply includes_spec. Qed.

Lemma contains_lower (s u : string) :
  contains s u -> contains (toLowerCase s) (toLowerCase u).
Proof. intros (a & b & ->). rewrite !toLowerCase_app. by eexists _, _. Qed.

Lemma all_contains p (s u : string) :
  all p s = true -> contains s u -> all p u = true.
Proof.
  intros H (a & b & ->). rewrite !all_app in H.
  by apply andb_true_iff in H as [_ [? _]%andb_true_iff].
Qed.

Lemma all_char p (s : string) :
  all p s = true <-> forall c, contains s (String c "") -> p c = true.
Proof.
  split.
  - intros H c Hc. pose proof (all_contains _ _ _ H Hc) as H'. simpl in H'.
    by destruct (p c).
  - induction s as [|c s IH]; [done|]. intros H. simpl.
    rewrite (H c); [|by exists "", s]. simpl. apply IH.
    intros d (a & b & ->). apply H. by exists (String c a), b.
Qed.

Lemma contains_trim_char (s : string) c :
  is_space c = false -> contains s (String c "") -> contains (trim s) (String c "").
Proof.
  intros Hc (a & b & ->). rewrite app_cons, app_nil_l.
  destruct (trim_keeps_char a c b Hc) as (a' & b' & ->). by exists a', b'.
Qed.

Lemma contains_trim (s : string) f (u : string) l :
  is_space f = false -> is_space l = false ->
  contains s (String f (u +:+ String l "")) ->
  contains (trim s) (String f (u +:+ String l "")).
Proof.
  intros Hf Hl (a & b & ->).
  rewrite !app_cons, !app_assoc, app_cons, app_nil_l.
  destruct (trim_keeps_infix a f u l b Hf Hl) as (a' & b' & ->).
  exists a', b'. by rewrite !app_cons, !app_assoc, app_cons, app_nil_l.
Qed.

(** *** the host pattern *)

Lemma port_suffix_lang (b : string) :
  lang (Opt (Seq (Char ":") (Repeat 1 5 (Class is_digit)))) b <-> port_suffix b.
Proof.
  unfold Opt, Char. split.
  - intros [->%lang_eps_inv|H]%lang_alt_inv; [constructor|].
    apply lang_seq_class in H as (c & d & -> & <-%Ascii.eqb_eq & H).
    apply lang_repeat_class in H as [Hl Hd]; [|lia]. by constructor.
  - intros [|d Hl Hd]; [apply lang_alt_l; constructor|].
    apply lang_alt_r, lang_seq_class. exists ":"%char, d.
    split; [done|]. split; [done|]. apply lang_repeat_class; [lia|done].
Qed.

Lemma hostRegex_lang (raw : string) :
  lang hostRegex raw <->
  exists a b, raw = a +:+ b /\ a <> "" /\ all host_char a = true /\ port_suffix b.
Proof.
  unfold hostRegex. split.
  - intros (a & b & -> & [Hne Ha]%lang_plus_class & Hb%port_suffix_lang)%lang_seq_inv.
    eauto 10.
  - intros (a & b & -> & Hne & Ha & Hb). constructor.
    + by apply lang_plus_class.
    + by apply port_suffix_lang.
Qed.

Lemma host_char_allowed c : host_char c = true -> allowed_char c = true.
Proof. unfold allowed_char. by intros ->. Qed.

Lemma digit_allowed c : is_digit c = true -> allowed_char c = true.
Proof. unfold allowed_char. intros ->. by rewrite !orb_true_r. Qed.

Lemma port_suffix_allowed (b : string) : port_suffix b -> all allowed_char b = true.
Proof.
  intros [|d _ Hd]; [done|]. simpl.
  apply (all_impl _ _ _ digit_allowed) in Hd. by rewrite Hd.
Qed.

Lemma hostRegex_allowed (raw : string) :
  regex_match hostRegex raw = true -> all allowed_char raw = true.
Proof.
  intros (a & b & -> & _ & Ha & Hb)%regex_match_lang%hostRegex_lang.
  rewrite all_app, (all_impl _ _ _ host_char_allowed Ha), (port_suffix_allowed _ Hb).
  done.
Qed.

Lemma accepts_inv (raw : string) :
  accepts raw = true ->
  regex_match hostRegex raw = true
  /\ (String.length raw <= 253)%nat
  /\ forall r, r ∈ suspiciousPatterns -> regex_test r raw = false.
Proof.
  unfold accepts. intros [[Hm Hl%Nat.leb_le]%andb_true_iff Hs%negb_true_iff]%andb_true_iff.
  split; [done|]. split; [done|]. intros r Hr.
  destruct (regex_test r raw) eqn:E; [|done].
  assert (existsb (fun pattern => regex_test pattern raw) suspiciousPatterns = true);
    [|congruence].
  apply existsb_exists. exists r. split; [by apply list_elem_of_In|done].
Qed.

(** Whatever the validator accepts has no character outside
    [[a-z0-9.:-]], no [..] and no [javascript:]. *)
Lemma accepts_clean (raw : string) :
  accepts raw = true ->
  all allowed_char raw = true
  /\ ~ contains raw ".." /\ ~ contains raw "javascript:".
Proof.
  intros (Hm & _ & Hs)%accepts_inv. split; [by apply hostRegex_allowed|].
  split; intros (a & b & ->).
  - assert (regex_test (Lit "..") (a +:+ ".." +:+ b) = true) as Ht.
    { apply regex_test_spec. exists a, "..", b. split; [done|]. by apply lang_lit. }
    rewrite Hs in Ht; [done|]. unfold suspiciousPatterns. set_solver.
  - assert (regex_test (LitI "javascript:") (a +:+ "javascript:" +:+ b) = true) as Ht.
    { apply regex_test_spec. exists a, "javascript:", b. split; [done|].
      by apply lang_litI. }
    rewrite Hs in Ht; [done|]. unfold suspiciousPatterns. set_solver.
Qed.

Lemma suspicious_rejected (h : string) : suspicious h -> accepts (raw_of h) = false.
Proof.
  intros Hs. destruct (accepts (raw_of h)) eqn:Ha; [exfalso|done].
  apply accepts_clean in Ha as (Hall & Hdots & Hjs).
  assert (forall c, is_space c = false -> allowed_char c = false ->
                    lower_char c = c -> ~ contains h (String c "")) as Hbad.
  { intros c Hsp Hc Hlow Hh%contains_lower. simpl in Hh. rewrite Hlow in Hh.
    apply (contains_trim_char _ _ Hsp) in Hh.
    pose proof (proj1 (all_char _ _) Hall c Hh). congruence. }
  destruct Hs as [H|[H|[H|[H|[H|[H|[H|[H|H]]]]]]]];
    try (by eapply Hbad in H).
  - apply Hdots. apply contains_lower in H.
    by apply (contains_trim _ "." "" ".").
  - apply Hjs. by apply (contains_trim _ "j" "avascript" ":").
Qed.

(** *** port and trailing dot *)

Lemma split_head_app d (a b : string) :
  all (fun c => negb (Ascii.eqb c d)) a = true ->
  split_head d (a +:+ b) = a +:+ split_head d b.
Proof.
  induction a as [|c a IH]; [done|]. simpl. intros [Hc Ha]%andb_true_iff.
  rewrite !app_cons. simpl. apply negb_true_iff in Hc. rewrite Hc. by rewrite IH.
Qed.

Lemma host_char_not_colon c : host_char c = true -> negb (Ascii.eqb c ":") = true.
Proof. by destruct c as [[] [] [] [] [] [] [] []]. Qed.

Lemma split_head_host (a b : string) :
  all host_char a = true -> port_suffix b -> split_head ":" (a +:+ b) = a.
Proof.
  intros Ha Hb. rewrite split_head_app by (by apply (all_impl host_char), Ha; apply host_char_not_colon).
  destruct Hb; simpl; by rewrite app_nil_r.
Qed.

Lemma strip_trailing_dot_cons c d (s : string) :
  strip_trailing_dot (String c (String d s)) = String c (strip_trailing_dot (String d s)).
Proof. reflexivity. Qed.

Lemma strip_trailing_dot_prefix (s : string) :
  exists t, s = strip_trailing_dot s +:+ t.
Proof.
  induction s as [|c s [t IH]]; [by exists ""|].
  destruct s as [|d s].
  - simpl. destruct (Ascii.eqb c "."); [by exists (String c "")|by exists ""].
  - rewrite strip_trailing_dot_cons. exists t. by rewrite app_cons, <- IH.
Qed.

Lemma strip_trailing_dot_nil (s : string) :
  strip_trailing_dot s = "" -> s = "" \/ s = ".".
Proof.
  destruct s as [|c [|d s]]; [by left| |done]. simpl.
  destruct (Ascii.eqb_spec c "."); [subst; by right|done].
Qed.

Lemma strip_trailing_dot_app_dot (s : string) :
  strip_trailing_dot (s +:+ ".") = s.
Proof.
  induction s as [|c s IH]; [done|]. rewrite app_cons.
  destruct s as [|d s]; [done|]. rewrite app_cons in *.
  rewrite strip_trailing_dot_cons. by rewrite IH.
Qed.

Lemma ends_dot_cons c (t : string) :
  ends_dot (String c t) <-> (t = "" /\ c = "."%char) \/ ends_dot t.
Proof.
  split.
  - intros [[|d r] Hr].
    + left. rewrite app_nil_l in Hr. by injection Hr as -> ->.
    + right. rewrite app_cons in Hr. injection Hr as -> ->. by exists r.
  - intros [[-> ->]|[r ->]]; [by exists ""|by exists (String c r)].
Qed.

Lemma ends_dot_nil : ~ ends_dot "".
Proof. intros [r Hr]. symmetry in Hr. by apply app_eq_nil in Hr as [_ ?]. Qed.

Lemma strip_trailing_dot_id (s : string) :
  ~ ends_dot s -> strip_trailing_dot s = s.
Proof.
  induction s as [|c s IH]; [done|]. intros H.
  destruct s as [|d s].
  - simpl. destruct (Ascii.eqb_spec c "."); [|done].
    subst. destruct H. by exists "".
  - rewrite strip_trailing_dot_cons, IH; [done|].
    intros H'. apply H, ends_dot_cons. by right.
Qed.

Lemma contains_tail c (s u : string) : contains s u -> contains (String c s) u.
Proof. intros (a & b & ->). by exists (String c a), b. Qed.

Lemma strip_trailing_dot_not_dot (s : string) :
  ~ contains s ".." -> ~ ends_dot (strip_trailing_dot s).
Proof.
  induction s as [|c s IH]; [intros _; apply ends_dot_nil|].
  intros Hs. destruct s as [|d s].
  - simpl. destruct (Ascii.eqb_spec c ".") as [->|Hc]; [apply ends_dot_nil|].
    intros [[? ?]|?%ends_dot_nil]%ends_dot_cons; done.
  - rewrite strip_trailing_dot_cons.
    intros [[Hnil ->]|H]%ends_dot_cons.
    + apply strip_trailing_dot_nil in Hnil as [?| [= -> ->]]; [done|].
      apply Hs, contains_refl.
    + revert H. apply IH. intros H. by apply Hs, contains_tail.
Qed.

(** *** the shape of a normalised host *)

Lemma finish_cases (raw : string) :
  let host := strip_trailing_dot (split_head ":" raw) in
  (startsWith host "www." = false /\ finish raw = host)
  \/ host = "www." +:+ finish raw.
Proof.
  intros host. unfold finish. fold host.
  destruct (startsWith host "www.") eqn:E; [right|by left].
  apply startsWith_spec in E as [r ->].
  reflexivity.
Qed.

Lemma host_char_alphabet c :
  host_char c = true <-> contains host_alphabet (String c "").
Proof.
  rewrite <- contains_includes. by destruct c as [[] [] [] [] [] [] [] []].
Qed.

Lemma host_char_not_capital c :
  host_char c = true -> ~ contains capitals (String c "").
Proof.
  rewrite <- contains_includes. by destruct c as [[] [] [] [] [] [] [] []].
Qed.

Lemma finish_shape (raw : string) :
  accepts raw = true ->
  all host_char (finish raw) = true /\ normalized_shape (finish raw).
Proof.
  intros Ha. pose proof (accepts_clean _ Ha) as (_ & Hdots & _).
  apply accepts_inv in Ha as (Hm & Hl & _).
  apply regex_match_lang, hostRegex_lang in Hm as (a & b & -> & Hne & Hhost & Hport).
  pose proof (finish_cases (a +:+ b)) as Hf. cbv zeta in Hf.
  rewrite (split_head_host _ _ Hhost Hport) in Hf.
  destruct (strip_trailing_dot_prefix a) as [t Ht].
  assert (~ ends_dot (strip_trailing_dot a)) as Hnd.
  { apply strip_trailing_dot_not_dot. intros (x & y & ->). apply Hdots.
    exists x, (y +:+ b). by rewrite !app_assoc. }
  set (s := finish (a +:+ b)) in *.
  assert (exists p, strip_trailing_dot a = p +:+ s) as [p Hp].
  { destruct Hf as [[_ ->] | ->]; [by exists ""|by exists "www."]. }
  assert (all host_char s = true) as Hs.
  { rewrite Ht, Hp, !all_app in Hhost.
    by apply andb_true_iff in Hhost as [[_ ?]%andb_true_iff _]. }
  split; [done|]. repeat split.
  - intros Hc. by pose proof (all_contains _ _ _ Hs Hc).
  - intros c Hc. apply host_char_not_capital. by apply (proj1 (all_char _ _) Hs).
  - intros c Hc. apply host_char_alphabet. by apply (proj1 (all_char _ _) Hs).
  - intros [r Hr]. apply Hnd. exists (p +:+ r). by rewrite Hp, Hr, app_assoc.
  - rewrite length_app in Hl. rewrite Ht, Hp, !length_app in Hl. lia.
Qed.

End HostFacts.

(** ** Slugs *)

Module SlugFacts.
Import Js JsFacts Regex RegexFacts HostFacts.

Lemma reserved_words_set (s : string) : s ∈ RESERVED_SLUGS <-> s ∈ reserved_words.
Proof. unfold RESERVED_SLUGS, reserved_words. set_solver. Qed.

Lemma slug_char_alphabet c :
  slug_char c = true <-> contains slug_alphabet (String c "").
Proof.
  rewrite <- contains_includes. by destruct c as [[] [] [] [] [] [] [] []].
Qed.

Lemma slugRegex_format (s : string) :
  regex_match slugRegex s = true <-> slug_format s.
Proof.
  unfold slugRegex, slug_format.
  rewrite regex_match_lang, lang_repeat_class by lia.
  rewrite all_char. split; intros [Hl Hc]; (split; [done|]);
    intros c H; by apply slug_char_alphabet, Hc.
Qed.

Lemma isSlugValid_rules (s : string) : isSlugValid s = true <-> slug_rules s.
Proof.
  unfold isSlugValid, slug_rules, leading_hyphen, trailing_hyphen, double_hyphen.
  rewrite <- reserved_words_set, <- slugRegex_format.
  rewrite <- (startsWith_spec s "-"), <- (endsWith_spec s "-"), <- (contains_includes s "--").
  case_bool_decide as Hr; [intuition discriminate|].
  destruct (regex_match slugRegex s); cbn [negb]; [|intuition discriminate].
  destruct (startsWith s "-"), (endsWith s "-"), (includes s "--");
    cbn [orb]; intuition discriminate.
Qed.

End SlugFacts.

(** ** Header values *)

Module HeadersFacts.
Import Js JsFacts HostFacts SlugFacts.

Lemma strip_end_plain (s : string) :
  all (fun c => negb (Headers.is_whitespace c)) s = true -> Headers.strip_end s = s.
Proof.
  induction s as [|c s IH]; [done|]. simpl.
  intros [Hc Hs]%andb_true_iff. rewrite (IH Hs).
  destruct s; [|done]. by destruct (Headers.is_whitespace c).
Qed.

Lemma normalize_plain (s : string) :
  all (fun c => negb (Headers.is_whitespace c)) s = true -> Headers.normalize s = s.
Proof.
  intros H. unfold Headers.normalize. destruct s as [|c s]; [done|].
  assert (Headers.strip_start (String c s) = String c s) as ->.
  { simpl in *. by destruct (Headers.is_whitespace c). }
  by apply strip_end_plain.
Qed.

(** a string of plain characters is set as it is *)
Lemma accepted_plain (s : string) :
  all plain_char s = true -> Headers.accepted s = Some s.
Proof.
  intros H. unfold Headers.accepted.
  rewrite normalize_plain.
  - assert (Headers.is_value s = true) as ->; [|done].
    unfold Headers.is_value. apply (all_impl plain_char); [|done].
    intros c. by destruct c as [[] [] [] [] [] [] [] []].
  - apply (all_impl plain_char); [|done]. intros c. unfold plain_char.
    by destruct (Headers.is_whitespace c).
Qed.

Lemma accepted_inv (value v : string) :
  Headers.accepted value = Some v -> v = Headers.normalize value.
Proof. unfold Headers.accepted. destruct (Headers.is_value _); congruence. Qed.

Lemma host_char_plain c : host_char c = true -> plain_char c = true.
Proof. by destruct c as [[] [] [] [] [] [] [] []]. Qed.

Lemma slug_char_plain c : slug_char c = true -> plain_char c = true.
Proof. by destruct c as [[] [] [] [] [] [] [] []]. Qed.

Lemma pretty_N_char_plain x : plain_char (pretty_N_char x) = true.
Proof. unfold pretty_N_char. by repeat case_match. Qed.

Lemma pretty_N_go_plain (x : N) (s : string) :
  all plain_char s = true -> all plain_char (pretty_N_go x s) = true.
Proof.
  revert s. induction (N.lt_wf_0 x) as [x _ IH]. intros s Hs.
  destruct (decide (x = 0)%N) as [->|Hx]; [by rewrite pretty_N_go_0|].
  rewrite pretty_N_go_step by lia. apply IH.
  - apply N.div_lt; lia.
  - simpl. by rewrite pretty_N_char_plain, Hs.
Qed.

Lemma pretty_N_plain (x : N) : all plain_char (pretty x) = true.
Proof.
  unfold pretty, pretty_N. destruct (decide (x = 0)%N); [done|].
  by apply pretty_N_go_plain.
Qed.

(** the decimal rendering of an integer is a header value as it is *)
Lemma pretty_Z_plain (z : Z) : all plain_char (pretty z) = true.
Proof.
  destruct z as [|p|p]; [done| |].
  - apply (pretty_N_plain (Npos p)).
  - change (pretty (Zneg p)) with ("-" +:+ pretty (Npos p)).
    rewrite all_app. by rewrite (pretty_N_plain (Npos p)).
Qed.

Lemma accepted_pretty (z : Z) : Headers.accepted (pretty z) = Some (pretty z).
Proof. apply accepted_plain, pretty_Z_plain. Qed.

End HeadersFacts.
(** ** Running the middleware *)

Module MiddlewareFacts.
Import Js JsFacts HostFacts SlugFacts HeadersFacts.

Lemma bind_returned {A B : Type} (m : M A) (f : A -> M B) (w w' : World) (a : A) :
  m w = (Returned a, w') -> (m ≫= f) w = f a w'.
Proof. intros H. unfold mbind, M_bind. by rewrite H. Qed.

Lemma bind_thrown {A B : Type} (m : M A) (f : A -> M B) (w w' : World) e :
  m w = (Thrown e, w') -> (m ≫= f) w = (Thrown e, w').
Proof. intros H. unfold mbind, M_bind. by rewrite H. Qed.

Lemma get_field (k : string) (v : Json) (w : World) :
  v <> JNull -> get k v w = (Returned (field k v), w).
Proof. by destruct v. Qed.

Lemma truthy_not_null (v : Json) : truthy_value (Some v) = true -> v <> JNull.
Proof. by destruct v. Qed.

(** the check of a slug value, on a value that is no string: it is
    refused or the check throws *)
Lemma isSlugValid_value_other (slug : Value) (w : World) :
  (forall s, slug <> Some (JStr s)) ->
  (isSlugValid_value slug w = (Returned false, w)
   /\ exists text, to_string slug w = (Returned text, w))
  \/ exists e, isSlugValid_value slug w = (Thrown e, w).
Proof.
  intros Hs. unfold isSlugValid_value.
  destruct slug as [[|b|n|s|l|ms]|]; try (by destruct (Hs s));
    unfold to_string, mbind, M_bind, mret, M_ret, throw;
    (destruct (ToString_value _) as [text|]; [|right; by eexists]);
    cbv beta iota;
    (destruct (Regex.regex_match slugRegex text); cbn [negb]; [right|left]; eauto).
Qed.

Lemma to_string_some (v : Value) (text : string) (w : World) :
  ToString_value v = Some text -> to_string v w = (Returned text, w).
Proof. intros H. unfold to_string. by rewrite H. Qed.

Lemma to_string_none (v : Value) (w : World) :
  ToString_value v = None ->
  to_string v w = (Thrown (TypeError "Cannot convert object to primitive value"), w).
Proof. intros H. unfold to_string. by rewrite H. Qed.

Lemma Headers_set_some (name value v : string) (h : gmap string string) (w : World) :
  Headers.accepted value = Some v ->
  Headers_set name value h w = (Returned (<[ name := v ]> h), w).
Proof. intros H. unfold Headers_set, Headers.set. by rewrite H. Qed.

Lemma Headers_set_none (name value : string) (h : gmap string string) (w : World) :
  Headers.accepted value = None ->
  Headers_set name value h w = (Thrown (TypeError "Invalid header value"), w).
Proof. intros H. unfold Headers_set, Headers.set. by rewrite H. Qed.

Section Run.
Variable env : ProcessEnv.
Variable parses : string -> bool.
Variable net : World -> FetchRequest -> FetchOutcome.
Variable clock : World -> Z.

Lemma new_URL_accepted (w : World) :
  url_accepts parses (BASE_URL env) = true ->
  new_URL parses "/api/internal/tenant/resolve" (BASE_URL env) w
  = (Returned (resolve_url env), w).
Proof. intros H. unfold new_URL. by rewrite H. Qed.

Lemma new_URL_refused (w : World) :
  url_accepts parses (BASE_URL env) = false ->
  new_URL parses "/api/internal/tenant/resolve" (BASE_URL env) w
  = (Thrown (TypeError "Invalid URL"), w).
Proof. intros H. unfold new_URL. by rewrite H. Qed.

(** What the [try] block makes of a payload: the vetted payload, or an
    exception when the payload is refused; neither touches the network
    or the timers. *)
Lemma payload_run (tenant : Json) (w : World) :
  let block : M Value :=
    slug ← get "slug" tenant;
    invalid ←
      (if truthy_value slug
       then valid ← isSlugValid_value slug; mret (negb valid)
       else mret false);
    if invalid : bool
    then text ← to_string slug;
         console_error ["Invalid slug returned from API: " +:+ text];;
         mret None
    else mret (Some tenant) in
  (exists w', block w = (Returned (vetted tenant), w')
              /\ network w' = network w /\ timers w' = timers w
              /\ (vetted tenant <> None -> w' = w))
  \/ (exists e, block w = (Thrown e, w) /\ vetted tenant = None).
Proof.
  intros block. unfold block.
  assert (tenant = JNull \/ tenant <> JNull) as [->|Hnull]
    by (destruct tenant; [by left|by right..]).
  { right. by eexists. }
  rewrite (bind_returned _ _ _ _ _ (get_field "slug" tenant w Hnull)).
  assert (vetted tenant
          = if truthy_value (field "slug" tenant) then
              match field "slug" tenant with
              | Some (JStr s) => if isSlugValid s then Some tenant else None
              | _ => None
              end
            else Some tenant) as -> by (by destruct tenant).
  destruct (truthy_value (field "slug" tenant)) eqn:Ht; [|left; by exists w].
  destruct (field "slug" tenant) as [[| | |s| |]|] eqn:Es;
    try (destruct (isSlugValid_value_other (field "slug" tenant) w)
           as [[Hv [text Htext]]|[e He]];
         [rewrite Es; congruence
         |rewrite Es in Hv, Htext;
          rewrite (bind_returned _ _ _ _ _ (bind_returned _ _ _ _ _ Hv));
          cbn [negb]; rewrite (bind_returned _ _ _ _ _ Htext);
          left;
          exists (logged Error ["Invalid slug returned from API: " +:+ text] w);
          split; [reflexivity|done]
         |rewrite Es in He;
          rewrite (bind_thrown _ _ _ _ _ (bind_thrown _ _ _ _ _ He));
          right; by exists e]).
  unfold isSlugValid_value, to_string, ToString_value, ToString.
  unfold mbind, M_bind, mret, M_ret. destruct (isSlugValid s); cbn [negb].
  - left. by exists w.
  - left. exists (logged Error ["Invalid slug returned from API: " +:+ s] w).
    split; [reflexivity|done].
Qed.

Ltac run_handler :=
  cbv beta;
  try match goal with
      | |- context [is_Error ?e] =>
          destruct (is_Error e); [destruct (String.eqb (error_name e) "AbortError")|]
      end;
  eexists; (split; [reflexivity|done]).

(** [lookup] never throws and disarms its timer. When [fetch] accepts
    the headers it performs exactly one call and returns what [answer]
    makes of the reply; otherwise it performs none and returns null. *)
Lemma lookup_run (hostname : string) (url : URL) (w : World) :
  match auth_headers env with
  | Some hdrs =>
      exists w',
        lookup env net hostname url w
        = (Returned (answer (net (setTimeout w).2 (lookup_request hostname url hdrs))), w')
        /\ network w' = network w ++ [lookup_request hostname url hdrs]
        /\ timers w' = timers w
  | None =>
      exists w',
        lookup env net hostname url w = (Returned None, w')
        /\ network w' = network w /\ timers w' = timers w
  end.
Proof.
  unfold auth_headers.
  destruct (Headers.fill (auth_init env) ∅) as [hdrs|] eqn:Ef;
    unfold lookup; fold (auth_init env);
    rewrite (bind_returned setTimeout _ w (setTimeout w).2 tt) by done;
    set (w1 := (setTimeout w).2);
    unfold finally, try_catch; unfold mbind at 1, M_bind at 1, fetch at 1;
    rewrite Ef; [|run_handler].
  fold (lookup_request hostname url hdrs).
  set (request := lookup_request hostname url hdrs).
  set (w2 := {| console := console w1; network := network w1 ++ [request];
                timers := timers w1 |}).
  unfold answer.
  destruct (net w1 request) as [e|r]; [run_handler|].
  destruct (ok r).
  - unfold json at 1. destruct (body r) as [tenant|].
    + rewrite (bind_returned (mret tenant) _ w2 w2 tenant) by done.
      destruct (payload_run tenant w2) as [(w' & E & Hn & Ht & _)|(e & E & Hv)];
        cbv zeta in E; rewrite E.
      * exists (clearTimeout w').2. split; [reflexivity|]. simpl. by rewrite Hn, Ht.
      * rewrite Hv. run_handler.
    + unfold mbind at 1, M_bind at 1, throw at 1. run_handler.
  - destruct (negb (status r =? 404)); eexists; (split; [reflexivity|done]).
Qed.

(** *** the resolver *)

Lemma truthy_isSlugValid (s : string) : truthy s && isSlugValid s = isSlugValid s.
Proof. by destruct s. Qed.

Lemma resolve_refused (hostname : string) (w : World) :
  url_accepts parses (BASE_URL env) = false ->
  resolveTenantByHostname env parses net hostname w = (Thrown (TypeError "Invalid URL"), w).
Proof.
  intros H. unfold resolveTenantByHostname.
  by rewrite (bind_thrown _ _ _ _ _ (new_URL_refused w H)).
Qed.

Lemma resolve_subdomain_invalid (p : string) (w : World) :
  url_accepts parses (BASE_URL env) = true ->
  isSlugValid p = false ->
  resolveTenantByHostname env parses net (p +:+ "." +:+ ROOT_DOMAIN env) w
  = (Returned None, logged Warn ["Invalid tenant slug: " +:+ p] w).
Proof.
  intros H Hp. unfold resolveTenantByHostname.
  rewrite (bind_returned _ _ _ _ _ (new_URL_accepted w H)).
  rewrite (proj2 (endsWith_spec _ _)) by eauto.
  by rewrite slice_0_neg_app, truthy_isSlugValid, Hp.
Qed.

Lemma resolve_subdomain_valid (p : string) (w : World) :
  url_accepts parses (BASE_URL env) = true ->
  isSlugValid p = true ->
  resolveTenantByHostname env parses net (p +:+ "." +:+ ROOT_DOMAIN env) w
  = lookup env net (p +:+ "." +:+ ROOT_DOMAIN env)
      (searchParams_set "slug" p (resolve_url env)) w.
Proof.
  intros H Hp. unfold resolveTenantByHostname.
  rewrite (bind_returned _ _ _ _ _ (new_URL_accepted w H)).
  rewrite (proj2 (endsWith_spec _ _)) by eauto.
  by rewrite slice_0_neg_app, truthy_isSlugValid, Hp.
Qed.

Lemma resolve_other (hostname : string) (w : World) :
  url_accepts parses (BASE_URL env) = true ->
  (forall p, hostname <> p +:+ "." +:+ ROOT_DOMAIN env) ->
  resolveTenantByHostname env parses net hostname w
  = lookup env net hostname (resolve_url env) w.
Proof.
  intros H Hp. unfold resolveTenantByHostname.
  rewrite (bind_returned _ _ _ _ _ (new_URL_accepted w H)).
  destruct (endsWith hostname ("." +:+ ROOT_DOMAIN env)) eqn:E; [|done].
  apply endsWith_spec in E as [p ->]. by destruct (Hp p).
Qed.

(** The ways [resolveTenantByHostname] can go: it throws at once when
    [new URL] refuses the base; or it gives an early null without a
    call; or one call whose reply decides. *)
Lemma resolve_run (hostname : string) (w : World) :
  (url_accepts parses (BASE_URL env) = false
   /\ resolveTenantByHostname env parses net hostname w
      = (Thrown (TypeError "Invalid URL"), w))
  \/ (url_accepts parses (BASE_URL env) = true
      /\ exists w',
           resolveTenantByHostname env parses net hostname w = (Returned None, w')
           /\ network w' = network w /\ timers w' = timers w)
  \/ (url_accepts parses (BASE_URL env) = true
      /\ exists url hdrs w',
           url_for env hostname url /\ auth_headers env = Some hdrs
           /\ resolveTenantByHostname env parses net hostname w
              = (Returned (answer (net (setTimeout w).2
                                     (lookup_request hostname url hdrs))), w')
           /\ network w' = network w ++ [lookup_request hostname url hdrs]
           /\ timers w' = timers w).
Proof.
  assert (url_accepts parses (BASE_URL env) = true
          \/ url_accepts parses (BASE_URL env) = false) as [Hu|Hu]
    by (destruct (url_accepts _ _); auto);
    [right|left; split; [done|by apply resolve_refused]].
  assert (forall url,
            url_for env hostname url ->
            resolveTenantByHostname env parses net hostname w
            = lookup env net hostname url w ->
            (url_accepts parses (BASE_URL env) = true
             /\ exists w',
                  resolveTenantByHostname env parses net hostname w = (Returned None, w')
                  /\ network w' = network w /\ timers w' = timers w)
            \/ (url_accepts parses (BASE_URL env) = true
                /\ exists url hdrs w',
                     url_for env hostname url /\ auth_headers env = Some hdrs
                     /\ resolveTenantByHostname env parses net hostname w
                        = (Returned (answer (net (setTimeout w).2
                                               (lookup_request hostname url hdrs))), w')
                     /\ network w' = network w ++ [lookup_request hostname url hdrs]
                     /\ timers w' = timers w)) as Hlook.
  { intros url Hurl ->. pose proof (lookup_run hostname url w) as Hrun.
    destruct (auth_headers env) as [hdrs|].
    - right. split; [done|]. destruct Hrun as (w' & ? & ? & ?). by exists url, hdrs, w'.
    - left. split; [done|]. destruct Hrun as (w' & ? & ? & ?). by exists w'. }
  destruct (endsWith hostname ("." +:+ ROOT_DOMAIN env)) eqn:E.
  - apply endsWith_spec in E as [p ->]. destruct (isSlugValid p) eqn:Ep.
    + apply (Hlook (searchParams_set "slug" p (resolve_url env))).
      * left. by exists p.
      * by apply resolve_subdomain_valid.
    + left. split; [done|]. rewrite (resolve_subdomain_invalid p w Hu Ep). by eexists.
  - assert (forall p, hostname <> p +:+ "." +:+ ROOT_DOMAIN env) as Hp.
    { intros p ->. rewrite (proj2 (endsWith_spec _ _)) in E by eauto. done. }
    apply (Hlook (resolve_url env)); [by right|by apply resolve_other].
Qed.

Lemma subdomain_not_root (p root : string) : p +:+ "." +:+ root <> root.
Proof.
  intros H. apply (f_equal String.length) in H.
  rewrite !length_app in H. simpl in H. lia.
Qed.

Lemma snoc_not_self {A : Type} (l : list A) (x : A) : l <> l ++ [x].
Proof.
  intros H. apply (f_equal length) in H. rewrite List.length_app in H. simpl in H. lia.
Qed.

(** *** after the resolution *)

(** [serve] sets the five headers, which fails when a value is refused,
    and then hands the request on or rewrites it. *)
Lemma serve_run (req : NextRequest) (startTime : Z) (h : string) (t : Json) (w : World) :
  truthy_value (Some t) = true ->
  match tenant_headers req h t startTime (clock w) with
  | None =>
      exists e, serve clock req startTime h t w = (Thrown e, w)
                /\ is_Error e = true /\ error_name e = "TypeError"
  | Some hdrs =>
      if handed_on req t
      then serve clock req startTime h t w = (Returned (Next (Some hdrs)), w)
      else exists w',
             serve clock req startTime h t w
             = (Returned (Rewrite (rewritten req t) hdrs), w')
             /\ (w' = w \/ exists msg, w' = logged Warn [msg] w)
  end.
Proof.
  intros Ht. pose proof (truthy_not_null _ Ht) as Hn.
  remember (serve clock req startTime h t w) as run eqn:E.
  unfold serve in E.
  unfold tenant_headers, header_value, handed_on, rewritten, slug_text.
  rewrite (bind_returned (Date_now clock) _ w w (clock w)) in E by done.
  rewrite (bind_returned _ _ _ _ _ (get_field "id" t w Hn)) in E.
  destruct (ToString_value (field "id" t)) as [ident|] eqn:Eid;
    [rewrite (bind_returned _ _ _ _ _ (to_string_some _ _ w Eid)) in E
    |rewrite (bind_thrown _ _ _ _ _ (to_string_none _ w Eid)) in E; by eexists].
  cbn [mbind option_bind].
  destruct (Headers.accepted ident) as [ident'|] eqn:Eid';
    [rewrite (bind_returned _ _ _ _ _ (Headers_set_some _ _ _ _ w Eid')) in E
    |rewrite (bind_thrown _ _ _ _ _ (Headers_set_none _ _ _ w Eid')) in E; by eexists].
  rewrite (bind_returned _ _ _ _ _ (get_field "slug" t w Hn)) in E.
  destruct (ToString_value (field "slug" t)) as [slug|] eqn:Eslug;
    [rewrite (bind_returned _ _ _ _ _ (to_string_some _ _ w Eslug)) in E
    |rewrite (bind_thrown _ _ _ _ _ (to_string_none _ w Eslug)) in E; by eexists].
  cbn [mbind option_bind].
  destruct (Headers.accepted slug) as [slug'|] eqn:Eslug';
    [rewrite (bind_returned _ _ _ _ _ (Headers_set_some _ _ _ _ w Eslug')) in E
    |rewrite (bind_thrown _ _ _ _ _ (Headers_set_none _ _ _ w Eslug')) in E; by eexists].
  rewrite (bind_returned _ _ _ _ _ (get_field "customDomain" t w Hn)) in E.
  destruct (ToString_value (Some (nullish (field "customDomain" t) (JStr h))))
    as [domain|] eqn:Edomain;
    [rewrite (bind_returned _ _ _ _ _ (to_string_some _ _ w Edomain)) in E
    |rewrite (bind_thrown _ _ _ _ _ (to_string_none _ w Edomain)) in E; by eexists].
  cbn [mbind option_bind].
  destruct (Headers.accepted domain) as [domain'|] eqn:Edomain';
    [rewrite (bind_returned _ _ _ _ _ (Headers_set_some _ _ _ _ w Edomain')) in E
    |rewrite (bind_thrown _ _ _ _ _ (Headers_set_none _ _ _ w Edomain')) in E; by eexists].
  rewrite !accepted_pretty. cbn [mbind option_bind default from_option id].
  rewrite (bind_returned _ _ _ _ _
             (Headers_set_some _ _ _ _ w (accepted_pretty (clock w)))) in E.
  rewrite (bind_returned _ _ _ _ _
             (Headers_set_some _ _ _ _ w (accepted_pretty startTime))) in E.
  rewrite (bind_returned _ _ _ _ _ (get_field "slug" t w Hn)) in E.
  rewrite (bind_returned _ _ _ _ _ (to_string_some _ _ w Eslug)) in E.
  destruct (startsWith (pathname (nextUrl req)) ("/s/" +:+ slug)
            || startsWith (pathname (nextUrl req)) "/api"
            || startsWith (pathname (nextUrl req)) "/healthz"); [done|].
  rewrite (bind_returned _ _ _ _ _ (get_field "slug" t w Hn)) in E.
  rewrite (bind_returned _ _ _ _ _ (to_string_some _ _ w Eslug)) in E.
  rewrite (bind_returned (Date_now clock) _ w w (clock w)) in E by done.
  subst run. cbv zeta.
  destruct (100 <? clock w - startTime); eexists; (split; [reflexivity|]); eauto.
Qed.

(** *** the middleware, branch by branch *)

Lemma middleware_refused (req : NextRequest) (w w1 : World) (r : option string) :
  normalizeAndValidateHost (headers req !! "host") w = (Returned r, w1) ->
  r = None \/ r = Some "" ->
  middleware env parses net clock req w
  = (Returned (Respond "Bad Request" 400),
     logged Error ["Invalid or missing host header"] w1).
Proof.
  intros Hrun Hr. unfold middleware.
  rewrite (bind_returned (Date_now clock) _ w w (clock w)) by done.
  rewrite (bind_returned _ _ _ _ _ Hrun).
  by destruct Hr as [-> | ->].
Qed.

Lemma middleware_root (req : NextRequest) (w : World) (h : string) :
  normalizeAndValidateHost (headers req !! "host") w = (Returned (Some h), w) ->
  h <> "" -> h = ROOT_DOMAIN env ->
  middleware env parses net clock req w = (Returned (Next None), w).
Proof.
  intros Hrun Hne Hroot. unfold middleware.
  rewrite (bind_returned (Date_now clock) _ w w (clock w)) by done.
  rewrite (bind_returned _ _ _ _ _ Hrun).
  destruct h as [|c s]; [done|]. rewrite <- Hroot. by rewrite String.eqb_refl.
Qed.

(** past the root-domain test the middleware is the resolver, then the
    rest *)
Lemma middleware_tenant (req : NextRequest) (w : World) (h : string) :
  normalizeAndValidateHost (headers req !! "host") w = (Returned (Some h), w) ->
  h <> "" -> h <> ROOT_DOMAIN env ->
  middleware env parses net clock req w
  = (tenant ← resolveTenantByHostname env parses net h;
     if negb (truthy_value tenant) then mret (Respond "Not Found" 404) else
     match tenant with
     | Some tenant => serve clock req (clock w) h tenant
     | None => mret (Respond "Not Found" 404)
     end) w.
Proof.
  intros Hrun Hne Hroot. unfold middleware.
  rewrite (bind_returned (Date_now clock) _ w w (clock w)) by done.
  rewrite (bind_returned _ _ _ _ _ Hrun).
  destruct h as [|c s] eqn:Eh; [done|]. rewrite <- Eh in *.
  by destruct (String.eqb_spec h (ROOT_DOMAIN env)).
Qed.

Lemma middleware_thrown (req : NextRequest) (w w2 : World) (h : string) (e : JsError) :
  normalizeAndValidateHost (headers req !! "host") w = (Returned (Some h), w) ->
  h <> "" -> h <> ROOT_DOMAIN env ->
  resolveTenantByHostname env parses net h w = (Thrown e, w2) ->
  middleware env parses net clock req w = (Thrown e, w2).
Proof.
  intros Hrun Hne Hroot Hres. rewrite (middleware_tenant req w h Hrun Hne Hroot).
  by rewrite (bind_thrown _ _ _ _ _ Hres).
Qed.

Lemma middleware_unresolved (req : NextRequest) (w w2 : World) (h : string) (r : Value) :
  normalizeAndValidateHost (headers req !! "host") w = (Returned (Some h), w) ->
  h <> "" -> h <> ROOT_DOMAIN env ->
  resolveTenantByHostname env parses net h w = (Returned r, w2) ->
  truthy_value r = false ->
  middleware env parses net clock req w = (Returned (Respond "Not Found" 404), w2).
Proof.
  intros Hrun Hne Hroot Hres Hr. rewrite (middleware_tenant req w h Hrun Hne Hroot).
  rewrite (bind_returned _ _ _ _ _ Hres). by rewrite Hr.
Qed.

Lemma middleware_resolved (req : NextRequest) (w w2 : World) (h : string) (t : Json) :
  normalizeAndValidateHost (headers req !! "host") w = (Returned (Some h), w) ->
  h <> "" -> h <> ROOT_DOMAIN env ->
  resolveTenantByHostname env parses net h w = (Returned (Some t), w2) ->
  truthy_value (Some t) = true ->
  middleware env parses net clock req w = serve clock req (clock w) h t w2.
Proof.
  intros Hrun Hne Hroot Hres Ht. rewrite (middleware_tenant req w h Hrun Hne Hroot).
  rewrite (bind_returned _ _ _ _ _ Hres). by rewrite Ht.
Qed.

Lemma normalize_world (hh : option string) (w w' : World) (r : option string) :
  normalizeAndValidateHost hh w = (Returned r, w') ->
  w' = w \/ exists msg, w' = logged Warn [msg] w.
Proof.
  destruct hh as [h|]; [|intros [= _ <-]; by left].
  unfold normalizeAndValidateHost.
  repeat (match goal with |- context [if ?b then _ else _] => destruct b end);
    run_M; intros [= _ <-]; eauto.
Qed.

(** every run of the middleware is of one of the kinds of [run_kind] *)
Lemma middleware_run (req : NextRequest) (w : World) :
  run_kind env parses net clock req w (middleware env parses net clock req w).
Proof.
  destruct (normalize_total (headers req !! "host") w) as (r & w1 & Hrun).
  destruct r as [h|]; [|rewrite (middleware_refused _ _ _ _ Hrun); eauto using run_kind].
  assert (returns (normalizeAndValidateHost (headers req !! "host")) w (Some h)) as Hret.
  { unfold returns. by rewrite Hrun. }
  apply normalize_inv in Hret as (h0 & _ & _ & _ & _ & Hrun').
  rewrite Hrun' in Hrun. injection Hrun as <-.
  destruct (decide (h = "")) as [->|Hne].
  { rewrite (middleware_refused _ _ _ _ Hrun'); eauto using run_kind. }
  destruct (decide (h = ROOT_DOMAIN env)) as [Hroot|Hroot].
  { rewrite (middleware_root _ _ _ Hrun' Hne Hroot). eauto using run_kind. }
  destruct (resolve_run h w)
    as [[Hu Hres]|[(_ & w2 & Hres & _)|(_ & url & hdrs & w2 & _ & _ & Hres & _)]].
  - rewrite (middleware_thrown _ _ _ _ _ Hrun' Hne Hroot Hres). eauto using run_kind.
  - rewrite (middleware_unresolved _ _ _ _ _ Hrun' Hne Hroot Hres); eauto using run_kind.
  - destruct (truthy_value (answer (net (setTimeout w).2 (lookup_request h url hdrs))))
      eqn:Ht.
    + destruct (answer _) as [t|] eqn:Ea; [|done].
      rewrite (middleware_resolved _ _ _ _ _ Hrun' Hne Hroot Hres Ht).
      pose proof (serve_run req (clock w) h t w2 Ht) as Hserve.
      destruct (tenant_headers req h t (clock w) (clock w2)) as [hdrs'|] eqn:Eh.
      * destruct (handed_on req t) eqn:Hon.
        -- rewrite Hserve. eauto using run_kind.
        -- destruct Hserve as (w3 & -> & Hw3). eauto using run_kind.
      * destruct Hserve as (e & -> & ? & ?). eauto using run_kind.
    + rewrite (middleware_unresolved _ _ _ _ _ Hrun' Hne Hroot Hres Ht).
      eauto using run_kind.
Qed.

End Run.
End MiddlewareFacts.
(** ** Accepted hosts and their normal form *)

Module NormalFacts.
Import Js JsFacts Regex RegexFacts HostFacts.

Lemma is_space_lower c : is_space (lower_char c) = is_space c.
Proof. by destruct c as [[] [] [] [] [] [] [] []]. Qed.

Lemma lower_char_dot c : lower_char c = "."%char -> c = "."%char.
Proof. by destruct c as [[] [] [] [] [] [] [] []]. Qed.

Lemma allowed_not_space c : allowed_char c = true -> negb (is_space c) = true.
Proof. by destruct c as [[] [] [] [] [] [] [] []]. Qed.

Lemma allowed_lower c : allowed_char c = true -> lower_char c = c.
Proof. by destruct c as [[] [] [] [] [] [] [] []]. Qed.

Lemma toLowerCase_fixed p (s : string) :
  (forall c, p c = true -> lower_char c = c) -> all p s = true -> toLowerCase s = s.
Proof.
  intros Hp. induction s as [|c s IH]; [done|]. simpl.
  intros [Hc Hs]%andb_true_iff. by rewrite (Hp c Hc), IH.
Qed.

Lemma test_class_false p (raw : string) :
  (forall c, p c = true -> allowed_char c = false) ->
  all allowed_char raw = true -> regex_test (Class p) raw = false.
Proof.
  intros Hp Hall. apply not_true_is_false.
  intros (a & u & b & -> & (c & -> & Hc)%lang_class_inv)%regex_test_spec.
  assert (contains (a +:+ String c "" +:+ b) (String c "")) as Hin by (by exists a, b).
  pose proof (proj1 (all_char _ _) Hall c Hin). rewrite (Hp c Hc) in *. done.
Qed.

(** The converse of [accepts_clean]. *)
Lemma accepts_intro (raw : string) :
  lang hostRegex raw -> (String.length raw <= 253)%nat ->
  ~ contains raw ".." -> ~ contains raw "javascript:" ->
  accepts raw = true.
Proof.
  intros Hm Hl Hdots Hjs. apply regex_match_lang in Hm.
  pose proof (hostRegex_allowed _ Hm) as Hall.
  unfold accepts, maxLength. rewrite Hm. apply Nat.leb_le in Hl. rewrite Hl. cbn [andb].
  apply negb_true_iff. unfold suspiciousPatterns. cbn [existsb].
  assert (regex_test (Lit "..") raw = false) as ->.
  { apply not_true_is_false.
    intros (a & u & b & -> & ->%lang_lit)%regex_test_spec. apply Hdots. by exists a, b. }
  assert (regex_test (Alt (Char "<") (Char ">")) raw = false) as ->.
  { apply not_true_is_false.
    intros (a & u & b & -> & [H|H]%lang_alt_inv)%regex_test_spec;
      apply lang_class_inv in H as (c & -> & <-%Ascii.eqb_eq);
      rewrite !all_app in Hall; simpl in Hall;
      by rewrite andb_false_r in Hall. }
  rewrite !test_class_false; try done;
    try (intros c; by destruct c as [[] [] [] [] [] [] [] []]).
  cbn [orb]. rewrite orb_false_r. apply not_true_is_false.
  intros (a & u & b & -> & Hu%lang_litI)%regex_test_spec.
  assert (all allowed_char u = true) as Hau.
  { apply (all_contains _ _ _ Hall). by exists a, b. }
  rewrite (toLowerCase_fixed _ _ allowed_lower Hau) in Hu. subst u.
  apply Hjs. by exists a, b.
Qed.

Lemma accepts_iff (raw : string) :
  accepts raw = true <->
  lang hostRegex raw /\ (String.length raw <= 253)%nat
  /\ ~ contains raw ".." /\ ~ contains raw "javascript:".
Proof.
  split.
  - intros Ha. pose proof (accepts_clean _ Ha) as (_ & ? & ?).
    apply accepts_inv in Ha as (?%regex_match_lang & ? & _). done.
  - intros (? & ? & ? & ?). by apply accepts_intro.
Qed.

Lemma strip_trailing_dot_app (p a : string) :
  a <> "" -> strip_trailing_dot (p +:+ a) = p +:+ strip_trailing_dot a.
Proof.
  intros Ha. induction p as [|c p IH]; [done|].
  rewrite !app_cons. destruct (p +:+ a) as [|d s] eqn:E.
  - by apply app_eq_nil in E as [_ ?].
  - rewrite strip_trailing_dot_cons. by rewrite IH.
Qed.

Lemma ends_dot_app (p s : string) : s <> "" -> ends_dot (p +:+ s) -> ends_dot s.
Proof.
  intros Hs. induction p as [|c p IH]; [done|].
  rewrite app_cons. intros [[E _]|H]%ends_dot_cons; [|auto].
  by apply app_eq_nil in E as [_ ?].
Qed.

Lemma trimEnd_cons_nonspace c (s : string) :
  is_space c = false -> trimEnd (String c s) = String c (trimEnd s).
Proof. intros Hc. by apply (trimEnd_app_nonspace "" c s). Qed.

Lemma startsWith_false (s p : string) :
  startsWith s p = false <-> ~ exists r, s = p +:+ r.
Proof. rewrite <- startsWith_spec. by destruct (startsWith s p). Qed.

(** the host part of an accepted header, and its port *)
Lemma accepted_parts (raw : string) :
  accepts raw = true ->
  exists a b, raw = a +:+ b /\ a <> "" /\ all host_char a = true /\ port_suffix b
              /\ split_head ":" raw = a.
Proof.
  intros (Hm & _)%accepts_iff. apply hostRegex_lang in Hm as (a & b & -> & ? & ? & ?).
  exists a, b. by rewrite split_head_host.
Qed.

Lemma host_chars_raw (s : string) : all host_char s = true -> raw_of s = s.
Proof.
  intros Hs. apply (all_impl _ _ _ host_char_allowed) in Hs.
  unfold raw_of. rewrite (toLowerCase_fixed _ _ allowed_lower Hs).
  apply trim_no_space. by apply (all_impl _ _ _ allowed_not_space).
Qed.

(** A root domain that the validator returns unchanged is made of host
    characters, does not end with a dot and does not start with [www.]. *)
Lemma normal_root (root : string) (w : World) :
  returns (normalizeAndValidateHost (Some root)) w (Some root) ->
  all host_char root = true /\ ~ ends_dot root /\ startsWith root "www." = false.
Proof.
  intros (h & [= <-] & _ & Ha & Hs & _)%normalize_inv.
  destruct (finish_shape _ Ha) as (Hall & _ & _ & _ & Hdot & _).
  rewrite <- Hs in Hall, Hdot. rewrite (host_chars_raw _ Hall) in Hs.
  split; [done|]. split; [done|].
  pose proof (finish_cases root) as Hf. cbv zeta in Hf. rewrite <- Hs in Hf.
  assert (split_head ":" root = root) as Hsplit.
  { rewrite <- (app_nil_r root) at 1. rewrite split_head_host; [done|done|constructor]. }
  rewrite Hsplit, (strip_trailing_dot_id _ Hdot) in Hf.
  destruct Hf as [[? _]|Hf]; [done|].
  apply (f_equal String.length) in Hf. rewrite length_app in Hf. simpl in Hf. lia.
Qed.

Lemma variant_normalised (root h : string) (w : World) :
  all host_char root = true -> ~ ends_dot root -> startsWith root "www." = false ->
  root <> "" ->
  root_variant root h -> (String.length h <= 253)%nat ->
  ~ contains_ci h ".." -> ~ contains_ci h "javascript:" ->
  normalizeAndValidateHost (Some h) w = (Returned (Some root), w).
Proof.
  intros Hall Hdot Hwww Hne (pre & dot & port & Hlow & Hpre & Hdot' & Hport) Hlen Hdots Hjs.
  unfold contains_ci in *.
  assert (all host_char pre = true) as Hpre_ok by (by destruct Hpre as [-> | ->]).
  assert (all host_char dot = true) as Hdot_ok by (by destruct Hdot' as [-> | ->]).
  assert (all host_char (pre +:+ root +:+ dot) = true) as Ha.
  { by rewrite !all_app, Hpre_ok, Hall, Hdot_ok. }
  assert (pre +:+ root +:+ dot <> "") as Hane.
  { intros [_ [? _]%app_eq_nil]%app_eq_nil. done. }
  assert (toLowerCase h = (pre +:+ root +:+ dot) +:+ port) as Hlow'.
  { by rewrite Hlow, !app_assoc. }
  assert (raw_of h = toLowerCase h) as Hraw.
  { unfold raw_of. apply trim_no_space, (all_impl _ _ _ allowed_not_space).
    rewrite Hlow', all_app, (all_impl _ _ _ host_char_allowed Ha).
    by rewrite (port_suffix_allowed _ Hport). }
  assert (accepts (raw_of h) = true) as Hacc.
  { rewrite Hraw. apply accepts_intro; [|by rewrite length_toLowerCase|done|done].
    apply hostRegex_lang. by exists (pre +:+ root +:+ dot), port. }
  assert (truthy h = true) as Ht.
  { destruct h; [|done]. simpl in Hlow'. symmetry in Hlow'.
    by apply app_eq_nil in Hlow' as [? _]. }
  rewrite (normalize_accept _ _ Ht Hacc). do 2 f_equal.
  unfold finish. rewrite Hraw, Hlow', (split_head_host _ _ Ha Hport).
  assert (strip_trailing_dot (pre +:+ root +:+ dot) = pre +:+ root) as ->.
  { destruct Hdot' as [-> | ->].
    - rewrite app_nil_r. apply strip_trailing_dot_id.
      intros H. by apply ends_dot_app in H.
    - rewrite <- app_assoc. apply strip_trailing_dot_app_dot. }
  destruct Hpre as [-> | ->].
  - by rewrite app_nil_l, Hwww.
  - by rewrite startsWith_app.
Qed.

End NormalFacts.

(** ** Resolved tenants and their headers *)

Module TenantFacts.
Import Js JsFacts HostFacts SlugFacts HeadersFacts MiddlewareFacts NormalFacts.

(** what passes the check of the payload: a value that is not null,
    whose slug is falsy or a valid slug *)
Lemma vetted_some (tenant t : Json) :
  vetted tenant = Some t ->
  t = tenant /\ t <> JNull
  /\ (truthy_value (field "slug" t) = false
      \/ exists s, field "slug" t = Some (JStr s) /\ slug_rules s).
Proof.
  unfold vetted. destruct tenant as [|b|n|s|l|ms]; [done|..];
    try (intros [= <-]; split; [done|]; split; [done|by left]).
  destruct (truthy_value (field "slug" (JObj ms))) eqn:Ht.
  - destruct (field "slug" (JObj ms)) as [[| | |s| |]|] eqn:Es; try done.
    destruct (isSlugValid s) eqn:Ev; [|done]. intros [= <-].
    split; [done|]. split; [done|]. right. exists s. split; [done|].
    by apply isSlugValid_rules.
  - intros [= <-]. split; [done|]. split; [done|]. by left.
Qed.

Lemma answer_some (o : FetchOutcome) (t : Json) :
  answer o = Some t ->
  exists response, o = Fulfilled response /\ ok response = true /\ body response = Some t
                   /\ vetted t = Some t.
Proof.
  unfold answer. destruct o as [e|response]; [done|].
  destruct (ok response) eqn:Hok; [|done].
  destruct (body response) as [tenant|] eqn:Hbody; [|done].
  intros H. pose proof (vetted_some _ _ H) as [-> _]. by exists response.
Qed.

Section Resolved.
Variable env : ProcessEnv.
Variable parses : string -> bool.
Variable net : World -> FetchRequest -> FetchOutcome.

(** A value the resolver returns is not null, and its slug is falsy or a
    valid slug. *)
Lemma resolve_some (hostname : string) (w w' : World) (t : Json) :
  resolveTenantByHostname env parses net hostname w = (Returned (Some t), w') ->
  t <> JNull
  /\ (truthy_value (field "slug" t) = false
      \/ exists s, field "slug" t = Some (JStr s) /\ slug_rules s).
Proof.
  intros E. destruct (resolve_run env parses net hostname w)
    as [[_ E']|[(_ & w2 & E' & _)|(_ & url & hdrs & w2 & _ & _ & E' & _)]];
    rewrite E' in E; try done.
  injection E as E _. apply answer_some in E as (response & _ & _ & _ & E).
  by apply vetted_some in E as (_ & ? & ?).
Qed.

End Resolved.

(** *** header values *)

Lemma header_value_falsy (v : Value) :
  truthy_value v = false -> header_value v = Some (default "" (ToString_value v)).
Proof.
  destruct v as [[|[]|n|[|c s]|l|ms]|]; intros H; try discriminate H; try reflexivity.
  apply negb_false_iff in H. unfold header_value. simpl. by rewrite H.
Qed.

Lemma header_value_plain (s : string) :
  all plain_char s = true -> header_value (Some (JStr s)) = Some s.
Proof. intros H. unfold header_value. simpl. by apply accepted_plain. Qed.

Lemma header_value_slug (s : string) :
  slug_rules s -> header_value (Some (JStr s)) = Some s.
Proof.
  intros ([_ Hc] & _). apply header_value_plain, all_char. intros c Hin.
  by apply slug_char_plain, slug_char_alphabet, Hc.
Qed.

Lemma header_value_host (h : string) :
  all host_char h = true -> header_value (Some (JStr h)) = Some h.
Proof.
  intros H. apply header_value_plain. by apply (all_impl _ _ _ host_char_plain).
Qed.

(** the slug of a resolved tenant is set as the template literal renders it *)
Lemma header_value_resolved_slug (t : Json) :
  truthy_value (field "slug" t) = false
  \/ (exists s, field "slug" t = Some (JStr s) /\ slug_rules s) ->
  header_value (field "slug" t) = Some (slug_text t).
Proof.
  unfold slug_text. intros [H|(s & -> & Hs)].
  - by apply header_value_falsy.
  - by apply header_value_slug.
Qed.

(** the headers that [tenant_headers] builds *)
Lemma tenant_headers_lookup (req : NextRequest) (h : string) (t : Json)
    (startTime timestamp : Z) (hdrs : gmap string string) :
  tenant_headers req h t startTime timestamp = Some hdrs ->
  hdrs !! "x-tenant-id" = header_value (field "id" t)
  /\ hdrs !! "x-tenant-slug" = header_value (field "slug" t)
  /\ hdrs !! "x-tenant-domain"
     = header_value (Some (nullish (field "customDomain" t) (JStr h)))
  /\ hdrs !! "x-tenant-timestamp" = Some (pretty timestamp)
  /\ hdrs !! "x-middleware-start" = Some (pretty startTime)
  /\ forall name, name ∉ tenant_header_names -> hdrs !! name = headers req !! name.
Proof.
  unfold tenant_headers. rewrite !accepted_pretty.
  destruct (header_value (field "id" t)) as [ident|]; [|done].
  destruct (header_value (field "slug" t)) as [slug|]; [|done].
  destruct (header_value (Some (nullish (field "customDomain" t) (JStr h))))
    as [domain|]; [|done].
  cbn [mbind option_bind]. intros [= <-]. unfold tenant_header_names.
  repeat (split; [by repeat (rewrite lookup_insert_ne by done); rewrite lookup_insert_eq|]).
  intros name Hname. rewrite !not_elem_of_cons in Hname.
  repeat (rewrite lookup_insert_ne by (intros <-; intuition congruence)). done.
Qed.

Lemma tenant_headers_some (req : NextRequest) (h : string) (t : Json)
    (startTime timestamp : Z) :
  is_Some (header_value (field "id" t)) ->
  is_Some (header_value (field "slug" t)) ->
  is_Some (header_value (Some (nullish (field "customDomain" t) (JStr h)))) ->
  is_Some (tenant_headers req h t startTime timestamp).
Proof.
  intros [ident Hid] [slug Hslug] [domain Hdomain]. unfold tenant_headers.
  rewrite Hid, Hslug, Hdomain, !accepted_pretty. by eexists.
Qed.

Lemma tenant_headers_none (req : NextRequest) (h : string) (t : Json)
    (startTime timestamp : Z) :
  tenant_headers req h t startTime timestamp = None ->
  header_value (field "id" t) = None
  \/ header_value (field "slug" t) = None
  \/ header_value (Some (nullish (field "customDomain" t) (JStr h))) = None.
Proof.
  unfold tenant_headers. rewrite !accepted_pretty.
  destruct (header_value (field "id" t)); [|auto].
  destruct (header_value (field "slug" t)); [|auto].
  destruct (header_value (Some (nullish (field "customDomain" t) (JStr h)))); [|auto].
  done.
Qed.

(** the domain value when the tenant has no custom domain *)
Lemma domain_of_host (t : Json) (h : string) :
  field "customDomain" t = None \/ field "customDomain" t = Some JNull ->
  nullish (field "customDomain" t) (JStr h) = JStr h.
Proof. by intros [-> | ->]. Qed.

End TenantFacts.
(** * The claims of the specification *)

Import Js JsFacts HostFacts SlugFacts HeadersFacts MiddlewareFacts NormalFacts TenantFacts.

(** C1, as amended. When the middleware resolves a tenant with slug [s]
    for a request (the host is valid and is not the root domain, and the
    resolver returns the tenant), the tenant's id is a value that
    [Headers.set] accepts and so is its custom domain when it has one,
    and the path [P] does not start with [/s/s], [/api] or [/healthz],
    the request is rewritten to the path [/s/s] followed by [P], with
    the query string kept and the header [x-tenant-slug] set to [s]. *)
Theorem resolved_tenant_rewritten
    (env : ProcessEnv) (parses : string -> bool)
    (net : World -> FetchRequest -> FetchOutcome) (clock : World -> Z)
    (req : NextRequest) (w w' : World) (h : string) (t : Json) (s : string) :
  returns (normalizeAndValidateHost (headers req !! "host")) w (Some h) ->
  h <> "" -> h <> ROOT_DOMAIN env ->
  resolveTenantByHostname env parses net h w = (Returned (Some t), w') ->
  field "slug" t = Some (JStr s) ->
  is_Some (header_value (field "id" t)) ->
  field "customDomain" t = None \/ field "customDomain" t = Some JNull
  \/ is_Some (header_value (field "customDomain" t)) ->
  ~ (exists r, pathname (nextUrl req) = ("/s/" +:+ s) +:+ r) ->
  ~ (exists r, pathname (nextUrl req) = "/api" +:+ r) ->
  ~ (exists r, pathname (nextUrl req) = "/healthz" +:+ r) ->
  exists hdrs w'',
    middleware env parses net clock req w
    = (Returned
         (Rewrite
            {| origin := origin (nextUrl req);
               pathname := "/s/" +:+ s +:+ pathname (nextUrl req);
               search := search (nextUrl req) |}
            hdrs), w'')
    /\ hdrs !! "x-tenant-slug" = Some s.
Proof.
  intros Hret Hne Hroot Hres Hslug Hid Hdomain Hs Hapi Hhealth.
  apply normalize_inv in Hret as (h0 & _ & _ & Ha & Hfin & Hrun).
  pose proof (proj1 (finish_shape _ Ha)) as Hhost. rewrite <- Hfin in Hhost.
  destruct (resolve_some env parses net h w w' t Hres) as [Hnull Hvalid].
  assert (truthy_value (Some t) = true) as Ht by (by destruct t).
  assert (slug_text t = s) as Htext by (unfold slug_text; by rewrite Hslug).
  pose proof (header_value_resolved_slug t Hvalid) as Hsv. rewrite Htext in Hsv.
  assert (is_Some (header_value (Some (nullish (field "customDomain" t) (JStr h)))))
    as Hdv.
  { assert (is_Some (header_value (Some (JStr h)))) as Hh
      by (rewrite (header_value_host h Hhost); by eexists).
    destruct Hdomain as [->|[->|Hd]]; [done..|].
    destruct (field "customDomain" t) as [[| | | | |]|]; done. }
  destruct (tenant_headers_some req h t (clock w) (clock w') Hid
              (ex_intro _ s Hsv) Hdv) as [hdrs Hh].
  rewrite (middleware_resolved env parses net clock req w w' h t Hrun Hne Hroot Hres Ht).
  pose proof (serve_run clock req (clock w) h t w' Ht) as Hserve. rewrite Hh in Hserve.
  assert (handed_on req t = false) as Hoff.
  { unfold handed_on. rewrite Htext. rewrite <- startsWith_spec in Hs, Hapi, Hhealth.
    apply not_true_is_false in Hs, Hapi, Hhealth. by rewrite Hs, Hapi, Hhealth. }
  rewrite Hoff in Hserve. destruct Hserve as (w'' & -> & _).
  exists hdrs, w''. unfold rewritten. rewrite Htext. split; [done|].
  destruct (tenant_headers_lookup _ _ _ _ _ _ Hh) as (_ & -> & _). done.
Qed.

Lemma resolved_tenant_rewritten_witness :
  exists hdrs w'',
    middleware default_env http_parser net_acme still_clock
      (request_to "acme.localhost" "/dashboard") quiet
    = (Returned
         (Rewrite
            {| origin := "http://acme.localhost";
               pathname := "/s/" +:+ "acme" +:+ "/dashboard";
               search := "?tab=1" |}
            hdrs), w'')
    /\ hdrs !! "x-tenant-slug" = Some "acme".
Proof.
  eapply (resolved_tenant_rewritten default_env http_parser net_acme still_clock
            (request_to "acme.localhost" "/dashboard") quiet _ "acme.localhost"
            (of_tenant acme) "acme").
  - reflexivity.
  - discriminate.
  - vm_compute. discriminate.
  - vm_compute. reflexivity.
  - reflexivity.
  - by eexists.
  - right. by left.
  - intros [r Hr]. vm_compute in Hr. discriminate.
  - intros [r Hr]. vm_compute in Hr. discriminate.
  - intros [r Hr]. vm_compute in Hr. discriminate.
Defined.

(** C1, as stated, fails for a tenant whose id is no header value. The
    tenant's fields other than the slug are not checked, and
    [requestHeaders.set] throws on a value with a line feed inside: for
    the payload with the id [org], line feed, [1] and the slug [acme]
    the resolver returns the tenant, the path [/dashboard] is none of
    the paths handed on, and the middleware throws instead of rewriting. *)
Lemma tenant_id_refused_by_headers :
  exists w',
    resolveTenantByHostname default_env http_parser
      (net_of (JObj [("id", JStr ("org" +:+ LF +:+ "1")); ("slug", JStr "acme");
                     ("customDomain", JNull)]))
      "acme.localhost" quiet
    = (Returned (Some (JObj [("id", JStr ("org" +:+ LF +:+ "1")); ("slug", JStr "acme");
                             ("customDomain", JNull)])), w')
    /\ returns (normalizeAndValidateHost
                  (headers (request_to "acme.localhost" "/dashboard") !! "host"))
         quiet (Some "acme.localhost")
    /\ middleware default_env http_parser
         (net_of (JObj [("id", JStr ("org" +:+ LF +:+ "1")); ("slug", JStr "acme");
                        ("customDomain", JNull)]))
         still_clock (request_to "acme.localhost" "/dashboard") quiet
       = (Thrown (TypeError "Invalid header value"), w').
Proof. eexists. split; [vm_compute; reflexivity|]. split; vm_compute; reflexivity. Qed.

(** C2. A host header that contains [..], [<], [>], a quote character
    (single, double or back quote), [{], [}], or [javascript:] in any
    letter case is refused: the host validator returns null. *)
Theorem suspicious_host_returns_null (h : string) (w : World) :
  suspicious h -> returns (normalizeAndValidateHost (Some h)) w None.
Proof. intros Hs. by apply normalize_reject, suspicious_rejected. Qed.

Lemma suspicious_host_returns_null_witness :
  returns (normalizeAndValidateHost (Some "a.JavaScript:80")) quiet None.
Proof.
  apply (suspicious_host_returns_null "a.JavaScript:80" quiet).
  do 8 right. exists "a.", "80". reflexivity.
Defined.

(** C3, as amended. When [new URL] accepts the base URL and the prefix
    [p] of a host name [p.<root-domain>] breaks the slug rules,
    [resolveTenantByHostname] returns null without calling the lookup
    endpoint, and the middleware answers 404, again without a call. *)
Theorem invalid_subdomain_not_looked_up
    (env : ProcessEnv) (parses : string -> bool)
    (net : World -> FetchRequest -> FetchOutcome) (clock : World -> Z)
    (p : string) (w : World) :
  url_accepts parses (BASE_URL env) = true ->
  ~ slug_rules p ->
  (exists w',
      resolveTenantByHostname env parses net (p +:+ "." +:+ ROOT_DOMAIN env) w
      = (Returned None, w')
      /\ network w' = network w)
  /\ (forall req,
        returns (normalizeAndValidateHost (headers req !! "host")) w
          (Some (p +:+ "." +:+ ROOT_DOMAIN env)) ->
        exists w',
          middleware env parses net clock req w = (Returned (Respond "Not Found" 404), w')
          /\ network w' = network w).
Proof.
  intros Hu Hp. assert (isSlugValid p = false) as Hv.
  { destruct (isSlugValid p) eqn:E; [|done]. by apply isSlugValid_rules in E. }
  pose proof (resolve_subdomain_invalid env parses net p w Hu Hv) as Hres.
  split; [rewrite Hres; by eexists|].
  intros req (h & _ & _ & _ & _ & Hrun)%normalize_inv.
  assert (p +:+ "." +:+ ROOT_DOMAIN env <> "") as Hne.
  { by intros [_ ?]%app_eq_nil. }
  rewrite (middleware_unresolved env parses net clock req w _ _ None Hrun Hne
             (subdomain_not_root p (ROOT_DOMAIN env)) Hres eq_refl).
  by eexists.
Qed.

Lemma invalid_subdomain_not_looked_up_witness :
  (exists w',
      resolveTenantByHostname default_env http_parser net_acme
        ("ab" +:+ "." +:+ ROOT_DOMAIN default_env) quiet
      = (Returned None, w')
      /\ network w' = network quiet)
  /\ (forall req,
        returns (normalizeAndValidateHost (headers req !! "host")) quiet
          (Some ("ab" +:+ "." +:+ ROOT_DOMAIN default_env)) ->
        exists w',
          middleware default_env http_parser net_acme still_clock req quiet
          = (Returned (Respond "Not Found" 404), w')
          /\ network w' = network quiet).
Proof.
  apply (invalid_subdomain_not_looked_up default_env http_parser net_acme still_clock
           "ab" quiet).
  - reflexivity.
  - intros [[Hlen _] _]. simpl in Hlen. lia.
Defined.

(** C3, as stated, fails when the base URL is not one that [new URL]
    accepts: the URL object is made before the prefix is looked at, and
    outside the [try] block. With [NEXT_PUBLIC_BASE_URL] set to
    [app.example.com], which has no scheme, the root domain is
    [app.example.com]; for the host name [ab.app.example.com], whose
    prefix is too short, the resolver throws, and so does the
    middleware, which answers nothing. *)
Lemma invalid_subdomain_throws :
  ROOT_DOMAIN (env_with_base "app.example.com") = "app.example.com"
  /\ ~ slug_rules "ab"
  /\ resolveTenantByHostname (env_with_base "app.example.com") http_parser net_acme
       ("ab" +:+ "." +:+ "app.example.com") quiet
     = (Thrown (TypeError "Invalid URL"), quiet)
  /\ returns (normalizeAndValidateHost
                (headers (request_to "ab.app.example.com" "/") !! "host"))
       quiet (Some ("ab" +:+ "." +:+ "app.example.com"))
  /\ middleware (env_with_base "app.example.com") http_parser net_acme still_clock
       (request_to "ab.app.example.com" "/") quiet
     = (Thrown (TypeError "Invalid URL"), quiet).
Proof.
  split; [reflexivity|]. split; [intros [[Hlen _] _]; simpl in Hlen; lia|].
  split; [reflexivity|]. split; vm_compute; reflexivity.
Qed.

(** C4, as amended. When [new URL] accepts the base URL,
    [resolveTenantByHostname] never throws: for every host name it
    returns, and it returns null when it performs no call, when its
    call is aborted or fails, or is answered with a status that is not
    OK, with a body that is not JSON or is null, or with a payload whose
    slug is truthy and is not a string that keeps the slug rules. (The
    reply is the one the network gives to the request in the world where
    the timer has just been set.) *)
Theorem resolve_never_throws
    (env : ProcessEnv) (parses : string -> bool)
    (net : World -> FetchRequest -> FetchOutcome)
    (hostname : string) (w : World) :
  url_accepts parses (BASE_URL env) = true ->
  exists r w',
    resolveTenantByHostname env parses net hostname w = (Returned r, w')
    /\ (network w' = network w -> r = None)
    /\ forall request,
         network w' = network w ++ [request] ->
         match net (setTimeout w).2 request with
         | Rejected _ => r = None
         | Fulfilled response =>
             (ok response = false -> r = None)
             /\ (body response = None -> r = None)
             /\ (body response = Some JNull -> r = None)
             /\ (forall tenant, body response = Some tenant ->
                   truthy_value (field "slug" tenant) = true ->
                   (forall s, field "slug" tenant = Some (JStr s) -> ~ slug_rules s) ->
                   r = None)
         end.
Proof.
  intros Hu.
  destruct (resolve_run env parses net hostname w)
    as [[Hu' _]|[(_ & w' & -> & Hn & _)|(_ & url & hdrs & w' & _ & _ & -> & Hn & _)]];
    [congruence| |]; eexists _, w'; (split; [done|]).
  - split; [done|]. intros request Hr. rewrite Hn in Hr. by apply snoc_not_self in Hr.
  - split; [intros Hr; rewrite Hn in Hr; symmetry in Hr; by apply snoc_not_self in Hr|].
    intros request Hr. rewrite Hn in Hr. apply app_inv_head in Hr as [= <-].
    destruct (net _ _) as [e|response]; [done|]. unfold answer.
    destruct (ok response); [|done].
    split; [done|]. split; [by intros ->|]. split; [by intros ->|].
    intros tenant -> Ht Hbad. unfold vetted. rewrite Ht.
    destruct tenant as [| | | | |ms]; try done.
    destruct (field "slug" (JObj ms)) as [[| | |s| |]|] eqn:Es; try done.
    destruct (isSlugValid s) eqn:Ev; [|done].
    apply isSlugValid_rules in Ev. by destruct (Hbad s).
Qed.

Lemma resolve_never_throws_witness :
  exists r w',
    resolveTenantByHostname default_env http_parser net_down "shop.example.org" quiet
    = (Returned r, w')
    /\ (network w' = network quiet -> r = None)
    /\ forall request,
         network w' = network quiet ++ [request] ->
         match net_down (setTimeout quiet).2 request with
         | Rejected _ => r = None
         | Fulfilled response =>
             (ok response = false -> r = None)
             /\ (body response = None -> r = None)
             /\ (body response = Some JNull -> r = None)
             /\ (forall tenant, body response = Some tenant ->
                   truthy_value (field "slug" tenant) = true ->
                   (forall s, field "slug" tenant = Some (JStr s) -> ~ slug_rules s) ->
                   r = None)
         end.
Proof.
  apply (resolve_never_throws default_env http_parser net_down "shop.example.org" quiet).
  reflexivity.
Defined.

(** C4, as stated, fails in two ways. A payload whose slug is the empty
    string, which breaks the slug rules, is returned as a tenant: the
    check of the slug is guarded by [tenant.slug &&]. And the resolver
    throws when [new URL] refuses the base URL, as for
    [NEXT_PUBLIC_BASE_URL] set to [app.example.com]: the URL object is
    made outside the [try] block. *)
Lemma empty_slug_returned_and_bad_base_throws :
  (~ slug_rules ""
   /\ exists w',
       resolveTenantByHostname default_env http_parser
         (net_of (JObj [("id", JStr "org_3"); ("slug", JStr ""); ("customDomain", JNull)]))
         "shop.example.org" quiet
       = (Returned (Some (JObj [("id", JStr "org_3"); ("slug", JStr "");
                                ("customDomain", JNull)])), w'))
  /\ resolveTenantByHostname (env_with_base "app.example.com") http_parser net_acme
       "shop.example.org" quiet
     = (Thrown (TypeError "Invalid URL"), quiet).
Proof.
  split; [split|reflexivity].
  - intros [[Hlen _] _]. simpl in Hlen. lia.
  - eexists. vm_compute. reflexivity.
Qed.

(** C5, as amended. For a host header [H] that the validator accepts,
    that has at most 249 characters and that begins neither with white
    space, nor with a dot, nor with [www.] in any letter case, the header
    ["WWW." + H] is normalised to the same host name as [H]. *)
Theorem www_prefix_ignored (H : string) (w : World) (s : string) :
  returns (normalizeAndValidateHost (Some H)) w (Some s) ->
  (String.length H <= 249)%nat ->
  (forall c r, H = String c r -> is_space c = false /\ c <> "."%char) ->
  ~ (exists r, toLowerCase H = "www." +:+ r) ->
  normalizeAndValidateHost (Some ("WWW." +:+ H)) w
  = normalizeAndValidateHost (Some H) w.
Proof.
  intros (h0 & [= <-] & Ht & Ha & -> & Hrun)%normalize_inv Hlen Hfirst Hwww.
  rewrite Hrun. destruct H as [|c r]; [discriminate Ht|].
  destruct (Hfirst c r eq_refl) as [Hsp Hdot].
  set (lh := toLowerCase (String c r)) in *.
  assert (is_space (lower_char c) = false) as Hsp' by (by rewrite is_space_lower).
  assert (raw_of (String c r) = trimEnd lh) as Hraw.
  { unfold raw_of, trim. fold lh. unfold lh. cbn [toLowerCase trimStart].
    by rewrite Hsp'. }
  assert (raw_of ("WWW." +:+ String c r) = "www." +:+ trimEnd lh) as Hraw'.
  { unfold raw_of. rewrite toLowerCase_app. fold lh. unfold trim.
    change (trimStart (toLowerCase "WWW." +:+ lh)) with ("www" +:+ String "." lh).
    by rewrite trimEnd_app_nonspace. }
  rewrite Hraw in *. clear Hraw.
  assert (exists t, trimEnd lh = String (lower_char c) t) as [t Hhead].
  { unfold lh. cbn [toLowerCase]. rewrite trimEnd_cons_nonspace by done. by eexists. }
  destruct (trimEnd_prefix lh) as (tail & Htail & _).
  set (raw := trimEnd lh) in *.
  pose proof (accepted_parts _ Ha) as (a & b & Hab & Hne & Hhost & Hport & Hsplit).
  apply accepts_iff in Ha as (_ & Hl & Hdots & Hjs).
  assert (accepts ("www." +:+ raw) = true) as Ha'.
  { apply accepts_iff. split; [|split; [|split]].
    - apply hostRegex_lang. exists ("www." +:+ a), b.
      rewrite Hab, app_assoc, all_app, Hhost. by repeat split.
    - apply (f_equal String.length) in Htail.
      unfold lh in Htail. rewrite length_toLowerCase, !length_app in *.
      simpl in *. lia.
    - rewrite <- contains_includes.
      change (includes ("www." +:+ raw) "..") with (startsWith raw "." || includes raw "..").
      assert (startsWith raw "." = false) as ->.
      { rewrite Hhead. cbn [startsWith].
        destruct (Ascii.eqb_spec "." (lower_char c)) as [E|_]; [|done].
        symmetry in E. by apply lower_char_dot in E. }
      destruct (includes raw "..") eqn:E; [|done].
      by apply contains_includes in E.
    - rewrite <- contains_includes.
      change (includes ("www." +:+ raw) "javascript:") with (includes raw "javascript:").
      by rewrite contains_includes. }
  rewrite normalize_some, Hraw', Ha'. cbn [truthy andb]. do 2 f_equal.
  unfold finish. rewrite Hsplit.
  assert (split_head ":" ("www." +:+ raw) = "www." +:+ a) as ->.
  { rewrite Hab, <- app_assoc, split_head_host; [done| |done].
    by rewrite all_app, Hhost. }
  rewrite strip_trailing_dot_app by done.
  rewrite startsWith_app.
  change (slice_from 4 ("www." +:+ strip_trailing_dot a)) with (strip_trailing_dot a).
  assert (startsWith (strip_trailing_dot a) "www." = false) as ->; [|done].
  apply startsWith_false. intros [x Hx]. apply Hwww.
  destruct (strip_trailing_dot_prefix a) as [y Hy].
  exists (x +:+ y +:+ b +:+ tail).
  fold lh. rewrite Htail, Hab, Hy, Hx. by rewrite !app_assoc.
Qed.

Lemma www_prefix_ignored_witness :
  normalizeAndValidateHost (Some ("WWW." +:+ "Acme.Example.com:8080")) quiet
  = normalizeAndValidateHost (Some "Acme.Example.com:8080") quiet.
Proof.
  apply (www_prefix_ignored "Acme.Example.com:8080" quiet "acme.example.com").
  - reflexivity.
  - simpl. lia.
  - intros c r [= <- _]. split; [reflexivity|discriminate].
  - intros [r Hr]. vm_compute in Hr. discriminate.
Defined.

(** C5, as stated, fails: only one [www.] is removed, so for the accepted
    header [www.example.com] the two results differ. *)
Lemma www_stripped_once :
  returns (normalizeAndValidateHost (Some "www.example.com")) quiet (Some "example.com")
  /\ returns (normalizeAndValidateHost (Some ("WWW." +:+ "www.example.com"))) quiet
       (Some "www.example.com").
Proof. split; reflexivity. Qed.

(** The other conditions of the amended C5 are needed as well: after a
    [www.] prefix a leading dot makes [..], leading white space is no
    longer trimmed, and 250 characters become 254. *)
Example www_prefix_before_dot :
  returns (normalizeAndValidateHost (Some ".example.com")) quiet (Some ".example.com")
  /\ returns (normalizeAndValidateHost (Some ("WWW." +:+ ".example.com"))) quiet None.
Proof. split; reflexivity. Qed.

Example www_prefix_before_space :
  returns (normalizeAndValidateHost (Some " example.com")) quiet (Some "example.com")
  /\ returns (normalizeAndValidateHost (Some ("WWW." +:+ " example.com"))) quiet None.
Proof. split; reflexivity. Qed.

Example www_prefix_too_long :
  returns (normalizeAndValidateHost (Some (letters 250))) quiet (Some (letters 250))
  /\ returns (normalizeAndValidateHost (Some ("WWW." +:+ letters 250))) quiet None.
Proof. split; vm_compute; reflexivity. Qed.

(** C6. [isSlugValid] is false on every reserved word, true on every
    string that satisfies all the slug rules, and false on every string
    that breaks one of them. *)
Theorem isSlugValid_spec :
  (forall s, s ∈ reserved_words -> isSlugValid s = false)
  /\ (forall s, slug_rules s -> isSlugValid s = true)
  /\ (forall s,
        ~ slug_format s \/ leading_hyphen s \/ trailing_hyphen s \/ double_hyphen s
        \/ s ∈ reserved_words ->
        isSlugValid s = false).
Proof.
  assert (forall s, ~ slug_rules s -> isSlugValid s = false) as Hno.
  { intros s Hs. destruct (isSlugValid s) eqn:E; [|done]. by apply isSlugValid_rules in E. }
  split; [|split].
  - intros s Hs. apply Hno. unfold slug_rules. tauto.
  - intros s. apply isSlugValid_rules.
  - intros s Hs. apply Hno. unfold slug_rules. tauto.
Qed.

Lemma isSlugValid_spec_witness :
  isSlugValid "admin" = false /\ isSlugValid "acme-2" = true /\ isSlugValid "ab" = false.
Proof.
  destruct isSlugValid_spec as (Hreserved & Hvalid & Hinvalid).
  split; [|split].
  - apply Hreserved. unfold reserved_words. set_solver.
  - apply Hvalid. apply isSlugValid_rules. reflexivity.
  - apply Hinvalid. left. intros [Hlen _]. simpl in Hlen. lia.
Defined.

(** C7, as amended. When the normalised host name is not empty and
    equals the root domain, the middleware passes the request through
    as it is: no rewrite, no tenant header, no call, no log. *)
Theorem root_domain_passes_through
    (env : ProcessEnv) (parses : string -> bool)
    (net : World -> FetchRequest -> FetchOutcome) (clock : World -> Z)
    (req : NextRequest) (w : World) (h : string) :
  returns (normalizeAndValidateHost (headers req !! "host")) w (Some h) ->
  h <> "" -> h = ROOT_DOMAIN env ->
  middleware env parses net clock req w = (Returned (Next None), w).
Proof.
  intros (h0 & _ & _ & _ & _ & Hrun)%normalize_inv Hne Hroot.
  by apply (middleware_root env parses net clock req w h).
Qed.

Lemma root_domain_passes_through_witness :
  middleware default_env http_parser net_down still_clock
    (request_to "WWW.LocalHost:3000" "/pricing") quiet
  = (Returned (Next None), quiet).
Proof.
  apply (root_domain_passes_through default_env http_parser net_down still_clock
           (request_to "WWW.LocalHost:3000" "/pricing") quiet "localhost").
  - reflexivity.
  - discriminate.
  - reflexivity.
Defined.

(** C7, as stated, fails when the root domain is empty (the variable
    [NEXT_PUBLIC_BASE_URL] is set to the empty string): the header ["."]
    normalises to the empty string, which equals the root domain, and the
    middleware answers 400, as the test of a missing host comes first. *)
Lemma empty_root_domain_answers_400 :
  returns (normalizeAndValidateHost (headers (request_to "." "/") !! "host")) quiet
    (Some (ROOT_DOMAIN (env_with_base "")))
  /\ returns (middleware (env_with_base "") http_parser net_down still_clock
                (request_to "." "/")) quiet
       (Respond "Bad Request" 400).
Proof. split; reflexivity. Qed.




(** C9. Whatever non-null string the host validator returns has no
    colon, no capital letter, only characters of [[a-z0-9.-]], no final
    dot and at most 253 characters. It can be empty, as for the header
    ["."], and then the middleware still answers 400. *)
Theorem normalized_host_shape
    (env : ProcessEnv) (parses : string -> bool)
    (net : World -> FetchRequest -> FetchOutcome) (clock : World -> Z)
    (hostHeader : option string) (w : World) (s : string) :
  returns (normalizeAndValidateHost hostHeader) w (Some s) ->
  normalized_shape s
  /\ returns (normalizeAndValidateHost (Some ".")) w (Some "")
  /\ (s = "" ->
      forall req, headers req !! "host" = hostHeader ->
        returns (middleware env parses net clock req) w (Respond "Bad Request" 400)).
Proof.
  intros (h & -> & Ht & Ha & -> & Hrun)%normalize_inv.
  split; [by apply finish_shape|]. split; [done|].
  intros Hs req Hreq. rewrite <- Hreq, Hs in Hrun.
  unfold returns.
  by rewrite (middleware_refused env parses net clock req w w _ Hrun (or_intror eq_refl)).
Qed.

Lemma normalized_host_shape_witness :
  normalized_shape ""
  /\ returns (normalizeAndValidateHost (Some ".")) quiet (Some "")
  /\ ("" = "" ->
      forall req, headers req !! "host" = Some "." ->
        returns (middleware default_env http_parser net_down still_clock req) quiet
          (Respond "Bad Request" 400)).
Proof.
  apply (normalized_host_shape default_env http_parser net_down still_clock
           (Some ".") quiet "").
  reflexivity.
Defined.

(** C10, as amended. Let the root domain be a non-empty host name in
    normal form (one the validator returns unchanged). Every host header
    that is this root domain up to letter case, with possibly [www.] in
    front, a dot behind and a port, that has at most 253 characters and
    contains neither [..] nor [javascript:], is passed through as it is:
    no rewrite, no tenant header, no call. *)
Theorem root_variant_passes_through
    (env : ProcessEnv) (parses : string -> bool)
    (net : World -> FetchRequest -> FetchOutcome) (clock : World -> Z)
    (req : NextRequest) (w : World) (h : string) :
  returns (normalizeAndValidateHost (Some (ROOT_DOMAIN env))) w (Some (ROOT_DOMAIN env)) ->
  ROOT_DOMAIN env <> "" ->
  headers req !! "host" = Some h ->
  root_variant (ROOT_DOMAIN env) h ->
  (String.length h <= 253)%nat ->
  ~ contains_ci h ".." -> ~ contains_ci h "javascript:" ->
  middleware env parses net clock req w = (Returned (Next None), w).
Proof.
  intros (Hall & Hdot & Hwww)%normal_root Hne Hhost Hvar Hlen Hdots Hjs.
  pose proof (variant_normalised _ h w Hall Hdot Hwww Hne Hvar Hlen Hdots Hjs) as Hrun.
  rewrite <- Hhost in Hrun.
  by apply (middleware_root env parses net clock req w (ROOT_DOMAIN env)).
Qed.

Lemma root_variant_passes_through_witness :
  middleware (env_with_base "https://app.example.com") http_parser net_down still_clock
    (request_to "WWW.App.Example.COM.:443" "/pricing") quiet
  = (Returned (Next None), quiet).
Proof.
  apply (root_variant_passes_through (env_with_base "https://app.example.com")
           http_parser net_down still_clock (request_to "WWW.App.Example.COM.:443" "/pricing")
           quiet "WWW.App.Example.COM.:443").
  - reflexivity.
  - discriminate.
  - reflexivity.
  - exists "www.", ".", ":443". split; [reflexivity|].
    split; [by right|]. split; [by right|]. apply port_present; [simpl; lia|reflexivity].
  - simpl. lia.
  - intros H%contains_includes. vm_compute in H. discriminate.
  - intros H%contains_includes. vm_compute in H. discriminate.
Defined.

(** C10, as stated, fails on variants that the validator refuses. With
    the base URL [http://javascript:3000] the root domain is [javascript]:
    the header [javascript] is passed through, but its ported variant
    [javascript:3000] contains [javascript:] and is answered 400. *)
Lemma ported_root_variant_rejected :
  ROOT_DOMAIN (env_with_base "http://javascript:3000") = "javascript"
  /\ root_variant "javascript" "javascript:3000"
  /\ returns (middleware (env_with_base "http://javascript:3000") http_parser net_down still_clock
                (request_to "javascript" "/")) quiet (Next None)
  /\ returns (middleware (env_with_base "http://javascript:3000") http_parser net_down still_clock
                (request_to "javascript:3000" "/")) quiet (Respond "Bad Request" 400).
Proof.
  split; [reflexivity|]. split; [|split; vm_compute; reflexivity].
  exists "", "", ":3000". split; [reflexivity|].
  split; [by left|]. split; [by left|]. apply port_present; [simpl; lia|reflexivity].
Qed.

(** So does a [www.] in front of a root domain of 250 characters: the
    header has more than 253. *)
Example long_root_with_www :
  returns (middleware (env_with_base ("https://" +:+ letters 250)) http_parser net_down still_clock
             (request_to (letters 250) "/")) quiet (Next None)
  /\ returns (middleware (env_with_base ("https://" +:+ letters 250)) http_parser net_down still_clock
                (request_to ("www." +:+ letters 250) "/")) quiet (Respond "Bad Request" 400).
Proof. split; vm_compute; reflexivity. Qed.

(** A root domain that is not in normal form is outside the amended C10.
    With the base URL [https://www.example.com] the root domain keeps its
    [www.], which the validator removes from every header: the header
    [WWW.Example.com:443] is normalised to [example.com] and the tenant is
    looked up. *)
Example www_root_domain_is_looked_up :
  ROOT_DOMAIN (env_with_base "https://www.example.com") = "www.example.com"
  /\ root_variant "www.example.com" "WWW.Example.com:443"
  /\ exists w',
       middleware (env_with_base "https://www.example.com") http_parser net_404 still_clock
         (request_to "WWW.Example.com:443" "/") quiet
       = (Returned (Respond "Not Found" 404), w')
       /\ length (network w') = 1%nat.
Proof.
  split; [reflexivity|]. split.
  - exists "", "", ":443". split; [reflexivity|].
    split; [by left|]. split; [by left|]. apply port_present; [simpl; lia|reflexivity].
  - eexists. split; [vm_compute; reflexivity|reflexivity].
Qed.

(** * Further properties of the code *)

(** ** The middleware *)

(** X1. How a run of the middleware ends. Whatever the request, the
    network and the clock, the middleware returns a response or throws;
    it leaves no timer armed and makes at most one call. It throws in
    two cases only, and then a TypeError: when [new URL] refuses the
    base URL, with nothing called or logged; and when a tenant has been
    resolved and [Headers.set] refuses one of the values it is given. *)
Theorem middleware_ends
    (env : ProcessEnv) (parses : string -> bool)
    (net : World -> FetchRequest -> FetchOutcome) (clock : World -> Z)
    (req : NextRequest) (w : World) :
  exists o w',
    middleware env parses net clock req w = (o, w')
    /\ timers w' = timers w
    /\ (network w' = network w \/ exists request, network w' = network w ++ [request])
    /\ forall e, o = Thrown e ->
         is_Error e = true /\ error_name e = "TypeError"
         /\ ((url_accepts parses (BASE_URL env) = false /\ w' = w)
             \/ exists h t,
                  returns (normalizeAndValidateHost (headers req !! "host")) w (Some h)
                  /\ resolveTenantByHostname env parses net h w = (Returned (Some t), w')
                  /\ tenant_headers req h t (clock w) (clock w') = None).
Proof.
  assert (forall h o w2,
            resolveTenantByHostname env parses net h w = (o, w2) ->
            timers w2 = timers w
            /\ (network w2 = network w
                \/ exists request, network w2 = network w ++ [request])) as Hres.
  { intros h o w2 E. destruct (resolve_run env parses net h w)
      as [[_ E']|[(_ & w' & E' & ? & ?)|(_ & url & hdrs & w' & _ & _ & E' & ? & ?)]];
      rewrite E' in E; injection E as _ <-; eauto. }
  destruct (middleware_run env parses net clock req w)
    as [r w1 Hrun _|h _ _ _|h _ _ _ Hu _|h r w2 _ _ _ Hr _
       |h t w2 e Hrun _ _ Hr _ Hh He Hn
       |h t w2 hdrs _ _ _ Hr _ _ _|h t w2 w3 hdrs _ _ _ Hr _ _ _ Hw3];
    eexists _, _; (split; [reflexivity|]).
  - destruct (normalize_world _ _ _ _ Hrun) as [->|[msg ->]]; simpl;
      (split; [done|]); (split; [auto|done]).
  - split; [done|]. split; [auto|done].
  - split; [done|]. split; [auto|]. intros e [= <-]. auto.
  - destruct (Hres _ _ _ Hr) as [? ?]. split; [done|]. split; [done|done].
  - destruct (Hres _ _ _ Hr) as [? ?]. split; [done|]. split; [done|].
    intros e' [= <-]. split; [done|]. split; [done|]. right. exists h, t.
    split; [unfold returns; by rewrite Hrun|done].
  - destruct (Hres _ _ _ Hr) as [? ?]. split; [done|]. split; [done|done].
  - destruct (Hres _ _ _ Hr) as [? ?].
    destruct Hw3 as [->|[msg ->]]; (split; [done|]); (split; [done|done]).
Qed.

(** X2. A request is handed on with no tenant header only as the root
    domain: when the middleware answers with a plain pass-through, the
    host validator has returned the root domain, which then is not empty
    and has the shape of a normalised host (so a root domain with a
    capital, a slash or a final dot is never matched), and nothing has
    been logged or called. *)
Theorem plain_pass_through_only_for_root
    (env : ProcessEnv) (parses : string -> bool)
    (net : World -> FetchRequest -> FetchOutcome) (clock : World -> Z)
    (req : NextRequest) (w w' : World) :
  middleware env parses net clock req w = (Returned (Next None), w') ->
  returns (normalizeAndValidateHost (headers req !! "host")) w (Some (ROOT_DOMAIN env))
  /\ ROOT_DOMAIN env <> ""
  /\ normalized_shape (ROOT_DOMAIN env)
  /\ w' = w.
Proof.
  intros E. pose proof (middleware_run env parses net clock req w) as Hk. rewrite E in Hk.
  inversion Hk as [| h Hrun Hne Hroot Eres | | | | |]. subst h w'.
  assert (returns (normalizeAndValidateHost (headers req !! "host")) w
            (Some (ROOT_DOMAIN env))) as Hret by (unfold returns; by rewrite Hrun).
  repeat split; try done.
  all: apply normalize_inv in Hret as (h0 & _ & _ & Ha & Hs & _); rewrite Hs;
    by apply finish_shape.
Qed.

Lemma plain_pass_through_only_for_root_witness :
  returns (normalizeAndValidateHost (headers (request_to "LocalHost:3000" "/") !! "host"))
    quiet (Some (ROOT_DOMAIN default_env))
  /\ ROOT_DOMAIN default_env <> ""
  /\ normalized_shape (ROOT_DOMAIN default_env)
  /\ quiet = quiet.
Proof.
  apply (plain_pass_through_only_for_root default_env http_parser net_down still_clock
           (request_to "LocalHost:3000" "/") quiet quiet).
  reflexivity.
Defined.

(** X3. The answer is 400 exactly when the host validator returns null
    or the empty string. *)
Theorem bad_request_iff
    (env : ProcessEnv) (parses : string -> bool)
    (net : World -> FetchRequest -> FetchOutcome) (clock : World -> Z)
    (req : NextRequest) (w : World) :
  returns (middleware env parses net clock req) w (Respond "Bad Request" 400)
  <-> returns (normalizeAndValidateHost (headers req !! "host")) w None
      \/ returns (normalizeAndValidateHost (headers req !! "host")) w (Some "").
Proof.
  unfold returns. split.
  - intros E. destruct (middleware_run env parses net clock req w)
      as [r w1 Hrun Hr| | | | | |]; try discriminate.
    rewrite Hrun. simpl. by destruct Hr as [-> | ->]; [left|right].
  - destruct (normalize_total (headers req !! "host") w) as (r & w1 & Hrun).
    rewrite Hrun. simpl. intros Hr.
    rewrite (middleware_refused env parses net clock req w w1 r Hrun); [done|].
    destruct Hr as [[= ->]|[= ->]]; auto.
Qed.

(** X4. For a resolved tenant whose id and domain [Headers.set] accepts,
    a path that begins with [/api], with [/healthz] or with [/s/<slug>]
    is handed on unchanged: the answer is a pass-through that carries
    the tenant headers (the id and the slug as [Headers.set] stores
    them: rendered as strings, without white space at the ends), every
    other request header is as the client sent it, and nothing is
    logged after the resolution. *)
Theorem tenant_paths_handed_on
    (env : ProcessEnv) (parses : string -> bool)
    (net : World -> FetchRequest -> FetchOutcome) (clock : World -> Z)
    (req : NextRequest) (w w' : World) (h : string) (t : Json) :
  returns (normalizeAndValidateHost (headers req !! "host")) w (Some h) ->
  h <> "" -> h <> ROOT_DOMAIN env ->
  resolveTenantByHostname env parses net h w = (Returned (Some t), w') ->
  truthy_value (Some t) = true ->
  is_Some (header_value (field "id" t)) ->
  is_Some (header_value (Some (nullish (field "customDomain" t) (JStr h)))) ->
  (exists r, pathname (nextUrl req) = "/api" +:+ r)
  \/ (exists r, pathname (nextUrl req) = "/healthz" +:+ r)
  \/ (exists r, pathname (nextUrl req) = ("/s/" +:+ slug_text t) +:+ r) ->
  exists hdrs,
    middleware env parses net clock req w = (Returned (Next (Some hdrs)), w')
    /\ hdrs !! "x-tenant-id" = header_value (field "id" t)
    /\ hdrs !! "x-tenant-slug" = Some (slug_text t)
    /\ forall name, name ∉ tenant_header_names -> hdrs !! name = headers req !! name.
Proof.
  intros (h0 & _ & _ & _ & _ & Hrun)%normalize_inv Hne Hroot Hres Ht Hid Hdomain Hpath.
  assert (handed_on req t = true) as Hon.
  { unfold handed_on. rewrite <- !startsWith_spec in Hpath.
    destruct Hpath as [-> |[-> | ->]]; by rewrite ?orb_true_r. }
  destruct (resolve_some env parses net h w w' t Hres) as [_ Hvalid].
  pose proof (header_value_resolved_slug t Hvalid) as Hslug.
  destruct (tenant_headers_some req h t (clock w) (clock w') Hid
              (ex_intro _ _ Hslug) Hdomain) as [hdrs Hh].
  rewrite (middleware_resolved env parses net clock req w w' h t Hrun Hne Hroot Hres Ht).
  pose proof (serve_run clock req (clock w) h t w' Ht) as Hserve.
  rewrite Hh, Hon in Hserve. exists hdrs. split; [done|].
  destruct (tenant_headers_lookup _ _ _ _ _ _ Hh) as (? & Hs & _ & _ & _ & ?).
  rewrite Hslug in Hs. auto.
Qed.

Lemma tenant_paths_handed_on_witness :
  exists hdrs,
    middleware default_env http_parser net_acme still_clock
      (request_to "acme.localhost" "/api/users") quiet
    = (Returned (Next (Some hdrs)),
       (resolveTenantByHostname default_env http_parser net_acme "acme.localhost" quiet).2)
    /\ hdrs !! "x-tenant-id" = header_value (field "id" (of_tenant acme))
    /\ hdrs !! "x-tenant-slug" = Some (slug_text (of_tenant acme))
    /\ forall name, name ∉ tenant_header_names ->
         hdrs !! name = headers (request_to "acme.localhost" "/api/users") !! name.
Proof.
  apply (tenant_paths_handed_on default_env http_parser net_acme still_clock
           (request_to "acme.localhost" "/api/users") quiet _ "acme.localhost"
           (of_tenant acme)).
  - reflexivity.
  - discriminate.
  - vm_compute. discriminate.
  - vm_compute. reflexivity.
  - reflexivity.
  - by eexists.
  - by eexists.
  - left. by exists "/users".
Defined.

(** X5. The tenant headers that the middleware sets are the resolver's.
    Whenever the middleware hands request headers on (with or without a
    rewrite), a tenant has been resolved for the normalised host; the
    headers [x-tenant-id], [x-tenant-slug] and [x-tenant-domain] are
    set, over whatever the client sent under these names, to the values
    of this tenant as [Headers.set] stores them (the domain is its
    custom domain unless that is null or missing, and then the
    normalised host); the two time stamps are readings of the clock;
    and every other header is unchanged. (A plain pass-through, for the
    root domain, hands on what the client sent.) *)
Theorem tenant_headers_from_resolver
    (env : ProcessEnv) (parses : string -> bool)
    (net : World -> FetchRequest -> FetchOutcome) (clock : World -> Z)
    (req : NextRequest) (w w' : World) (res : NextResponse) (hdrs : gmap string string) :
  middleware env parses net clock req w = (Returned res, w') ->
  res = Next (Some hdrs) \/ (exists url, res = Rewrite url hdrs) ->
  exists h t w2,
    returns (normalizeAndValidateHost (headers req !! "host")) w (Some h)
    /\ resolveTenantByHostname env parses net h w = (Returned (Some t), w2)
    /\ hdrs !! "x-tenant-id" = header_value (field "id" t)
    /\ hdrs !! "x-tenant-slug" = Some (slug_text t)
    /\ hdrs !! "x-tenant-domain"
       = header_value (Some (nullish (field "customDomain" t) (JStr h)))
    /\ hdrs !! "x-tenant-timestamp" = Some (pretty (clock w2))
    /\ hdrs !! "x-middleware-start" = Some (pretty (clock w))
    /\ forall name, name ∉ tenant_header_names -> hdrs !! name = headers req !! name.
Proof.
  intros E Hres. pose proof (middleware_run env parses net clock req w) as Hk.
  rewrite E in Hk.
  assert (forall h t w2,
    normalizeAndValidateHost (headers req !! "host") w = (Returned (Some h), w) ->
    resolveTenantByHostname env parses net h w = (Returned (Some t), w2) ->
    tenant_headers req h t (clock w) (clock w2) = Some hdrs ->
    exists h t w2,
      returns (normalizeAndValidateHost (headers req !! "host")) w (Some h)
      /\ resolveTenantByHostname env parses net h w = (Returned (Some t), w2)
      /\ hdrs !! "x-tenant-id" = header_value (field "id" t)
      /\ hdrs !! "x-tenant-slug" = Some (slug_text t)
      /\ hdrs !! "x-tenant-domain"
         = header_value (Some (nullish (field "customDomain" t) (JStr h)))
      /\ hdrs !! "x-tenant-timestamp" = Some (pretty (clock w2))
      /\ hdrs !! "x-middleware-start" = Some (pretty (clock w))
      /\ forall name, name ∉ tenant_header_names -> hdrs !! name = headers req !! name)
    as Hgoal.
  { intros h t w2 Hrun Hr Hh. exists h, t, w2.
    split; [unfold returns; by rewrite Hrun|]. split; [done|].
    destruct (resolve_some env parses net h w w2 t Hr) as [_ Hvalid].
    destruct (tenant_headers_lookup _ _ _ _ _ _ Hh) as (? & Hs & ? & ? & ? & ?).
    rewrite (header_value_resolved_slug t Hvalid) in Hs. auto 10. }
  inversion Hk as [| | | |
                   |h t w2 hdrs' Hrun _ _ Hr _ Hh _ Eres
                   |h t w2 w3 hdrs' Hrun _ _ Hr _ Hh _ _ Eres]; subst;
    destruct Hres as [[=]|[url [=]]]; subst; eauto.
Qed.

Lemma tenant_headers_from_resolver_witness :
  exists h t w2,
    returns (normalizeAndValidateHost
               (headers (request_to "Billing.Example.com" "/invoices") !! "host"))
      quiet (Some h)
    /\ resolveTenantByHostname default_env http_parser (net_of (of_tenant globex)) h quiet
       = (Returned (Some t), w2)
    /\ billing_headers !! "x-tenant-id" = header_value (field "id" t)
    /\ billing_headers !! "x-tenant-slug" = Some (slug_text t)
    /\ billing_headers !! "x-tenant-domain"
       = header_value (Some (nullish (field "customDomain" t) (JStr h)))
    /\ billing_headers !! "x-tenant-timestamp" = Some (pretty (still_clock w2))
    /\ billing_headers !! "x-middleware-start" = Some (pretty (still_clock quiet))
    /\ forall name, name ∉ tenant_header_names ->
         billing_headers !! name
         = headers (request_to "Billing.Example.com" "/invoices") !! name.
Proof.
  eapply (tenant_headers_from_resolver default_env http_parser (net_of (of_tenant globex))
            still_clock (request_to "Billing.Example.com" "/invoices") quiet).
  - vm_compute. reflexivity.
  - right. eexists. reflexivity.
Defined.

(** X6. The resolver hands out no payload with a slug that breaks the
    rules, unless the slug is falsy. Whatever the network answers, a
    value the resolver returns is null or a payload whose slug is falsy
    (missing, null, false, 0 or the empty string) or is a string that
    keeps the slug rules; a slug that is another number, an array or an
    object is never handed out. *)
Theorem resolved_slug_valid_or_falsy
    (env : ProcessEnv) (parses : string -> bool)
    (net : World -> FetchRequest -> FetchOutcome)
    (hostname : string) (w w' : World) (t : Json) :
  resolveTenantByHostname env parses net hostname w = (Returned (Some t), w') ->
  t <> JNull
  /\ (truthy_value (field "slug" t) = false
      \/ exists s, field "slug" t = Some (JStr s) /\ slug_rules s).
Proof. apply resolve_some. Qed.

Lemma resolved_slug_valid_or_falsy_witness :
  of_tenant acme <> JNull
  /\ (truthy_value (field "slug" (of_tenant acme)) = false
      \/ exists s, field "slug" (of_tenant acme) = Some (JStr s) /\ slug_rules s).
Proof.
  eapply (resolved_slug_valid_or_falsy default_env http_parser net_acme
            "acme.localhost" quiet).
  vm_compute. reflexivity.
Defined.

(** ** More on the host validator and on the configuration *)

Module ValidatorFacts.
Import Js JsFacts Regex RegexFacts HostFacts MiddlewareFacts NormalFacts.

Lemma host_format_lang (raw : string) : lang hostRegex raw <-> host_format raw.
Proof. apply hostRegex_lang. Qed.

Lemma normalize_invalid (h : string) (w : World) :
  truthy h = true ->
  ~ (host_format (raw_of h) /\ (String.length (raw_of h) <= 253)%nat) ->
  normalizeAndValidateHost (Some h) w
  = (Returned None, logged Warn ["Invalid host header rejected: " +:+ raw_of h] w).
Proof.
  intros Ht Hbad. unfold normalizeAndValidateHost. rewrite Ht. cbn [negb].
  fold (raw_of h).
  destruct (regex_match hostRegex (raw_of h)) eqn:Hm; cbn [negb orb]; [|done].
  destruct (Nat.ltb_spec maxLength (String.length (raw_of h))) as [Hl|Hl]; [done|].
  destruct Hbad. split; [|done]. by apply host_format_lang, regex_match_lang.
Qed.

Lemma suspicious_test (raw : string) :
  contains raw ".." \/ contains raw "javascript:" ->
  existsb (fun pattern => regex_test pattern raw) suspiciousPatterns = true.
Proof.
  intros H. apply existsb_exists. destruct H as [(a & b & ->)|(a & b & ->)].
  - exists (Lit ".."). split; [unfold suspiciousPatterns; simpl; auto|].
    apply regex_test_spec. exists a, "..", b. split; [done|]. by apply lang_lit.
  - exists (LitI "javascript:"). split; [unfold suspiciousPatterns; simpl; auto 10|].
    apply regex_test_spec. exists a, "javascript:", b. split; [done|]. by apply lang_litI.
Qed.

Lemma normalize_suspicious (h : string) (w : World) :
  truthy h = true ->
  host_format (raw_of h) -> (String.length (raw_of h) <= 253)%nat ->
  contains (raw_of h) ".." \/ contains (raw_of h) "javascript:" ->
  normalizeAndValidateHost (Some h) w
  = (Returned None, logged Warn ["Suspicious host header rejected: " +:+ raw_of h] w).
Proof.
  intros Ht Hf%host_format_lang%regex_match_lang Hl Hs.
  unfold normalizeAndValidateHost. rewrite Ht. cbn [negb]. fold (raw_of h).
  rewrite Hf. cbn [negb orb].
  destruct (Nat.ltb_spec maxLength (String.length (raw_of h))) as [Hl'|_];
    [unfold maxLength in Hl'; lia|].
  by rewrite (suspicious_test _ Hs).
Qed.

(** the value the validator returns occurs in what it has inspected *)
Lemma finish_contained (raw : string) :
  accepts raw = true -> contains raw (finish raw).
Proof.
  intros (a & b & -> & _ & _ & _ & Hsplit)%accepted_parts.
  pose proof (finish_cases (a +:+ b)) as Hf. cbv zeta in Hf. rewrite Hsplit in Hf.
  destruct (strip_trailing_dot_prefix a) as [t Ht].
  set (s := finish (a +:+ b)) in *.
  destruct Hf as [[_ Hf]|Hf].
  - exists "", (t +:+ b). transitivity ((strip_trailing_dot a +:+ t) +:+ b).
    + by rewrite <- Ht.
    + by rewrite <- Hf, app_nil_l, app_assoc.
  - exists "www.", (t +:+ b). transitivity ((strip_trailing_dot a +:+ t) +:+ b).
    + by rewrite <- Ht.
    + by rewrite Hf, !app_assoc.
Qed.

Lemma contains_trans (s t u : string) : contains s t -> contains t u -> contains s u.
Proof.
  intros (a & b & ->) (c & d & ->). exists (a +:+ c), (d +:+ b).
  by rewrite !app_assoc.
Qed.

(** a string of host characters, not empty, not too long, with no [..]
    and no final dot, is accepted as it is but for a leading [www.] *)
Lemma normalize_host_chars (s : string) (w : World) :
  s <> "" -> all host_char s = true -> (String.length s <= 253)%nat ->
  ~ contains s ".." -> ~ ends_dot s ->
  normalizeAndValidateHost (Some s) w
  = (Returned (Some (if startsWith s "www." then slice_from 4 s else s)), w).
Proof.
  intros Hne Hall Hlen Hdots Hdot.
  assert (truthy s = true) as Ht by (by destruct s).
  assert (split_head ":" s = s) as Hsplit.
  { rewrite <- (app_nil_r s) at 1. rewrite split_head_host; [done|done|constructor]. }
  assert (accepts (raw_of s) = true) as Ha.
  { rewrite (host_chars_raw _ Hall). apply accepts_intro; try done.
    - apply hostRegex_lang. exists s, "". rewrite app_nil_r. repeat split; try done.
      constructor.
    - intros Hc. assert (contains s ":") as Hcolon.
      { apply (contains_trans _ _ _ Hc). by exists "javascript", "". }
      pose proof (proj1 (all_char _ _) Hall ":"%char Hcolon). done. }
  rewrite (normalize_accept _ _ Ht Ha), (host_chars_raw _ Hall).
  unfold finish. by rewrite Hsplit, (strip_trailing_dot_id _ Hdot).
Qed.

Lemma split_head_no_sep d (s : string) :
  all (fun c => negb (Ascii.eqb c d)) (split_head d s) = true.
Proof.
  induction s as [|c s IH]; [done|]. simpl.
  destruct (Ascii.eqb c d) eqn:E; [done|]. simpl. by rewrite E, IH.
Qed.

Lemma lower_char_colon c : lower_char c = ":"%char -> c = ":"%char.
Proof. by destruct c as [[] [] [] [] [] [] [] []]. Qed.

Lemma toLowerCase_no_colon (s : string) :
  all (fun c => negb (Ascii.eqb c ":")) s = true ->
  all (fun c => negb (Ascii.eqb c ":")) (toLowerCase s) = true.
Proof.
  induction s as [|c s IH]; [done|]. simpl. intros [Hc Hs]%andb_true_iff.
  rewrite (IH Hs), andb_true_r. apply negb_true_iff, Ascii.eqb_neq.
  intros E%lower_char_colon. subst c. done.
Qed.

End ValidatorFacts.

Import ValidatorFacts.

(** X7. What the host validator does with a header, case by case. A
    missing or empty header gives null and no log entry. For any other
    header let [raw] be the header in lower case and trimmed. If [raw]
    has not the form of a host name with an optional port, or is longer
    than 253 characters, the result is null and one warning "Invalid host
    header rejected" is logged. If it has the form but contains [..] or
    [javascript:], the result is null and one warning "Suspicious host
    header rejected" is logged; the other patterns ([<], [>], quotes,
    braces) never decide. Otherwise the normalised host is returned and
    nothing is logged. *)
Theorem validator_outcomes (h : string) (w : World) :
  normalizeAndValidateHost None w = (Returned None, w)
  /\ normalizeAndValidateHost (Some "") w = (Returned None, w)
  /\ (h <> "" ->
      (~ (host_format (raw_of h) /\ (String.length (raw_of h) <= 253)%nat) ->
       normalizeAndValidateHost (Some h) w
       = (Returned None, logged Warn ["Invalid host header rejected: " +:+ raw_of h] w))
      /\ (host_format (raw_of h) -> (String.length (raw_of h) <= 253)%nat ->
          contains (raw_of h) ".." \/ contains (raw_of h) "javascript:" ->
          normalizeAndValidateHost (Some h) w
          = (Returned None,
             logged Warn ["Suspicious host header rejected: " +:+ raw_of h] w))
      /\ (host_format (raw_of h) -> (String.length (raw_of h) <= 253)%nat ->
          ~ contains (raw_of h) ".." -> ~ contains (raw_of h) "javascript:" ->
          normalizeAndValidateHost (Some h) w = (Returned (Some (finish (raw_of h))), w))).
Proof.
  split; [done|]. split; [done|]. intros Hne.
  assert (truthy h = true) as Ht by (by destruct h).
  split; [by apply normalize_invalid|]. split; [by apply normalize_suspicious|].
  intros Hf%host_format_lang Hl Hdots Hjs. apply (normalize_accept _ _ Ht).
  by apply accepts_intro.
Qed.

Lemma validator_outcomes_witness :
  normalizeAndValidateHost (Some " Evil..Example.com:8080") quiet
  = (Returned None,
     logged Warn ["Suspicious host header rejected: " +:+ raw_of " Evil..Example.com:8080"]
       quiet).
Proof.
  destruct (validator_outcomes " Evil..Example.com:8080" quiet) as (_ & _ & H).
  destruct H as (_ & Hsuspicious & _); [discriminate|].
  apply Hsuspicious.
  - exists "evil..example.com", ":8080". split; [reflexivity|]. split; [discriminate|].
    split; [reflexivity|]. apply port_present; [simpl; lia|reflexivity].
  - simpl. lia.
  - left. by exists "evil", "example.com:8080".
Defined.

(** X8. The host validator accepts what it returns: a non-empty host it
    has returned, given to it again, is returned again without a log
    entry, as it is when it does not begin with [www.], and without this
    [www.] when it does. *)
Theorem validator_accepts_its_output (h s : string) (w w' : World) :
  returns (normalizeAndValidateHost (Some h)) w (Some s) -> s <> "" ->
  (~ (exists r, s = "www." +:+ r) ->
   normalizeAndValidateHost (Some s) w' = (Returned (Some s), w'))
  /\ (forall r, s = "www." +:+ r ->
      normalizeAndValidateHost (Some s) w' = (Returned (Some r), w')).
Proof.
  intros (h0 & [= <-] & _ & Ha & Hs & _)%normalize_inv Hne.
  destruct (finish_shape _ Ha) as (Hall & _ & _ & _ & Hdot & Hlen).
  pose proof (accepts_clean _ Ha) as (_ & Hdots & _).
  pose proof (finish_contained _ Ha) as Hin. rewrite <- Hs in *.
  assert (~ contains s "..") as Hdots' by (intros Hc; by eapply Hdots, contains_trans).
  pose proof (normalize_host_chars s w' Hne Hall Hlen Hdots' Hdot) as Hrun.
  split.
  - intros Hwww%startsWith_false. by rewrite Hwww in Hrun.
  - intros r ->. by rewrite Hrun, startsWith_app.
Qed.

Lemma validator_accepts_its_output_witness :
  (~ (exists r, "www.example.com" = "www." +:+ r) ->
   normalizeAndValidateHost (Some "www.example.com") quiet
   = (Returned (Some "www.example.com"), quiet))
  /\ (forall r, "www.example.com" = "www." +:+ r ->
      normalizeAndValidateHost (Some "www.example.com") quiet = (Returned (Some r), quiet)).
Proof.
  apply (validator_accepts_its_output "WWW.www.Example.com.:8080" "www.example.com"
           quiet quiet).
  - reflexivity.
  - discriminate.
Defined.

(** X9. The root domain never holds a port or a capital letter: it
    contains no colon and is its own lower case. With no base URL
    configured it is [localhost], whatever the port. *)
Theorem root_domain_bare (env : ProcessEnv) :
  ~ contains (ROOT_DOMAIN env) ":"
  /\ toLowerCase (ROOT_DOMAIN env) = ROOT_DOMAIN env
  /\ (env_NEXT_PUBLIC_BASE_URL env = None -> ROOT_DOMAIN env = "localhost").
Proof.
  unfold ROOT_DOMAIN. split; [|split].
  - intros Hc.
    pose proof (toLowerCase_no_colon _
      (split_head_no_sep ":" (default ("localhost:" +:+ PORT env)
                                 (strip_scheme <$> env_NEXT_PUBLIC_BASE_URL env)))) as Hall.
    pose proof (proj1 (all_char _ _) Hall ":"%char Hc). done.
  - apply toLowerCase_idem.
  - intros ->. reflexivity.
Qed.

(** ** More on the resolver *)

Module ResolverFacts.
Import Js JsFacts Regex RegexFacts HostFacts SlugFacts HeadersFacts MiddlewareFacts
  NormalFacts TenantFacts.

Section Console.
Variable env : ProcessEnv.
Variable parses : string -> bool.
Variable net : World -> FetchRequest -> FetchOutcome.

(** what [lookup] logs when its call is not answered with an OK status *)
Lemma lookup_console (hostname : string) (url : URL) (hdrs : gmap string string)
    (w : World) :
  auth_headers env = Some hdrs ->
  (forall response,
      net (setTimeout w).2 (lookup_request hostname url hdrs) = Fulfilled response ->
      ok response = false ->
      console (lookup env net hostname url w).2
      = console w
        ++ (if status response =? 404 then []
            else [{| log_level := Error;
                     log_args := ["Tenant resolution failed with status: "
                                  +:+ pretty (status response)] |}]))
  /\ (forall e,
        net (setTimeout w).2 (lookup_request hostname url hdrs) = Rejected e ->
        console (lookup env net hostname url w).2
        = console w
          ++ (if is_Error e then
                if String.eqb (error_name e) "AbortError"
                then [{| log_level := Error;
                         log_args := ["Tenant resolution timeout for " +:+ hostname] |}]
                else [{| log_level := Error;
                         log_args := ["Tenant resolution error for " +:+ hostname +:+ ":";
                                      error_message e] |}]
              else [])).
Proof.
  unfold auth_headers. intros Ef.
  split; [intros response Hr Hok|intros e Hr];
    unfold lookup; fold (auth_init env);
    rewrite (bind_returned setTimeout _ w (setTimeout w).2 tt) by done;
    unfold finally, try_catch; unfold mbind at 1, M_bind at 1, fetch at 1;
    rewrite Ef; fold (lookup_request hostname url hdrs); rewrite Hr.
  - rewrite Hok. destruct (status response =? 404); cbn [negb];
      unfold mbind, M_bind, mret, M_ret, console_error, log, clearTimeout, setTimeout;
      cbn [fst snd console]; first [done | symmetry; apply List.app_nil_r].
  - cbv beta.
    destruct (is_Error e); [destruct (String.eqb (error_name e) "AbortError")|];
      unfold mbind, M_bind, mret, M_ret, console_error, log, clearTimeout, setTimeout;
      cbn [fst snd console]; first [done | symmetry; apply List.app_nil_r].
Qed.

(** a run of the resolver that has issued a request is a run of [lookup] *)
Lemma resolve_is_lookup (hostname : string) (w : World) (request : FetchRequest) :
  network (resolveTenantByHostname env parses net hostname w).2
  = network w ++ [request] ->
  exists url hdrs,
    auth_headers env = Some hdrs
    /\ request = lookup_request hostname url hdrs
    /\ resolveTenantByHostname env parses net hostname w
       = lookup env net hostname url w.
Proof.
  intros Hn.
  assert (forall url,
            resolveTenantByHostname env parses net hostname w
            = lookup env net hostname url w ->
            exists url hdrs,
              auth_headers env = Some hdrs
              /\ request = lookup_request hostname url hdrs
              /\ resolveTenantByHostname env parses net hostname w
                 = lookup env net hostname url w) as Hlook.
  { intros url E. pose proof (lookup_run env net hostname url w) as Hrun.
    rewrite E in Hn. destruct (auth_headers env) as [hdrs|].
    - destruct Hrun as (w' & E' & Hn' & _). rewrite E' in Hn. cbn [snd] in Hn.
      rewrite Hn' in Hn. apply app_inv_head in Hn as [= <-]. by exists url, hdrs.
    - destruct Hrun as (w' & E' & Hn' & _). rewrite E' in Hn. cbn [snd] in Hn.
      rewrite Hn' in Hn. by apply snoc_not_self in Hn. }
  destruct (url_accepts parses (BASE_URL env)) eqn:Hu.
  - destruct (endsWith hostname ("." +:+ ROOT_DOMAIN env)) eqn:E.
    + apply endsWith_spec in E as [p ->]. destruct (isSlugValid p) eqn:Ep.
      * by apply (Hlook _ (resolve_subdomain_valid env parses net p w Hu Ep)).
      * rewrite (resolve_subdomain_invalid env parses net p w Hu Ep) in Hn.
        by apply snoc_not_self in Hn.
    + assert (forall p, hostname <> p +:+ "." +:+ ROOT_DOMAIN env) as Hp.
      { intros p ->. rewrite (proj2 (endsWith_spec _ _)) in E by eauto. done. }
      by apply (Hlook _ (resolve_other env parses net hostname w Hu Hp)).
  - rewrite (resolve_refused env parses net hostname w Hu) in Hn.
    by apply snoc_not_self in Hn.
Qed.

End Console.




End ResolverFacts.

Import ResolverFacts.

(** X10. What the resolver logs when its lookup fails. A reply with
    status 404 is not logged; a reply with any other status that is not
    OK is logged as one error that names the status; an aborted call is
    logged as a timeout for the host name; a thrown value that is not an
    [Error] is not logged at all. *)
Theorem lookup_failures_logged
    (env : ProcessEnv) (parses : string -> bool)
    (net : World -> FetchRequest -> FetchOutcome)
    (hostname : string) (w w' : World) (r : Value) (request : FetchRequest) :
  resolveTenantByHostname env parses net hostname w = (Returned r, w') ->
  network w' = network w ++ [request] ->
  (forall response,
      net (setTimeout w).2 request = Fulfilled response -> ok response = false ->
      (status response = 404 -> console w' = console w)
      /\ (status response <> 404 ->
          console w' = console w
            ++ [{| log_level := Error;
                   log_args := ["Tenant resolution failed with status: "
                                +:+ pretty (status response)] |}]))
  /\ (forall e,
        net (setTimeout w).2 request = Rejected e ->
        (is_Error e = true -> error_name e = "AbortError" ->
         console w' = console w
           ++ [{| log_level := Error;
                  log_args := ["Tenant resolution timeout for " +:+ hostname] |}])
        /\ (is_Error e = false -> console w' = console w)).
Proof.
  intros E Hn.
  assert (network (resolveTenantByHostname env parses net hostname w).2
          = network w ++ [request]) as Hn' by (by rewrite E).
  destruct (resolve_is_lookup env parses net hostname w request Hn')
    as (url & hdrs & Hh & -> & El).
  destruct (lookup_console env net hostname url hdrs w Hh) as [Hreply Hfail].
  rewrite <- El, E in Hreply, Hfail. cbn [snd] in Hreply, Hfail. split.
  - intros response Hr Hok. rewrite (Hreply response Hr Hok). split.
    + intros ->. by rewrite List.app_nil_r.
    + intros Hs. by destruct (Z.eqb_spec (status response) 404).
  - intros e He. rewrite (Hfail e He). split.
    + intros -> ->. done.
    + intros ->. by rewrite List.app_nil_r.
Qed.

Lemma lookup_failures_logged_witness :
  (forall response,
      net_404 (setTimeout quiet).2
        (lookup_request "shop.example.com" (resolve_url default_env)
           {[ "x-internal-call" := "tenant-resolver" ]})
      = Fulfilled response -> ok response = false ->
      (status response = 404 ->
       console (resolveTenantByHostname default_env http_parser net_404
                  "shop.example.com" quiet).2
       = console quiet)
      /\ (status response <> 404 ->
          console (resolveTenantByHostname default_env http_parser net_404
                     "shop.example.com" quiet).2
          = console quiet
            ++ [{| log_level := Error;
                   log_args := ["Tenant resolution failed with status: "
                                +:+ pretty (status response)] |}]))
  /\ (forall e,
        net_404 (setTimeout quiet).2
          (lookup_request "shop.example.com" (resolve_url default_env)
             {[ "x-internal-call" := "tenant-resolver" ]})
        = Rejected e ->
        (is_Error e = true -> error_name e = "AbortError" ->
         console (resolveTenantByHostname default_env http_parser net_404
                    "shop.example.com" quiet).2
         = console quiet
           ++ [{| log_level := Error;
                  log_args := ["Tenant resolution timeout for " +:+ "shop.example.com"] |}])
        /\ (is_Error e = false ->
            console (resolveTenantByHostname default_env http_parser net_404
                       "shop.example.com" quiet).2
            = console quiet)).
Proof.
  apply (lookup_failures_logged default_env http_parser net_404 "shop.example.com"
           quiet _ None).
  - vm_compute. reflexivity.
  - vm_compute. reflexivity.
Defined.

(** X11. The middleware answers 404 exactly when the host is valid, is
    not the root domain, and the resolver returns for it null or a
    payload that is falsy (false, 0 or the empty string). *)
Theorem not_found_iff
    (env : ProcessEnv) (parses : string -> bool)
    (net : World -> FetchRequest -> FetchOutcome) (clock : World -> Z)
    (req : NextRequest) (w : World) :
  returns (middleware env parses net clock req) w (Respond "Not Found" 404)
  <-> exists h r,
        returns (normalizeAndValidateHost (headers req !! "host")) w (Some h)
        /\ h <> "" /\ h <> ROOT_DOMAIN env
        /\ returns (resolveTenantByHostname env parses net h) w r
        /\ truthy_value r = false.
Proof.
  unfold returns at 1. split.
  - intros E. destruct (middleware_run env parses net clock req w)
      as [| | |h r w2 Hrun Hne Hroot Hres Hr| | |]; try discriminate.
    exists h, r. unfold returns. by rewrite Hrun, Hres.
  - intros (h & r & (h0 & _ & _ & _ & _ & Hrun)%normalize_inv & Hne & Hroot & Hres & Hr).
    unfold returns in Hres.
    destruct (resolveTenantByHostname env parses net h w) as [o w2] eqn:E.
    simpl in Hres. subst o.
    by rewrite (middleware_unresolved env parses net clock req w w2 h r Hrun Hne Hroot E Hr).
Qed.



(** ** The lookup endpoint *)

Module EndpointFacts.
Import Js JsFacts.

Lemma truthy_opt_present (o : option string) : truthy_opt o = true <-> present o.
Proof.
  unfold present. destruct o as [[|c s]|]; simpl; split; try done.
  - by intros [_ ?].
  - by intros [? _].
Qed.

Lemma not_present (o : option string) : truthy_opt o = false <-> ~ present o.
Proof.
  rewrite <- truthy_opt_present. by destruct (truthy_opt o).
Qed.

(** the test of the two headers *)
Lemma authorised_test (env : ProcessEnv) (request : ApiRequest) :
  (if truthy_opt (env_INTERNAL_API_SECRET env)
   then negb (bool_decide (api_headers request !! "x-internal-secret"
                           = env_INTERNAL_API_SECRET env))
   else negb (bool_decide (api_headers request !! "x-internal-call"
                           = Some "tenant-resolver"))) = false
  <-> authorised env request.
Proof.
  unfold authorised.
  destruct (env_INTERNAL_API_SECRET env) as [[|c secret]|] eqn:E; cbn [truthy_opt truthy];
    rewrite negb_false_iff, bool_decide_eq_true; split.
  - intros H. right. auto.
  - intros [(s & [= <-] & ? & _)|[_ ?]]; done.
  - intros H. left. exists (String c secret). done.
  - intros [(s & [= <-] & _ & ?)|[[?|?] _]]; done.
  - intros H. right. auto.
  - intros [(s & ? & _)|[_ ?]]; done.
Qed.

Lemma GET_denied (env : ProcessEnv) (db : Db) (request : ApiRequest) (w : World) :
  ~ authorised env request ->
  GET env db request w
  = (Returned {| api_status := 401; api_body := ApiError "Unauthorized" |}, w).
Proof.
  intros H. unfold GET. rewrite <- authorised_test in H.
  by destruct (if truthy_opt _ then _ else _).
Qed.

Lemma GET_missing (env : ProcessEnv) (db : Db) (request : ApiRequest) (w : World) :
  authorised env request ->
  ~ present (slug_param request) -> ~ present (hostname_param request) ->
  GET env db request w
  = (Returned {| api_status := 400;
                 api_body := ApiError "Missing slug or hostname parameter" |}, w).
Proof.
  intros Ha%authorised_test Hs%not_present Hh%not_present. unfold GET.
  rewrite Ha. fold (slug_param request). fold (hostname_param request).
  by rewrite Hs, Hh.
Qed.

Lemma GET_rows (env : ProcessEnv) (rows : list TenantInfo.t) (request : ApiRequest)
    (w : World) :
  authorised env request ->
  present (slug_param request) \/ present (hostname_param request) ->
  GET env (DbRows rows) request w
  = (Returned
       match head (List.filter
                     (or_conditions
                        (conditions_of (slug_param request) (hostname_param request)))
                     rows) with
       | None => {| api_status := 404; api_body := ApiError "Tenant not found" |}
       | Some tenant => {| api_status := 200; api_body := ApiTenant tenant |}
       end, w).
Proof.
  intros Ha%authorised_test Hp. unfold GET.
  rewrite Ha. fold (slug_param request). fold (hostname_param request).
  assert (negb (truthy_opt (slug_param request))
          && negb (truthy_opt (hostname_param request)) = false) as ->.
  { destruct Hp as [->%truthy_opt_present | ->%truthy_opt_present];
      by rewrite ?andb_false_r. }
  cbv zeta. fold (conditions_of (slug_param request) (hostname_param request)).
  unfold try_catch, select_first, mbind, M_bind, mret, M_ret.
  by destruct (head _) as [[]|].
Qed.

Lemma GET_fails (env : ProcessEnv) (e : JsError) (request : ApiRequest) (w : World) :
  authorised env request ->
  present (slug_param request) \/ present (hostname_param request) ->
  GET env (DbFails e) request w
  = (Returned {| api_status := 500; api_body := ApiError "Internal server error" |},
     logged Error ["Tenant resolution error:"; error_name e +:+ ": " +:+ error_message e] w).
Proof.
  intros Ha%authorised_test Hp. unfold GET.
  rewrite Ha. fold (slug_param request). fold (hostname_param request).
  assert (negb (truthy_opt (slug_param request))
          && negb (truthy_opt (hostname_param request)) = false) as ->.
  { destruct Hp as [->%truthy_opt_present | ->%truthy_opt_present];
      by rewrite ?andb_false_r. }
  reflexivity.
Qed.

(** the four ways a call of the endpoint can go *)
Lemma GET_cases (env : ProcessEnv) (db : Db) (request : ApiRequest) (w : World) :
  (~ authorised env request
   /\ GET env db request w
      = (Returned {| api_status := 401; api_body := ApiError "Unauthorized" |}, w))
  \/ (authorised env request
      /\ ~ present (slug_param request) /\ ~ present (hostname_param request)
      /\ GET env db request w
         = (Returned {| api_status := 400;
                        api_body := ApiError "Missing slug or hostname parameter" |}, w))
  \/ (authorised env request
      /\ (present (slug_param request) \/ present (hostname_param request))
      /\ ((exists rows t,
             db = DbRows rows
             /\ GET env db request w
                = (Returned {| api_status := 200; api_body := ApiTenant t |}, w))
          \/ (exists rows,
                db = DbRows rows
                /\ GET env db request w
                   = (Returned {| api_status := 404;
                                  api_body := ApiError "Tenant not found" |}, w))
          \/ (exists e,
                db = DbFails e
                /\ GET env db request w
                   = (Returned {| api_status := 500;
                                  api_body := ApiError "Internal server error" |},
                      logged Error
                        ["Tenant resolution error:";
                         error_name e +:+ ": " +:+ error_message e] w)))).
Proof.
  destruct (authorised_test env request) as [Hto Hfrom].
  destruct (if truthy_opt (env_INTERNAL_API_SECRET env) then _ else _) eqn:Hd.
  { assert (~ authorised env request) as Ha by (intros H%Hfrom; done).
    left. split; [done|]. by apply GET_denied. }
  pose proof (Hto eq_refl) as Ha. right.
  destruct (truthy_opt (slug_param request) || truthy_opt (hostname_param request)) eqn:Hp.
  - assert (present (slug_param request) \/ present (hostname_param request)) as Hp'.
    { rewrite <- !truthy_opt_present. by apply orb_true_iff. }
    right. split; [done|]. split; [done|]. destruct db as [rows|e].
    + rewrite (GET_rows env rows request w Ha Hp'). destruct (head _) as [t|]; eauto 10.
    + rewrite (GET_fails env e request w Ha Hp'). eauto 10.
  - apply orb_false_iff in Hp as [Hs%not_present Hh%not_present].
    left. split; [done|]. split; [done|]. split; [done|]. by apply GET_missing.
Qed.

End EndpointFacts.

Import EndpointFacts.

(** X13. The endpoint answers 401 exactly to callers that are not
    authorised. With a non-empty secret configured, only the header
    [x-internal-secret] with this secret authorises (the fallback header
    [x-internal-call] does not); with no secret, or an empty one, only
    [x-internal-call: tenant-resolver] does. A refused call does not
    reach the database and logs nothing. *)
Theorem unauthorised_iff (env : ProcessEnv) (db : Db) (request : ApiRequest) (w : World) :
  (~ authorised env request ->
   GET env db request w
   = (Returned {| api_status := 401; api_body := ApiError "Unauthorized" |}, w))
  /\ (forall r w', GET env db request w = (Returned r, w') ->
        api_status r = 401 -> ~ authorised env request).
Proof.
  split; [apply GET_denied|]. intros r w' E Hs.
  destruct (GET_cases env db request w)
    as [[Ha _]|[(_ & _ & _ & E')|(_ & _ & [(? & ? & _ & E')|[(? & _ & E')|(? & _ & E')]])]];
    [done|rewrite E' in E; injection E as <- _; done..].
Qed.

(** X14. An authorised call is answered 400 exactly when both
    parameters, [slug] and [hostname], are missing or empty; it then does
    not reach the database. *)
Theorem missing_parameters_iff (env : ProcessEnv) (db : Db) (request : ApiRequest)
    (w : World) :
  authorised env request ->
  (~ present (slug_param request) /\ ~ present (hostname_param request) ->
   GET env db request w
   = (Returned {| api_status := 400;
                  api_body := ApiError "Missing slug or hostname parameter" |}, w))
  /\ (forall r w', GET env db request w = (Returned r, w') ->
        api_status r = 400 ->
        ~ present (slug_param request) /\ ~ present (hostname_param request)).
Proof.
  intros Ha. split; [intros [? ?]; by apply GET_missing|]. intros r w' E Hs.
  destruct (GET_cases env db request w)
    as [[? _]|[(_ & ? & ? & _)|(_ & _ & [(? & ? & _ & E')|[(? & _ & E')|(? & _ & E')]])]];
    [done|done|rewrite E' in E; injection E as <- _; done..].
Qed.

Lemma missing_parameters_iff_witness :
  (~ present (slug_param empty_slug_call) /\ ~ present (hostname_param empty_slug_call) ->
   GET default_env (DbRows store) empty_slug_call quiet
   = (Returned {| api_status := 400;
                  api_body := ApiError "Missing slug or hostname parameter" |}, quiet))
  /\ (forall r w',
        GET default_env (DbRows store) empty_slug_call quiet = (Returned r, w') ->
        api_status r = 400 ->
        ~ present (slug_param empty_slug_call) /\ ~ present (hostname_param empty_slug_call)).
Proof.
  apply (missing_parameters_iff default_env (DbRows store) empty_slug_call quiet).
  right. split; [by left|reflexivity].
Defined.

(** X16. The endpoint never throws, and it makes no call of its own. Its
    status is 200, 400, 401, 404 or 500, and a tenant is in the body
    exactly with status 200. The status is 500 exactly when the query
    fails on an authorised call with a parameter; this is the one case in
    which something is logged: one error. *)
Theorem endpoint_never_throws (env : ProcessEnv) (db : Db) (request : ApiRequest)
    (w : World) :
  exists r w',
    GET env db request w = (Returned r, w')
    /\ network w' = network w /\ timers w' = timers w
    /\ (api_status r = 200 \/ api_status r = 400 \/ api_status r = 401
        \/ api_status r = 404 \/ api_status r = 500)
    /\ (api_status r = 200 <-> exists t, api_body r = ApiTenant t)
    /\ (api_status r = 500 <->
        authorised env request
        /\ (present (slug_param request) \/ present (hostname_param request))
        /\ exists e, db = DbFails e)
    /\ (api_status r <> 500 -> w' = w)
    /\ (api_status r = 500 -> exists entry, console w' = console w ++ [entry]).
Proof.
  destruct (GET_cases env db request w)
    as [[Ha ->]|[(Ha & Hs & Hh & ->)
                |(Ha & Hp & [(rows & t & -> & ->)|[(rows & -> & ->)|(e & -> & ->)]])]];
    eexists _, _; (split; [reflexivity|]); cbn [api_status api_body];
    (split; [reflexivity|]); (split; [reflexivity|]); (split; [auto 10|]).
  - split; [split; [done|intros [? ?]; done]|].
    split; [split; [done|intros (? & _); done]|]. split; [done|done].
  - split; [split; [done|intros [? ?]; done]|].
    split; [split; [done|intros (_ & [?|?] & _); done]|]. split; [done|done].
  - split; [split; [eauto|done]|].
    split; [split; [done|intros (_ & _ & ? & ?); done]|]. split; [done|done].
  - split; [split; [done|intros [? ?]; done]|].
    split; [split; [done|intros (_ & _ & ? & ?); done]|]. split; [done|done].
  - split; [split; [done|intros [? ?]; done]|].
    split; [split; [eauto|done]|]. split; [done|]. intros _. by eexists.
Qed.

(** ** The resolver's request at the endpoint *)

Module ServedFacts.
Import Js JsFacts HeadersFacts EndpointFacts.

Lemma params_get_set (k v : string) (ps : list (string * string)) :
  params_get k (params_set k v ps) = Some v.
Proof.
  induction ps as [|[k' v'] ps IH]; simpl.
  - by rewrite String.eqb_refl.
  - destruct (String.eqb k' k) eqn:E; simpl; [by rewrite String.eqb_refl|by rewrite E].
Qed.

(** the headers [fetch] sends, for each configuration of the secret *)
Lemma auth_headers_cases (env : ProcessEnv) (hdrs : gmap string string) :
  auth_headers env = Some hdrs ->
  (exists secret,
      env_INTERNAL_API_SECRET env = Some secret /\ secret <> ""
      /\ hdrs = {[ "x-internal-secret" := Headers.normalize secret ]})
  \/ ((env_INTERNAL_API_SECRET env = None \/ env_INTERNAL_API_SECRET env = Some "")
      /\ hdrs = {[ "x-internal-call" := "tenant-resolver" ]}).
Proof.
  unfold auth_headers, auth_init, INTERNAL_API_SECRET.
  destruct (env_INTERNAL_API_SECRET env) as [[|c s]|]; cbn [truthy Headers.fill].
  - intros [= <-]. right. split; [by right|]. by rewrite insert_empty.
  - unfold Headers.set.
    destruct (Headers.accepted (String c s)) as [v|] eqn:Ev;
      cbn [fmap option_fmap option_map Headers.fill]; [|done].
    apply accepted_inv in Ev as ->. intros [= <-]. left. exists (String c s).
    split; [done|]. split; [done|]. by rewrite insert_empty.
  - intros [= <-]. right. split; [by left|]. by rewrite insert_empty.
Qed.

(** the request of the resolver is authorised exactly when the secret
    is sent as it is configured *)
Lemma lookup_authorised (env : ProcessEnv) (hostname : string) (url : URL)
    (hdrs : gmap string string) :
  auth_headers env = Some hdrs ->
  authorised env (as_api_request (lookup_request hostname url hdrs))
  <-> forall secret,
        env_INTERNAL_API_SECRET env = Some secret -> Headers.normalize secret = secret.
Proof.
  intros H. unfold authorised, as_api_request, lookup_request.
  cbn [api_headers fetch_headers].
  destruct (auth_headers_cases env hdrs H) as [(secret & Hs & Hne & ->)|[Hs ->]]; split.
  - intros [(s & Hs' & _ & Hl)|[[Hs'|Hs'] _]] s0 Hs0; try congruence.
    rewrite lookup_singleton_eq in Hl. congruence.
  - intros Hn. left. exists secret. split; [done|]. split; [done|].
    rewrite lookup_singleton_eq. by rewrite (Hn secret Hs).
  - intros _ secret Hs'. destruct Hs as [Hs|Hs]; [congruence|].
    rewrite Hs in Hs'. by injection Hs' as <-.
  - intros _. right. split; [done|]. apply lookup_singleton_eq.
Qed.

Lemma lookup_hostname_param (hostname : string) (url : URL) (hdrs : gmap string string) :
  hostname_param (as_api_request (lookup_request hostname url hdrs)) = Some hostname.
Proof. apply params_get_set. Qed.

End ServedFacts.

Import ServedFacts.

(** X17. What the endpoint makes of a call that carries the headers and
    the URL of the request the resolver issues, under the same
    configuration. For a host name that is not empty it is never
    answered 400. It is never answered 401 when the secret, if one is
    set, has no white space at its ends; and it is always answered 401
    when the secret has, because [fetch] sends it without: then no
    tenant is ever resolved. *)
Theorem lookup_call_at_endpoint (env : ProcessEnv) (db : Db) (hostname : string)
    (url : URL) (hdrs : gmap string string) (w w' : World) (r : ApiResponse) :
  auth_headers env = Some hdrs ->
  GET env db (as_api_request (lookup_request hostname url hdrs)) w = (Returned r, w') ->
  (hostname <> "" -> api_status r <> 400)
  /\ ((forall secret,
         INTERNAL_API_SECRET env = Some secret -> Headers.normalize secret = secret) ->
      api_status r <> 401)
  /\ (forall secret,
        INTERNAL_API_SECRET env = Some secret -> Headers.normalize secret <> secret ->
        api_status r = 401).
Proof.
  intros Hh E. pose proof (lookup_authorised env hostname url hdrs Hh) as Ha.
  unfold INTERNAL_API_SECRET.
  destruct (GET_cases env db (as_api_request (lookup_request hostname url hdrs)) w)
    as [[Hno E']|[(Hyes & _ & Hhost & E')
                 |(Hyes & _ & [(? & ? & _ & E')|[(? & _ & E')|(? & _ & E')]])]];
    rewrite E' in E; injection E as <- _; cbn [api_status];
    (split; [|split]); try done.
  - intros Hn. destruct Hno. by apply Ha.
  - intros Hne. destruct Hhost. rewrite lookup_hostname_param. split; congruence.
  - intros secret Hs Hn. destruct Hn. by apply (proj1 Ha Hyes).
  - intros secret Hs Hn. destruct Hn. by apply (proj1 Ha Hyes).
  - intros secret Hs Hn. destruct Hn. by apply (proj1 Ha Hyes).
  - intros secret Hs Hn. destruct Hn. by apply (proj1 Ha Hyes).
Qed.

Lemma lookup_call_at_endpoint_witness :
  ("acme.localhost" <> "" ->
   api_status {| api_status := 401; api_body := ApiError "Unauthorized" |} <> 400)
  /\ ((forall secret,
         INTERNAL_API_SECRET (env_with_secret " s3cret") = Some secret ->
         Headers.normalize secret = secret) ->
      api_status {| api_status := 401; api_body := ApiError "Unauthorized" |} <> 401)
  /\ (forall secret,
        INTERNAL_API_SECRET (env_with_secret " s3cret") = Some secret ->
        Headers.normalize secret <> secret ->
        api_status {| api_status := 401; api_body := ApiError "Unauthorized" |} = 401).
Proof.
  apply (lookup_call_at_endpoint (env_with_secret " s3cret") (DbRows store)
           "acme.localhost"
           (searchParams_set "slug" "acme" (resolve_url (env_with_secret " s3cret")))
           {[ "x-internal-secret" := "s3cret" ]} quiet quiet).
  - reflexivity.
  - reflexivity.
Defined.
